(** * stLearn plotting front-end and data loader: a shallow embedding

    Sources embedded here:
    - [stlearn/plotting/classes.py]: [SpatialBasePlot], [GenePlot],
      [ClusterPlot], [SubClusterPlot], [CciPlot];
    - [stlearn/datasets/datasets.py]: [example_bcba].

    Numbers that are floats in the program are rationals here: the
    arithmetic of the program is kept as written, rounding is not modelled.
    Python exceptions are values of [exn]; a computation that touches the
    outside world (the caller's AnnData object, warnings, files, the network)
    is a state transformer that may raise. The state survives a raise, as the
    mutations done before a Python exception do.

    The log of a world records what the code of the repository itself does:
    its own calls of [warnings.warn], [savefig] and the download. Warnings
    that the libraries issue on their own account are not recorded. *)

From Stdlib Require Import QArith Qabs Qminmax ZArith Ascii String List Lia Lqa.
From stdpp Require Import base option list strings pretty gmap.

Local Open Scope string_scope.

(** ** Exceptions and results *)

Inductive exn : Type :=
  | AssertionError (msg : string)
  | ValueError (msg : string)
  | KeyError (key : string)
  | IndexError
  | AttributeError (attr : string)
  | NameError (name : string)
  | TypeError
  | ZeroDivisionError
  | InvalidIndexError
  | FileExistsError
  | FileNotFoundError
  | NotADirectoryError
  | ExternalError (what : string).

Inductive result (A : Type) : Type :=
  | Ok (a : A)
  | Raise (e : exn).
Arguments Ok {A} a.
Arguments Raise {A} e.

Definition is_ok {A} (r : result A) : bool :=
  match r with Ok _ => true | Raise _ => false end.

#[global] Instance result_ret : MRet result := fun A a => Ok a.
#[global] Instance result_bind : MBind result := fun A B f r =>
  match r with Ok a => f a | Raise e => Raise e end.
#[global] Instance result_fmap : FMap result := fun A B f r =>
  match r with Ok a => Ok (f a) | Raise e => Raise e end.

(** [o or_raise e]: the value of an optional lookup, or the exception the
    program gets when it is missing. *)
Definition or_raise {A} (o : option A) (e : exn) : result A :=
  match o with Some a => Ok a | None => Raise e end.

(** Sequencing a fallible function over a list, stopping at the first raise. *)
Fixpoint mapR {A B} (f : A -> result B) (l : list A) : result (list B) :=
  match l with
  | [] => Ok []
  | a :: l' =>
      match f a with
      | Ok b => match mapR f l' with Ok bs => Ok (b :: bs) | Raise e => Raise e end
      | Raise e => Raise e
      end
  end.

(** ** Computations over a world

    [M W A]: a computation over a world [W] that returns an [A] or raises. *)

Definition M (W A : Type) : Type := W -> result A * W.

Definition ret {W A} (a : A) : M W A := fun w => (Ok a, w).
Definition raise {W A} (e : exn) : M W A := fun w => (Raise e, w).
Definition bind {W A B} (m : M W A) (f : A -> M W B) : M W B :=
  fun w => match m w with
           | (Ok a, w') => f a w'
           | (Raise e, w') => (Raise e, w')
           end.
Definition lift {W A} (r : result A) : M W A := fun w => (r, w).
Definition get_world {W} : M W W := fun w => (Ok w, w).
Definition modify_world {W} (f : W -> W) : M W unit := fun w => (Ok tt, f w).

Declare Scope comp_scope.
Delimit Scope comp_scope with comp.
Notation "x <- m ;; k" := (bind m (fun x => k))
  (at level 100, m at next level, right associativity) : comp_scope.
Notation "m ;;; k" := (bind m (fun _ => k))
  (at level 100, right associativity) : comp_scope.
Local Open Scope comp_scope.

(** Python [assert c, msg]. *)
Definition assert_ {W} (c : bool) (msg : string) : M W unit :=
  if c then ret tt else raise (AssertionError msg).

(** A Python [for] loop over a list that is not changed by its body; [acc]
    is what the body updates. *)
Fixpoint for_each {W A S} (l : list A) (body : S -> A -> M W S) (acc : S) : M W S :=
  match l with
  | [] => ret acc
  | a :: l' => acc' <- body acc a ;; for_each l' body acc'
  end.

(** Python [enumerate]. *)
Definition enumerate {A} (l : list A) : list (nat * A) :=
  zip (seq 0 (length l)) l.

(** ** The annotated-matrix object (AnnData)

    One [Spot] per observation (row), so that every per-observation array
    has the number of rows of [obs] by construction. A missing key in
    [spot_obs] is a missing value (NaN) of that column at that row. *)

Inductive column : Type :=
  | Categorical (categories : list string)
  | Plain.

Record Spot : Type := mkSpot {
  spot_name : string;                 (* obs.index *)
  spot_obs : gmap string string;      (* the row of obs *)
  spot_X : list Q;                    (* the row of X, one value per var *)
  spot_raw_X : list Q;                (* the row of raw.X *)
  spot_obsm : gmap string (list Q);   (* the row of every obsm array *)
}.

Inductive image : Type := Image (pixels : string).

Record Graph : Type := mkGraph {
  g_nodes : list Z;
  g_edges : list (Z * Z);
}.

Inductive uns_value : Type :=
  | UColors (colors : list string)
  | USpatial (libraries : gmap string (gmap string image))
      (* uns["spatial"][library_id]["images"][img_key] *)
  | UGraph (g : Graph)
  | UCentroids (centroid_dict : list (Z * (Q * Q)))
  | UOther (repr : string).

Record AnnData : Type := mkAnnData {
  spots : list Spot;
  obs_columns : gmap string column;
  var_names : list string;
  obsm_keys : gset string;
  uns : gmap string uns_value;
  raw_var_names : option (list string);   (* None: adata.raw is None *)
}.

Definition obs_names (a : AnnData) : list string := spot_name <$> spots a.

Definition set_spots (a : AnnData) (l : list Spot) : AnnData :=
  mkAnnData l (obs_columns a) (var_names a) (obsm_keys a) (uns a) (raw_var_names a).
Definition set_obs_columns (a : AnnData) (c : gmap string column) : AnnData :=
  mkAnnData (spots a) c (var_names a) (obsm_keys a) (uns a) (raw_var_names a).
Definition set_uns (a : AnnData) (u : gmap string uns_value) : AnnData :=
  mkAnnData (spots a) (obs_columns a) (var_names a) (obsm_keys a) u (raw_var_names a).

(** [label col s]: the value of column [col] at row [s]; [None] is NaN. *)
Definition label (col : string) (s : Spot) : option string := spot_obs s !! col.

(** [adata.raw.to_adata()]: same observations, [X] and [var] from [raw]. *)
Definition raw_to_adata (a : AnnData) : result AnnData :=
  match raw_var_names a with
  | None => Raise (AttributeError "to_adata")
  | Some vs =>
      Ok (mkAnnData
            ((fun s => mkSpot (spot_name s) (spot_obs s) (spot_raw_X s) (spot_raw_X s)
                         (spot_obsm s)) <$> spots a)
            (obs_columns a) vs (obsm_keys a) (uns a) (Some vs))
  end.

(** [pandas.Index.get_indexer]: positions of the target labels; refuses an
    index with repeated labels, and AnnData turns a label that is not found
    into a [KeyError]. *)
Definition index_of (index : list string) (name : string) : result nat :=
  match list_find (fun n => n = name) index with
  | Some (i, _) => Ok i
  | None => Raise (KeyError name)
  end.

Definition get_indexer (index target : list string) : result (list nat) :=
  if decide (NoDup index) then mapR (index_of index) target
  else Raise InvalidIndexError.

(** Categories of a column that some row of [l] carries, in their order. *)
Definition observed (col : string) (l : list Spot) (c : string) : bool :=
  bool_decide (Exists (fun s => label col s = Some c) l).

Definition remove_unused_categories (l : list Spot) (cols : gmap string column)
  : gmap string column :=
  map_imap (fun col k =>
    Some match k with
         | Categorical cats => Categorical (filter (fun c => observed col l c = true) cats)
         | Plain => Plain
         end) cols.

(** [adata[names].copy()]: the rows with these names, in the order asked;
    AnnData drops the categories that no kept row carries. *)
Definition subset_obs (a : AnnData) (names : list string) : result AnnData :=
  pos ← get_indexer (obs_names a) names;
  rows ← mapR (fun i => or_raise (spots a !! i) IndexError) pos;
  Ok (set_obs_columns (set_spots a rows) (remove_unused_categories rows (obs_columns a))).

(** ** The world of a plot constructor

    [w_adata] is the caller's AnnData object: the plot keeps a reference to
    it ([self.adata[0]]), so a write through that reference is a write to
    [w_adata]. [w_log] records, in order, what leaves the process. *)

Inductive event : Type :=
  | EvWarn (msg : string)                          (* warnings.warn, called by this code *)
  | EvSaveFig (fname : string) (dpi : Z)           (* fig.savefig: writes a file *)
  | EvDownload (url : string) (path : list string) (* an HTTP download *).

Definition is_file_write (e : event) : bool :=
  match e with EvSaveFig _ _ => true | _ => false end.
Definition is_network (e : event) : bool :=
  match e with EvDownload _ _ => true | _ => false end.
Definition is_warning (e : event) : bool :=
  match e with EvWarn _ => true | _ => false end.

Record World : Type := mkWorld {
  w_adata : AnnData;
  w_log : list event;
}.

Definition emit (e : event) : M World unit :=
  modify_world (fun w => mkWorld (w_adata w) (w_log w ++ [e])).
Definition write_uns (key : string) (v : uns_value) : M World unit :=
  modify_world (fun w => mkWorld (set_uns (w_adata w) (<[key := v]> (uns (w_adata w)))) (w_log w)).
Definition read_adata : M World AnnData :=
  w <- get_world ;; ret (w_adata w).

(** ** What the plotting code delegates to other libraries and modules

    Colormaps, palettes and colour conversion (matplotlib, scanpy,
    [stlearn.plotting.palettes_st]), the nearest-centroid classifier
    (scikit-learn) and the helpers of [stlearn/plotting/utils.py]
    ([check_sublist], [centroidpython]) are not among the sources embedded
    here. They are parameters of the development: nothing is assumed about
    what they compute. [centroidpython] is called with two arguments in
    [ClusterPlot] and with one in [SubClusterPlot]; each call has its own
    parameter.

    [pandas_query a text] is [list(a.obs.query(text).index)] for a text
    outside the fragment whose reading is modelled below ([obs_query_index]):
    what pandas' parser makes of such a text (a syntax error, another
    expression) is left open. [griddata xs ys zs] is
    [scipy.interpolate.griddata((x, y), z, (xi, yi), method="linear")] on the
    100 x 100 grid between the extreme coordinates, which raises when the
    numbers of points and values differ and when the points have no
    triangulation (fewer than three, or all on one line); [nanmax_int zi] is
    [int(np.nanmax(zi))], which raises for a grid without a number. *)

Class Externals : Type := {
  rgba : Type;
  to_hex : rgba -> string;
  plt_colormaps : list string;
  plt_get_cmap : string -> result (Z * (Q -> rgba));
  palette : string -> list string;
  from_list : list string -> Q -> rgba;
  scalar_mappable : string -> Q -> Q -> Q -> result rgba;
  check_sublist : list string -> list string -> list bool;
  centroidpython : list Q -> list Q -> result (Q * Q);
  centroidpython_values : list (list string) -> result (Q * Q);
  nearest_centroid : list (Q * Q) -> list string -> result (list (Q * Q) * list string);
  pandas_query : AnnData -> string -> result (list string);
  grid : Type;
  griddata : list Q -> list Q -> list Q -> result grid;
  nanmax_int : grid -> result Z;
}.

(** ** Small helpers on numbers and arrays *)

Definition Qgtb (a b : Q) : bool := negb (Qle_bool a b).
Definition Qltb (a b : Q) : bool := negb (Qle_bool b a).

(** [min] and [max] of a sequence; Python and numpy raise on an empty one. *)
Definition list_min (l : list Q) : result Q :=
  match l with
  | [] => Raise (ValueError "min of an empty sequence")
  | x :: l' => Ok (fold_left (fun m y => if Qltb y m then y else m) l' x)
  end.
Definition list_max (l : list Q) : result Q :=
  match l with
  | [] => Raise (ValueError "max of an empty sequence")
  | x :: l' => Ok (fold_left (fun m y => if Qgtb y m then y else m) l' x)
  end.

(** Python [int(q)]: truncation toward zero. *)
Definition Qtrunc (q : Q) : Z := Z.quot (Qnum q) (Z.pos (Qden q)).

(** [obsm[key]]: one row per observation. *)
Definition obsm_get (a : AnnData) (key : string) : result (list (list Q)) :=
  if decide (key ∈ obsm_keys a)
  then Ok ((fun s => default [] (spot_obsm s !! key)) <$> spots a)
  else Raise (KeyError key).

(** [arr[:, j]]. *)
Definition column_of (j : nat) (arr : list (list Q)) : result (list Q) :=
  mapR (fun row => or_raise (row !! j) IndexError) arr.

(** [arr[mask]] for a list of booleans: numpy wants one boolean per row. *)
Fixpoint mask_rows {A} (arr : list A) (mask : list bool) : list A :=
  match arr, mask with
  | a :: arr', b :: mask' => if b then a :: mask_rows arr' mask' else mask_rows arr' mask'
  | _, _ => []
  end.
Definition bool_index {A} (arr : list A) (mask : list bool) : result (list A) :=
  if decide (length mask = length arr) then Ok (mask_rows arr mask) else Raise IndexError.

(** [v * scale_factor] on every entry. *)
Definition scaled (sf : Q) (l : list Q) : list Q := (fun v => v * sf)%Q <$> l.

(** The scaled image coordinates of an array of spatial coordinates: the
    pair [(arr[:, 0] * sf, arr[:, 1] * sf)]. *)
Definition scaled_coords (sf : Q) (arr : list (list Q)) : result (list Q * list Q) :=
  c0 ← column_of 0 arr;
  c1 ← column_of 1 arr;
  Ok (scaled sf c0, scaled sf c1).

(** [", ".join(l)]. *)
Fixpoint join (sep : string) (l : list string) : string :=
  match l with
  | [] => ""
  | [x] => x
  | x :: l' => x +:+ sep +:+ join sep l'
  end.

(** First occurrence removed: Python [list.remove]. *)
Fixpoint list_remove_first (x : string) (l : list string) : list string :=
  match l with
  | [] => []
  | y :: l' => if decide (y = x) then l' else y :: list_remove_first x l'
  end.

(** Distinct values in order of first appearance: pandas [unique]. *)
Fixpoint unique (l : list string) : list string :=
  match l with
  | [] => []
  | x :: l' => x :: filter (fun y => y ≠ x) (unique l')
  end.

(** [np.sort] on strings. *)
Fixpoint insert_sorted (x : string) (l : list string) : list string :=
  match l with
  | [] => [x]
  | y :: l' => if String.leb x y then x :: y :: l' else y :: insert_sorted x l'
  end.
Definition sort_strings (l : list string) : list string :=
  fold_right insert_sorted [] l.

(** ** Plotting: [stlearn/plotting/classes.py] *)

Section Plotting.
Context `{Ext : Externals}.

(** *** Figure and axes

    What has been drawn, in drawing order, and the view limits set through
    [set_xlim] and [set_ylim] ([None]: never set by this code, matplotlib's
    automatic limits apply). *)

Inductive color_spec : Type :=
  | CValues (vals : list Q) (cmap : string) (vmin vmax : Q)  (* c=values, cmap, vmin, vmax *)
  | CCodes (codes : list (option nat)) (cmap : string)       (* c=integer codes, cmap *)
  | CFixed (c : rgba).                                       (* c=[one colour] *)

Inductive artist : Type :=
  | AImage (img : image) (alpha : Q)
  | AScatter (xs ys : list Q) (c : color_spec) (lbl : option string) (alpha size : Q)
  | AContour (xs ys zs : list Q) (step : Z) (cmap : string) (alpha : Q)
  | AColorbar
  | ALegend
  | AText (x y : Q) (s : string) (facecolor : string)
  | AEdges (g : Graph) (pos : list (Z * (Q * Q))) (arrowstyle : string).

Record Axes : Type := mkAxes {
  ax_xlim : option (Q * Q);
  ax_ylim : option (Q * Q);
  ax_axis_on : bool;
  ax_title : option string;
  ax_artists : list artist;
}.

Definition new_axes : Axes := mkAxes None None true None [].
Definition draw (a : artist) (ax : Axes) : Axes :=
  mkAxes (ax_xlim ax) (ax_ylim ax) (ax_axis_on ax) (ax_title ax) (ax_artists ax ++ [a]).
(** [set_xlim(v0, v1)] and [set_ylim(v0, v1)] do not store singular limits:
    on a linear axis they store
    [matplotlib.transforms.nonsingular(v0, v1, expander=0.05)], in the order
    given. Limits whose magnitude is below [(1e6 / 1e-15) * finfo(float).tiny]
    become [(-0.05, 0.05)]; limits that coincide, or are closer to each other
    than [1e-15] of their magnitude, are widened by 5% of their magnitude at
    either end; all other limits are stored as given. *)
Definition expander : Q := 1 # 20.
Definition tiny_interval : Q := 1 # 1000000000000000.
Definition tiny_magnitude : Q := Qmake 22250738585072014 (10 ^ 303)%positive.
Definition nonsingular (v0 v1 : Q) : Q * Q :=
  let swapped := Qltb v1 v0 in
  let vmin := if swapped then v1 else v0 in
  let vmax := if swapped then v0 else v1 in
  let maxabsvalue := Qmax (Qabs vmin) (Qabs vmax) in
  let r := (if Qltb maxabsvalue tiny_magnitude then (- expander, expander)
            else if Qle_bool (vmax - vmin) (maxabsvalue * tiny_interval)
                 then if Qeq_bool vmax 0 && Qeq_bool vmin 0 then (- expander, expander)
                      else (vmin - expander * Qabs vmin, vmax + expander * Qabs vmax)
                 else (vmin, vmax))%Q in
  if swapped then (r.2, r.1) else r.
(** Limits that [nonsingular] leaves as they are. *)
Definition apart (v0 v1 : Q) : bool :=
  let swapped := Qltb v1 v0 in
  let vmin := if swapped then v1 else v0 in
  let vmax := if swapped then v0 else v1 in
  let maxabsvalue := Qmax (Qabs vmin) (Qabs vmax) in
  negb (Qltb maxabsvalue tiny_magnitude)
  && negb (Qle_bool (vmax - vmin) (maxabsvalue * tiny_interval))%Q.

Definition set_xlim (lo hi : Q) (ax : Axes) : Axes :=
  mkAxes (Some (nonsingular lo hi)) (ax_ylim ax) (ax_axis_on ax) (ax_title ax) (ax_artists ax).
Definition set_ylim (lo hi : Q) (ax : Axes) : Axes :=
  mkAxes (ax_xlim ax) (Some (nonsingular lo hi)) (ax_axis_on ax) (ax_title ax) (ax_artists ax).
Definition axis_off (ax : Axes) : Axes :=
  mkAxes (ax_xlim ax) (ax_ylim ax) false (ax_title ax) (ax_artists ax).
Definition set_ax_title (t : option string) (ax : Axes) : Axes :=
  mkAxes (ax_xlim ax) (ax_ylim ax) (ax_axis_on ax) t (ax_artists ax).

(** *** The base class [Spatial]

    [stlearn/classes.py] is not among the sources embedded here. What its
    constructor leaves on the object is taken as given: the attributes below,
    and [self.adata], a container whose element 0 is the caller's AnnData
    object itself ([w_adata] of the world). *)

Record Spatial : Type := mkSpatial {
  library_id : string;
  img_key : string;
  scale_factor : Q;
  imagecol : list Q;
  imagerow : list Q;
}.

(** *** Constructor arguments shared by all plot classes *)

Inductive clusters_arg : Type :=
  | ClNone
  | ClScalar (c : string)          (* anything that is not a list *)
  | ClList (l : list string).      (* entries as [astype(str)] gives them *)

Record Params : Type := mkParams {
  p_title : option string;
  p_figsize : option (Q * Q);
  p_cmap : string;
  p_use_label : option string;
  p_list_clusters : clusters_arg;
  p_show_plot : bool;
  p_show_axis : bool;
  p_show_image : bool;
  p_show_color_bar : bool;
  p_crop : bool;
  p_margin : Q;
  p_size : Q;
  p_image_alpha : Q;
  p_cell_alpha : Q;
  p_use_raw : bool;
  p_fname : option string;
  p_dpi : Z;
}.

(** [ClusterPlot] and [SubClusterPlot] have no [use_raw] argument: the base
    constructor gets its default. *)
Definition default_use_raw (p : Params) : Params :=
  mkParams (p_title p) (p_figsize p) (p_cmap p) (p_use_label p) (p_list_clusters p)
    (p_show_plot p) (p_show_axis p) (p_show_image p) (p_show_color_bar p) (p_crop p)
    (p_margin p) (p_size p) (p_image_alpha p) (p_cell_alpha p) false (p_fname p) (p_dpi p).

(** *** [SpatialBasePlot] *)

Record SpatialBasePlot : Type := mkBase {
  spatial : Spatial;
  title : option string;
  figsize : option (Q * Q);
  image_alpha : Q;
  cell_alpha : Q;
  size : Q;
  query_adata : AnnData;
  list_clusters : option (list string);
  fname : option string;
  dpi : Z;
  use_label : option string;           (* None: the attribute was never set *)
  query_indexes : option (list nat);   (* None: the attribute was never set *)
  cmap : string;
  ax : Axes;
  fig_closed : bool;
}.

Definition set_ax (self : SpatialBasePlot) (a : Axes) : SpatialBasePlot :=
  mkBase (spatial self) (title self) (figsize self) (image_alpha self) (cell_alpha self)
    (size self) (query_adata self) (list_clusters self) (fname self) (dpi self)
    (use_label self) (query_indexes self) (cmap self) a (fig_closed self).
Definition set_title (self : SpatialBasePlot) (t : option string) : SpatialBasePlot :=
  mkBase (spatial self) t (figsize self) (image_alpha self) (cell_alpha self)
    (size self) (query_adata self) (list_clusters self) (fname self) (dpi self)
    (use_label self) (query_indexes self) (cmap self) (ax self) (fig_closed self).
Definition set_query_adata (self : SpatialBasePlot) (q : AnnData) : SpatialBasePlot :=
  mkBase (spatial self) (title self) (figsize self) (image_alpha self) (cell_alpha self)
    (size self) q (list_clusters self) (fname self) (dpi self)
    (use_label self) (query_indexes self) (cmap self) (ax self) (fig_closed self).
Definition set_fig_closed (self : SpatialBasePlot) : SpatialBasePlot :=
  mkBase (spatial self) (title self) (figsize self) (image_alpha self) (cell_alpha self)
    (size self) (query_adata self) (list_clusters self) (fname self) (dpi self)
    (use_label self) (query_indexes self) (cmap self) (ax self) true.

(** Reading an attribute that may not have been set. *)
Definition get_use_label {W} (self : SpatialBasePlot) : M W string :=
  lift (or_raise (use_label self) (AttributeError "use_label")).
Definition get_query_indexes {W} (self : SpatialBasePlot) : M W (list nat) :=
  lift (or_raise (query_indexes self) (AttributeError "query_indexes")).

(** [obs[col].cat.categories]. *)
Definition cat_categories (a : AnnData) (col : string) : result (list string) :=
  match obs_columns a !! col with
  | None => Raise (KeyError col)
  | Some (Categorical cats) => Ok cats
  | Some Plain => Raise (AttributeError "cat")
  end.

(** [_get_query_clusters_index]: for every queried cluster, the first
    position of the full category list that holds it ([np.where(...)[0][0]],
    an [IndexError] when there is none). *)
Definition _get_query_clusters_index (adata0 : AnnData) (use_label : string)
    (list_clusters : list string) : result (list nat) :=
  full_labels ← cat_categories adata0 use_label;
  mapR (fun query =>
          match list_find (fun c => c = query) full_labels with
          | Some (i, _) => Ok i
          | None => Raise IndexError
          end) list_clusters.

(** The text that [create_query] writes:
    [use_label == "c1" | use_label == "c2" | ...] without the last two
    characters ([ini[:-2]]), the empty string when there is no cluster. *)
Definition dquote : string := String "034"%char EmptyString.
Definition str_drop_end (n : nat) (s : string) : string :=
  string_of_list_ascii (rev (drop n (rev (list_ascii_of_string s)))).
Definition create_query (list_cl : list string) (use_label : string) : string :=
  let ini := fold_left (fun ini sub =>
                          ini +:+ use_label +:+ " == " +:+ dquote +:+ sub +:+ dquote +:+ " | ")
               list_cl "" in
  str_drop_end 2 ini.

(** The texts whose reading by pandas is modelled: the column is written as
    one Python name (an ASCII letter, then letters, digits and underscores,
    and no keyword), and every cluster is written between double quotes with
    characters that a Python string literal reads as themselves (letters,
    digits, space, [_], [-] and [.]: no backslash, no quote, no line end). *)
Definition is_letter (c : ascii) : bool :=
  let n := nat_of_ascii c in
  ((65 <=? n) && (n <=? 90) || (97 <=? n) && (n <=? 122))%nat.
Definition is_digit (c : ascii) : bool :=
  let n := nat_of_ascii c in ((48 <=? n) && (n <=? 57))%nat.
Definition python_keywords : list string :=
  ["False"; "None"; "True"; "and"; "as"; "assert"; "async"; "await"; "break"; "class";
   "continue"; "def"; "del"; "elif"; "else"; "except"; "exec"; "finally"; "for"; "from";
   "global"; "if"; "import"; "in"; "is"; "lambda"; "nonlocal"; "not"; "or"; "pass";
   "print"; "raise"; "return"; "try"; "while"; "with"; "yield"].
Definition plain_name (s : string) : bool :=
  match list_ascii_of_string s with
  | [] => false
  | c :: l =>
      is_letter c
      && forallb (fun c => is_letter c || is_digit c || bool_decide (c = "_"%char)) l
      && negb (bool_decide (s ∈ python_keywords))
  end.
Definition plain_literal (s : string) : bool :=
  forallb (fun c => is_letter c || is_digit c
                    || bool_decide (c ∈ [" "; "_"; "-"; "."]%char))
    (list_ascii_of_string s).

(** What pandas reads from the text of [create_query] when it is plain: the
    comparisons [use_label == "c"], joined by [|] (which [query] takes as
    [or]). *)
Inductive qexpr : Type :=
  | QEq (col value : string)
  | QOr (a b : qexpr).

Definition parsed_query (list_cl : list string) (use_label : string) : option qexpr :=
  match list_cl with
  | [] => None
  | c :: l => Some (fold_left (fun e sub => QOr e (QEq use_label sub)) l (QEq use_label c))
  end.

Fixpoint eval_query (e : qexpr) (s : Spot) : bool :=
  match e with
  | QEq col v => bool_decide (label col s = Some v)
  | QOr a b => eval_query a s || eval_query b s
  end.

(** [obs.query(create_query(list_cl, use_label)).index]: an error for the
    empty text; for a plain text, the names of the rows where the expression
    holds; for any other text, what pandas makes of it. *)
Definition obs_query_index (a : AnnData) (list_cl : list string) (use_label : string)
  : result (list string) :=
  match parsed_query list_cl use_label with
  | None => Raise (ValueError "expr cannot be an empty string")
  | Some e =>
      if plain_name use_label && forallb plain_literal list_cl
      then Ok (spot_name <$> filter (fun s => eval_query e s = true) (spots a))
      else pandas_query a (create_query list_cl use_label)
  end.

Definition _select_clusters (self : SpatialBasePlot) : result SpatialBasePlot :=
  match list_clusters self with
  | Some lc =>
      ul ← or_raise (use_label self) (AttributeError "use_label");
      names ← obs_query_index (query_adata self) lc ul;
      q ← subset_obs (query_adata self) names;
      Ok (set_query_adata self q)
  | None => Ok self
  end.

Definition _generate_frame : Axes := new_axes.

Definition _remove_axis (main_ax : Axes) : Axes := axis_off main_ax.

Definition _add_image (self : SpatialBasePlot) : result Axes :=
  sp ← or_raise (uns (query_adata self) !! "spatial") (KeyError "spatial");
  match sp with
  | USpatial libs =>
      lib ← or_raise (libs !! library_id (spatial self)) (KeyError (library_id (spatial self)));
      img ← or_raise (lib !! img_key (spatial self)) (KeyError (img_key (spatial self)));
      Ok (draw (AImage img (image_alpha self)) (ax self))
  | _ => Raise TypeError
  end.

Definition _crop_image (self : SpatialBasePlot) (margin : Q) : result Axes :=
  cmin ← list_min (imagecol (spatial self));
  cmax ← list_max (imagecol (spatial self));
  let ax1 := set_xlim (cmin - margin) (cmax + margin) (ax self) in
  rmin ← list_min (imagerow (spatial self));
  rmax ← list_max (imagerow (spatial self));
  let ax2 := set_ylim (rmin - margin) (rmax + margin) ax1 in
  (* main_ax.set_ylim(main_ax.get_ylim()[::-1]) *)
  match ax_ylim ax2 with
  | Some (lo, hi) => Ok (set_ylim hi lo ax2)
  | None => Ok ax2
  end.

Definition _add_color_bar (self : SpatialBasePlot) : Axes := draw AColorbar (ax self).

Definition _add_title (self : SpatialBasePlot) : Axes := set_ax_title (title self) (ax self).

Definition _save_output (self : SpatialBasePlot) : M World unit :=
  match fname self with
  | Some f => emit (EvSaveFig f (dpi self))
  | None => raise TypeError
  end.

Definition scanpy_cmap : list string :=
  ["vega_10_scanpy"; "vega_20_scanpy"; "default_102"; "default_28"].
Definition stlearn_cmap : list string := ["jana_40"; "default"].

Definition SpatialBasePlot_init (sp : Spatial) (p : Params) : M World SpatialBasePlot :=
  adata0 <- read_adata ;;
  (* self.query_adata = self.adata[0].copy(), or the raw data *)
  q <- (if p_use_raw p then lift (raw_to_adata adata0) else ret adata0) ;;
  let clusters_given := match p_list_clusters p with ClNone => false | _ => true end in
  (if clusters_given
   then assert_ (bool_decide (is_Some (p_use_label p))) "Please specify `use_label` parameter!"
   else ret tt) ;;;
  let self := mkBase sp (p_title p) (p_figsize p) (p_image_alpha p) (p_cell_alpha p)
                (p_size p) q
                match p_list_clusters p with
                | ClNone => None | ClScalar c => Some [c] | ClList l => Some l
                end
                (p_fname p) (p_dpi p) None None (p_cmap p) new_axes false in
  self <- match p_use_label p with
          | Some ul =>
              assert_ (bool_decide (is_Some (obs_columns adata0 !! ul)))
                "Please choose the right label in `adata.obs.columns`!" ;;;
              lc <- match list_clusters self with
                    | None => lift (cat_categories adata0 ul)
                    | Some l => ret l
                    end ;;
              qi <- lift (_get_query_clusters_index adata0 ul lc) ;;
              lift (_select_clusters
                      (mkBase sp (title self) (figsize self) (image_alpha self)
                         (cell_alpha self) (size self) (query_adata self) (Some lc)
                         (fname self) (dpi self) (Some ul) (Some qi) (cmap self) (ax self)
                         (fig_closed self)))
          | None => ret self
          end ;;
  assert_ (bool_decide (p_cmap p ∈ (plt_colormaps ++ scanpy_cmap ++ stlearn_cmap)%list))
    "cmap should be one of these colors" ;;;
  let self := set_ax self _generate_frame in
  let self := if p_show_axis p then self else set_ax self (_remove_axis (ax self)) in
  self <- (if p_show_image p
           then a <- lift (_add_image self) ;; ret (set_ax self a)
           else ret self) ;;
  ret (if p_show_plot p then self else set_fig_closed self).

(** *** [GenePlot] *)

Inductive genes_arg : Type :=
  | GNone
  | GStr (s : string)
  | GList (l : list string).

(** The two names that pass the assertion of [GenePlot.__init__]. *)
Inductive method_t : Type := CumSum | NaiveMean.

Definition method_available (method : string) : option method_t :=
  if decide (method = "CumSum") then Some CumSum
  else if decide (method = "NaiveMean") then Some NaiveMean
  else None.

Record GenePlot : Type := mkGenePlot {
  gp_base : SpatialBasePlot;
  method : method_t;
  step_size : option Z;
  gene_symbols : genes_arg;
  available_ids : list bool;
}.

Definition gp_set_base (g : GenePlot) (b : SpatialBasePlot) : GenePlot :=
  mkGenePlot b (method g) (step_size g) (gene_symbols g) (available_ids g).
Definition gp_set_genes (g : GenePlot) (gs : genes_arg) : GenePlot :=
  mkGenePlot (gp_base g) (method g) (step_size g) gs (available_ids g).
Definition gp_set_step_size (g : GenePlot) (st : option Z) : GenePlot :=
  mkGenePlot (gp_base g) (method g) st (gene_symbols g) (available_ids g).
Definition gp_set_available_ids (g : GenePlot) (ids : list bool) : GenePlot :=
  mkGenePlot (gp_base g) (method g) (step_size g) (gene_symbols g) ids.

(** [adata[:, genes].to_df()]: for every observation, its values of these
    vars, in the order asked. *)
Definition to_df (a : AnnData) (genes : list string) : result (list (list Q)) :=
  pos ← get_indexer (var_names a) genes;
  mapR (fun s => mapR (fun j => or_raise (spot_X s !! j) IndexError) pos) (spots a).

(** [df.iloc[:, -1]]. *)
Definition last_column (df : list (list Q)) : result (list Q) :=
  mapR (fun row => or_raise (last row) IndexError) df.

(** [df.cumsum(axis=1)], row by row. *)
Fixpoint cumsum_from (acc : Q) (row : list Q) : list Q :=
  match row with
  | [] => []
  | x :: row' => (acc + x)%Q :: cumsum_from (acc + x)%Q row'
  end.
Definition cumsum (row : list Q) : list Q :=
  match row with
  | [] => []
  | x :: row' => x :: cumsum_from x row'
  end.

Definition Qsum (row : list Q) : Q := fold_right Qplus 0%Q row.
Definition Qof_nat (n : nat) : Q := inject_Z (Z.of_nat n).

(** [(df > 0).sum(axis=1)] and [df.mean(axis=1)], for one row. *)
Definition count_positive (row : list Q) : nat :=
  length (filter (fun v => Qgtb v 0 = true) row).
Definition row_mean (row : list Q) : Q := (Qsum row / Qof_nat (length row))%Q.

(** The two ways of combining the columns of [count_gene]. *)
Definition combine_genes (m : method_t) (n_genes : nat) (count_gene : list (list Q))
  : result (list Q) :=
  match m with
  | NaiveMean =>
      let present_genes := (fun row => (Qof_nat (count_positive row) / Qof_nat n_genes)%Q)
                             <$> count_gene in
      Ok (zip_with Qmult (row_mean <$> count_gene) present_genes)
  | CumSum => last_column (cumsum <$> count_gene)
  end.

(** The loop [for gene in self.gene_symbols] of [_get_gene_expression]. Its
    body removes from the list it iterates over: Python's list iterator keeps
    a position [i], yields [genes[i]] while [i < len(genes)] and moves to
    [i + 1], whatever the body did to the list. [fuel] bounds the number of
    iterations; [S (length genes)] is always enough (see
    [remove_absent_fuel]). *)
Fixpoint remove_absent (fuel : nat) (var_index : list string) (i : nat)
    (genes : list string) : M World (list string) :=
  match fuel with
  | O => ret genes
  | S fuel' =>
      match genes !! i with
      | None => ret genes
      | Some gene =>
          genes' <- (if bool_decide (gene ∈ var_index) then ret genes
                     else emit (EvWarn ("We removed " +:+ gene +:+
                                        " because they not exist in the data")) ;;;
                          ret (list_remove_first gene genes)) ;;
          if decide (length genes' = 0)
          then raise (ValueError "All provided genes are not exist in the data")
          else remove_absent fuel' var_index (i + 1) genes'
      end
  end.

Definition chars (s : string) : list string :=
  (fun c => String c EmptyString) <$> list_ascii_of_string s.

(** [GenePlot._get_gene_expression]: the values to plot, one per
    observation of [query_adata], and the object with its (possibly shorter)
    list of gene symbols. *)
Definition GenePlot_get_gene_expression (self : GenePlot) : M World (list Q * GenePlot) :=
  let q := query_adata (gp_base self) in
  match gene_symbols self with
  | GNone => raise TypeError                       (* len(None) *)
  | GList [] => raise (ValueError "Genes should be provided, please input genes")
  | GList [gene] =>
      if bool_decide (gene ∈ var_names q)
      then df <- lift (to_df q [gene]) ;;
           colors <- lift (last_column df) ;;
           ret (colors, self)
      else raise (ValueError (gene +:+ " is not exist in the data, please try another gene"))
  | GList genes =>
      genes' <- remove_absent (S (length genes)) (var_names q) 0 genes ;;
      let self := gp_set_genes self (GList genes') in
      count_gene <- lift (to_df q genes') ;;
      colors <- lift (combine_genes (method self) (length genes') count_gene) ;;
      ret (colors, self)
  | GStr s =>
      (* a string that was not wrapped in a list: its characters are the
         "genes" that [len], [[0]] and the loop see *)
      match chars s with
      | [] => raise (ValueError "Genes should be provided, please input genes")
      | [c] =>
          if bool_decide (c ∈ var_names q)
          then df <- lift (to_df q [s]) ;;
               colors <- lift (last_column df) ;;
               ret (colors, self)
          else raise (ValueError (c +:+ " is not exist in the data, please try another gene"))
      | cs =>
          if forallb (fun c => bool_decide (c ∈ var_names q)) cs
          then count_gene <- lift (to_df q [s]) ;;
               colors <- lift (combine_genes (method self) (length cs) count_gene) ;;
               ret (colors, self)
          else raise (AttributeError "remove")     (* str has no remove *)
      end
  end.

(** [_add_threshold]. *)
Definition _add_threshold (gene_values : list Q) (threshold : option Q) : list bool :=
  match threshold with
  | None => repeat true (length gene_values)
  | Some t => (fun v => Qgtb v t) <$> gene_values
  end.

(** [obsm["spatial"]] of the plotted data, scaled to image pixels. *)
Definition scaled_spatial (self : SpatialBasePlot) (a : AnnData) : result (list Q * list Q) :=
  arr ← obsm_get a "spatial";
  scaled_coords (scale_factor (spatial self)) arr.

(** [ax.scatter(x, y, c=values, ...)] with [n] points: [c] holds the values
    to map when there is one per point; a [c] of another size raises, unless
    matplotlib reads it as one RGB or RGBA colour for all points (three or
    four numbers between 0 and 1). *)
Definition scatter_takes (n : nat) (c : list Q) : bool :=
  (length c =? n)%nat
  || ((length c =? 3)%nat || (length c =? 4)%nat)
     && forallb (fun v => Qle_bool 0 v && Qle_bool v 1)%Q c.

Definition _plot_genes (self : GenePlot) (gene_values : list Q) : result GenePlot :=
  let b := gp_base self in
  vmin ← list_min gene_values;
  vmax ← list_max gene_values;
  xy ← scaled_spatial b (query_adata b);
  _ ← plt_get_cmap (cmap b);
  if scatter_takes (length xy.1) gene_values
  then Ok (gp_set_base self
             (set_ax b (draw (AScatter xy.1 xy.2 (CValues gene_values (cmap b) vmin vmax) None
                                (cell_alpha b) (size b)) (ax b))))
  else Raise (ValueError "'c' argument is inconsistent with 'x' and 'y'").

(** The contour levels are [range(0, int(np.nanmax(zi)) + step, step)]:
    [range] raises for a step of 0, and [contourf] wants two levels or more,
    in increasing order, which is a positive step and a top of at least 1. *)
Definition _plot_contour (self : GenePlot) (gene_values : list Q) : result GenePlot :=
  let b := gp_base self in
  xy ← scaled_spatial b (query_adata b);
  _ ← list_min xy.1; _ ← list_max xy.1;           (* np.linspace(x.min(), x.max(), 100) *)
  _ ← list_min xy.2; _ ← list_max xy.2;
  zi ← griddata xy.1 xy.2 gene_values;
  st ← match step_size self with
       | Some st => Ok st
       | None =>
           zmax ← list_max gene_values;
           let st := Qtrunc (zmax / 50) in
           Ok (if (st <? 1)%Z then 1%Z else st)
       end;
  let self := gp_set_step_size self (Some st) in
  top ← nanmax_int zi;
  if decide (st = 0%Z) then Raise (ValueError "range() arg 3 must not be zero")
  else
    _ ← plt_get_cmap (cmap b);
    if (0 <? st)%Z && (1 <=? top)%Z
    then Ok (gp_set_base self
               (set_ax b (draw (AContour xy.1 xy.2 gene_values st (cmap b) (cell_alpha b))
                            (ax b))))
    else Raise (ValueError "Filled contours require at least 2 increasing levels").

(** The tail shared by the constructors of the drawing classes:
    [if crop: self._crop_image(self.ax, margin)] and
    [if fname != None: self._save_output()]. *)
Definition crop_and_save (crop : bool) (margin : Q) (fname : option string)
    (self : SpatialBasePlot) : M World SpatialBasePlot :=
  self <- (if crop then a <- lift (_crop_image self margin) ;; ret (set_ax self a)
           else ret self) ;;
  (if bool_decide (is_Some fname) then _save_output self else ret tt) ;;;
  ret self.

(** [GenePlot.__init__], with the [_get_gene_expression] of the class of the
    object under construction: first the body up to the colour bar, then the
    crop and the save. *)
Definition GenePlot_draw_with
    (get_gene_expression : GenePlot -> M World (list Q * GenePlot))
    (sp : Spatial) (p : Params) (genes : genes_arg) (threshold : option Q)
    (method : string) (contour : bool) (step : option Z) : M World GenePlot :=
  b <- SpatialBasePlot_init sp p ;;
  m <- lift (or_raise (method_available method)
               (AssertionError "Please choose available method in: ['CumSum', 'NaiveMean']")) ;;
  r <- match title b, genes with
       | Some _, _ => ret (b, genes)
       | None, GStr s => ret (set_title b (Some s), GList [s])
       | None, GList l => ret (set_title b (Some (join ", " l)), genes)
       | None, GNone => raise TypeError              (* ", ".join(None) *)
       end ;;
  let b := set_ax r.1 (_add_title r.1) in
  let self := mkGenePlot b m step r.2 [] in
  vs <- get_gene_expression self ;;
  let gene_values := vs.1 in
  let self := gp_set_available_ids vs.2 (_add_threshold gene_values (threshold)) in
  shown <- lift (bool_index gene_values (available_ids self)) ;;
  self <- lift (if contour then _plot_contour self shown else _plot_genes self shown) ;;
  ret (if p_show_color_bar p
       then gp_set_base self (set_ax (gp_base self) (_add_color_bar (gp_base self)))
       else self).

Definition GenePlot_init_with
    (get_gene_expression : GenePlot -> M World (list Q * GenePlot))
    (sp : Spatial) (p : Params) (genes : genes_arg) (threshold : option Q)
    (method : string) (contour : bool) (step : option Z) : M World GenePlot :=
  self <- GenePlot_draw_with get_gene_expression sp p genes threshold method contour step ;;
  b <- crop_and_save (p_crop p) (p_margin p) (p_fname p) (gp_base self) ;;
  ret (gp_set_base self b).

Definition GenePlot_init := GenePlot_init_with GenePlot_get_gene_expression.

(** *** [ClusterPlot] *)

Record ClusterPlot : Type := mkClusterPlot {
  cp_base : SpatialBasePlot;
  cmap_ : Q -> rgba;
  cmap_n : Z;
  threshold_spots : Z;
  reverse : bool;
  show_node : bool;
}.

Definition cp_set_base (c : ClusterPlot) (b : SpatialBasePlot) : ClusterPlot :=
  mkClusterPlot b (cmap_ c) (cmap_n c) (threshold_spots c) (reverse c) (show_node c).
Definition cp_draw (c : ClusterPlot) (a : artist) : ClusterPlot :=
  cp_set_base c (set_ax (cp_base c) (draw a (ax (cp_base c)))).

(** [_get_cmap]: the colormap and its number of colours. *)
Definition _get_cmap (cmap : string) : result ((Q -> rgba) * Z) :=
  if bool_decide (cmap ∈ (scanpy_cmap ++ stlearn_cmap)%list)
  then Ok (from_list (palette cmap), Z.of_nat (length (palette cmap)))
  else nf ← plt_get_cmap cmap; Ok (nf.2, nf.1).

(** The argument [i / (self.cmap_n - 1)] given to the colormap. *)
Definition color_position (i : nat) (n : Z) : result Q :=
  if decide ((n - 1)%Z = 0%Z) then Raise ZeroDivisionError
  else Ok (inject_Z (Z.of_nat i) / inject_Z (n - 1))%Q.

(** [str] of a cell of [obs]; a missing value prints as [nan]. *)
Definition cell (col : string) (s : Spot) : string := default "nan" (label col s).

(** [obs.groupby(col)], iterated: one group per category, in category order,
    with the rows that carry it (pandas' default [observed=False]: a category
    that no row carries gives an empty group); for a column that is not
    categorical, one group per distinct value, sorted. *)
Definition groupby (a : AnnData) (col : string) : result (list (string * list Spot)) :=
  match obs_columns a !! col with
  | None => Raise (KeyError col)
  | Some (Categorical cats) =>
      Ok ((fun c => (c, filter (fun s => label col s = Some c) (spots a))) <$> cats)
  | Some Plain =>
      Ok ((fun c => (c, filter (fun s => label col s = Some c) (spots a)))
            <$> sort_strings (unique (omap (label col) (spots a))))
  end.

Definition colors_key (use_label : string) : string := use_label +:+ "_colors".

Definition read_colors (key : string) : M World (list string) :=
  a <- read_adata ;;
  match uns a !! key with
  | Some (UColors l) => ret l
  | Some _ => raise TypeError
  | None => raise (KeyError key)
  end.

(** [_add_cluster_colors]: writes [adata.uns[use_label + "_colors"]] of the
    caller's object. *)
Definition _add_cluster_colors (self : ClusterPlot) : M World unit :=
  ul <- get_use_label (cp_base self) ;;
  write_uns (colors_key ul) (UColors []) ;;;
  a <- read_adata ;;
  groups <- lift (groupby a ul) ;;
  for_each (enumerate groups)
    (fun _ ic =>
       pos <- lift (color_position ic.1 (cmap_n self)) ;;
       l <- read_colors (colors_key ul) ;;
       write_uns (colors_key ul) (UColors (l ++ [to_hex (cmap_ self pos)])))
    tt.

(** The rows of [obsm["spatial"]] of [query_adata] picked by
    [check_sublist(list(obs.index), names)], scaled. *)
Definition subset_scaled (b : SpatialBasePlot) (names : list string)
  : result (list Q * list Q) :=
  arr ← obsm_get (query_adata b) "spatial";
  sub ← bool_index arr (check_sublist (obs_names (query_adata b)) names);
  scaled_coords (scale_factor (spatial b)) sub.

(** The body of the loop of [_plot_clusters], for the groups still to draw,
    each with its position [i] in the enumeration. *)
Fixpoint _plot_clusters_loop (l : list (nat * (string * list Spot))) (self : ClusterPlot)
  : result ClusterPlot :=
  match l with
  | [] => Ok self
  | (i, cluster) :: l' =>
      xy ← subset_scaled (cp_base self) (spot_name <$> cluster.2);
      qi ← or_raise (query_indexes (cp_base self)) (AttributeError "query_indexes");
      idx ← or_raise (qi !! i) IndexError;
      pos ← color_position idx (cmap_n self);
      _plot_clusters_loop l'
        (cp_draw self (AScatter xy.1 xy.2 (CFixed (cmap_ self pos)) (Some cluster.1)
                         (cell_alpha (cp_base self)) (size (cp_base self))))
  end.

Definition _plot_clusters (self : ClusterPlot) : result ClusterPlot :=
  let b := cp_base self in
  ul ← or_raise (use_label b) (AttributeError "use_label");
  groups ← groupby (query_adata b) ul;
  _plot_clusters_loop (enumerate groups) self.

Definition _add_cluster_bar (self : ClusterPlot) : ClusterPlot := cp_draw self ALegend.

(** The offset of a text box from its centroid. *)
Definition label_offset (limit : Q) (dx dy : Q) (cx : Q) : Q * Q :=
  if Qltb cx limit then (- dx, dy)%Q else (dx, - dy)%Q.

(** The rows of [query_adata] whose [use_label] is [str(label)]. *)
Definition rows_of (a : AnnData) (col lbl : string) : list Spot :=
  filter (fun s => label col s = Some lbl) (spots a).

Definition _add_cluster_labels (self : ClusterPlot) : M World ClusterPlot :=
  let b := cp_base self in
  lc <- lift (or_raise (list_clusters b) TypeError) ;;
  for_each (enumerate lc)
    (fun self il =>
       let b := cp_base self in
       ul <- get_use_label b ;;
       xy <- lift (subset_scaled b (spot_name <$> rows_of (query_adata b) ul il.2)) ;;
       cats <- lift (cat_categories (query_adata b) ul) ;;
       centroid <- (if (length cats <? 2)%nat then lift (centroidpython xy.1 xy.2)
                    else raise (NameError "spatial")) ;;
       let off := label_offset 1500 100 50 centroid.1 in
       colors <- read_colors (colors_key ul) ;;
       qi <- get_query_indexes b ;;
       index <- lift (or_raise (qi !! il.1) IndexError) ;;
       facecolor <- lift (or_raise (colors !! index) IndexError) ;;
       ret (cp_draw self (AText (centroid.1 + off.1) (centroid.2 + off.2) il.2 facecolor)))
    self.

Definition _add_sub_clusters (self : ClusterPlot) : M World ClusterPlot :=
  let b := cp_base self in
  (if bool_decide (is_Some (obs_columns (query_adata b) !! "sub_cluster_labels")) then ret tt
   else raise (ValueError "Please run stlearn.spatial.cluster.localization")) ;;;
  lc <- lift (or_raise (list_clusters b) TypeError) ;;
  r <- for_each (enumerate lc)
    (fun (st : ClusterPlot * option (list string)) il =>
       let self := st.1 in
       let b := cp_base self in
       ul <- get_use_label b ;;
       let rows := rows_of (query_adata b) ul il.2 in
       xy <- lift (subset_scaled b (spot_name <$> rows)) ;;
       let subs := cell "sub_cluster_labels" <$> rows in
       cc <- (if (length (unique subs) <? 2)%nat
              then c <- lift (centroidpython xy.1 xy.2) ;; ret ([c], st.2)
              else r <- lift (nearest_centroid (zip xy.1 xy.2) subs) ;; ret (r.1, Some r.2)) ;;
       let centroids := cc.1 in
       classes <- lift (or_raise cc.2 (NameError "classes")) ;;
       self <- for_each (enumerate classes)
         (fun self jl =>
            let n := length (filter (fun s => cell "sub_cluster_labels" s = jl.2)
                               (spots (query_adata b))) in
            if (threshold_spots self <? Z.of_nat n)%Z
            then ci <- lift (or_raise (centroids !! il.1) IndexError) ;;
                 let off := label_offset 1500 100 50 ci.1 in
                 colors <- read_colors (colors_key ul) ;;
                 qi <- get_query_indexes b ;;
                 index <- lift (or_raise (qi !! il.1) IndexError) ;;
                 cj <- lift (or_raise (centroids !! jl.1) IndexError) ;;
                 facecolor <- lift (or_raise (colors !! index) IndexError) ;;
                 ret (cp_draw self (AText (cj.1 + off.1) (cj.2 + off.2) jl.2 facecolor))
            else ret self)
         self ;;
       ret (self, Some classes))
    (self, None) ;;
  ret r.1.

Definition _add_trajectories (self : ClusterPlot) : M World ClusterPlot :=
  ul <- get_use_label (cp_base self) ;;
  used_colors <- read_colors (colors_key ul) ;;
  a <- read_adata ;;
  pts <- lift (or_raise (uns a !! "PTS_graph") (KeyError "PTS_graph")) ;;
  tmp <- match pts with
         | UGraph g =>
             if decide (g_nodes g = []) then
               raise (ValueError "Please run stlearn.spatial.trajectory.pseudotimespace!")
             else ret g
         | _ => raise (AttributeError "copy")
         end ;;
  (* G = tmp.copy(): the graph stored in uns is not touched *)
  let remove := filter (fun e => e.1 = 9999%Z ∨ e.2 = 9999%Z) (g_edges tmp) in
  let G := mkGraph (g_nodes tmp) (filter (fun e => e ∉ remove) (g_edges tmp)) in
  G <- (if bool_decide (9999%Z ∈ g_nodes G)
        then ret (mkGraph (filter (fun n => n ≠ 9999%Z) (g_nodes G)) (g_edges G))
        else raise (ExternalError "NetworkXError")) ;;
  cd <- lift (or_raise (uns a !! "centroid_dict") (KeyError "centroid_dict")) ;;
  centroid_dict <- match cd with
                   | UCentroids d => ret d
                   | _ => raise TypeError
                   end ;;
  let self := cp_draw self (AEdges G centroid_dict (if reverse self then "<|-" else "-|>")) in
  if show_node self
  then match centroid_dict with
       | [] => ret self
       | _ :: _ => raise (NameError "list_cluster")
       end
  else ret self.

(** [ClusterPlot.__init__]: the body up to the trajectories, then the crop
    and the save. *)
Definition ClusterPlot_draw (sp : Spatial) (p : Params)
    (show_subcluster show_cluster_labels show_trajectories reverse show_node : bool)
    (threshold_spots : Z) : M World ClusterPlot :=
  b <- SpatialBasePlot_init sp (default_use_raw p) ;;
  cm <- lift (_get_cmap (cmap b)) ;;
  (* the attributes set after the drawing are read only after it *)
  let self := mkClusterPlot b cm.1 cm.2 threshold_spots reverse show_node in
  _add_cluster_colors self ;;;
  self <- lift (_plot_clusters self) ;;
  let self := if p_show_color_bar p then _add_cluster_bar self else self in
  self <- (if show_cluster_labels then _add_cluster_labels self else ret self) ;;
  self <- (if show_subcluster then _add_sub_clusters self else ret self) ;;
  if show_trajectories then _add_trajectories self else ret self.

Definition ClusterPlot_init (sp : Spatial) (p : Params)
    (show_subcluster show_cluster_labels show_trajectories reverse show_node : bool)
    (threshold_spots : Z) : M World ClusterPlot :=
  self <- ClusterPlot_draw sp p show_subcluster show_cluster_labels show_trajectories
            reverse show_node threshold_spots ;;
  b <- crop_and_save (p_crop p) (p_margin p) (p_fname p) (cp_base self) ;;
  ret (cp_set_base self b).

(** *** [SubClusterPlot] *)

Record SubClusterPlot : Type := mkSubClusterPlot {
  sc_base : SpatialBasePlot;
  cluster : string;                     (* str(self.cluster) *)
  imgcol_new : list Q;
  imgrow_new : list Q;
  vals : list nat;
  mapping : list (string * nat);
}.

Definition sc_draw (s : SubClusterPlot) (a : artist) : SubClusterPlot :=
  mkSubClusterPlot (set_ax (sc_base s) (draw a (ax (sc_base s)))) (cluster s)
    (imgcol_new s) (imgrow_new s) (vals s) (mapping s).

(** [dict(zip(keys, vals))[k]]. *)
Definition mapping_get (m : list (string * nat)) (k : string) : option nat :=
  match list_find (fun kv => kv.1 = k) m with
  | Some (_, kv) => Some kv.2
  | None => None
  end.

(** [obs[col]] of some rows; a [KeyError] when there is no such column. *)
Definition obs_column (a : AnnData) (col : string) (rows : list Spot) : result (list string) :=
  if bool_decide (is_Some (obs_columns a !! col)) then Ok (cell col <$> rows)
  else Raise (KeyError col).

Definition _plot_subclusters (b : SpatialBasePlot) (cluster : string)
  : M World SubClusterPlot :=
  ul <- get_use_label b ;;
  a <- read_adata ;;
  (if bool_decide (is_Some (obs_columns a !! ul)) then ret tt else raise (KeyError ul)) ;;;
  let subset := rows_of a ul cluster in
  colors <- lift (obs_column a "sub_cluster_labels" subset) ;;
  sub_anndata <- lift (subset_obs a (spot_name <$> subset)) ;;
  xy <- lift (scaled_spatial b sub_anndata) ;;
  let keys := sort_strings (unique colors) in
  let vals := seq 0 (length keys) in
  let mapping := zip keys vals in
  let codes := mapping_get mapping <$> colors in
  _ <- lift (plt_get_cmap (cmap b)) ;;
  ret (sc_draw (mkSubClusterPlot b cluster xy.1 xy.2 vals mapping)
         (AScatter xy.1 xy.2 (CCodes codes (cmap b)) None (cell_alpha b) (size b))).

Definition nat_min (l : list nat) : result nat :=
  match l with [] => Raise (ValueError "min of an empty sequence")
          | x :: l' => Ok (fold_left Nat.min l' x) end.
Definition nat_max (l : list nat) : result nat :=
  match l with [] => Raise (ValueError "max of an empty sequence")
          | x :: l' => Ok (fold_left Nat.max l' x) end.

Definition _add_subclusters_label (self : SubClusterPlot) : M World SubClusterPlot :=
  let b := sc_base self in
  ul <- get_use_label b ;;
  a <- read_adata ;;
  (if bool_decide (is_Some (obs_columns a !! ul)) then ret tt else raise (KeyError ul)) ;;;
  let rows := rows_of a ul (cluster self) in
  subs <- lift (obs_column a "sub_cluster_labels" rows) ;;
  cc <- (if (length (unique subs) <? 2)%nat
         then _ <- lift (mapR (fun col => obs_column a col rows) ["imagecol"; "imagerow"]) ;;
              c <- lift (centroidpython_values
                           ((fun s => [cell "imagecol" s; cell "imagerow" s]) <$> rows)) ;;
              first <- lift (or_raise (head subs) IndexError) ;;
              ret ([c], [first])
         else lift (nearest_centroid (zip (imgcol_new self) (imgrow_new self)) subs)) ;;
  vmin <- lift (nat_min (vals self)) ;;
  vmax <- lift (nat_max (vals self)) ;;
  for_each (enumerate cc.2)
    (fun self il =>
       ci <- lift (or_raise (cc.1 !! il.1) IndexError) ;;
       let off := label_offset 1000 100 100 ci.1 in
       v <- lift (or_raise (mapping_get (mapping self) il.2) (KeyError il.2)) ;;
       c <- lift (scalar_mappable (cmap b) (Qof_nat vmin) (Qof_nat vmax) (Qof_nat v)) ;;
       ret (sc_draw self (AText (ci.1 + off.1) (ci.2 + off.2) il.2 (to_hex c))))
    self.

(** [SubClusterPlot.__init__]: the body up to the labels, then the crop and
    the save. *)
Definition SubClusterPlot_draw (sp : Spatial) (p : Params) (cluster : string)
  : M World SubClusterPlot :=
  b <- SpatialBasePlot_init sp (default_use_raw p) ;;
  self <- _plot_subclusters b cluster ;;
  _add_subclusters_label self.

Definition SubClusterPlot_init (sp : Spatial) (p : Params) (cluster : string)
  : M World SubClusterPlot :=
  self <- SubClusterPlot_draw sp p cluster ;;
  b <- crop_and_save (p_crop p) (p_margin p) (p_fname p) (sc_base self) ;;
  ret (mkSubClusterPlot b (cluster) (imgcol_new self) (imgrow_new self) (vals self)
         (mapping self)).

(** *** [CciPlot]

    A [GenePlot] whose values come from [obsm]: the constructor passes
    [gene_symbols=use_het] and leaves [threshold] and [method] at their
    defaults. *)

Definition CciPlot_get_gene_expression (self : GenePlot) : M World (list Q * GenePlot) :=
  key <- match gene_symbols self with
         | GNone => raise TypeError
         | GStr s => lift (or_raise (head (chars s)) IndexError)
         | GList l => lift (or_raise (head l) IndexError)
         end ;;
  arr <- lift (obsm_get (query_adata (gp_base self)) key) ;;
  (* one value per observation: a one-dimensional array *)
  colors <- lift (mapR (fun row => match row with
                                   | [v] => Ok v
                                   | _ => Raise (ExternalError "values are not 1-D")
                                   end) arr) ;;
  ret (colors, self).

Definition CciPlot_init (sp : Spatial) (p : Params) (use_het : string) (contour : bool)
    (step : option Z) : M World GenePlot :=
  GenePlot_init_with CciPlot_get_gene_expression sp p (GStr use_het) None "CumSum" contour step.

End Plotting.

(** ** The data loader: [stlearn/datasets/datasets.py] *)

Section Datasets.

(** A path is its list of components below the root; the root is [[]]. *)
Definition path : Type := list string.

Inductive node : Type :=
  | Dir
  | File (content : string).

Record DWorld : Type := mkDWorld {
  d_fs : gmap path node;
  d_log : list event;
}.

(** [settings.datasetdir] ([stlearn/_settings.py] is not among the sources
    embedded here), what the network answers to a request for a URL ([None]:
    the request fails), and the parser behind [sc.read_h5ad]. *)
Context (datasetdir : path)
        (remote : string -> option string)
        (h5ad_parse : string -> result AnnData).

Definition is_dir (fs : gmap path node) (p : path) : bool :=
  if decide (p = []) then true     (* the root *)
  else match fs !! p with
       | Some Dir => true
       | _ => false
       end.

Definition is_file (fs : gmap path node) (p : path) : bool :=
  match fs !! p with
  | Some (File _) => true
  | _ => false
  end.

Definition parent (p : path) : path := removelast p.

(** What stops the walk from the root down the components [todo] below the
    directory [done]: a component that is missing ([FileNotFoundError]) or is
    a regular file ([NotADirectoryError]); [None] when every component is a
    directory. *)
Fixpoint path_obstacle (fs : gmap path node) (done : path) (todo : list string)
  : option exn :=
  match todo with
  | [] => None
  | c :: todo' =>
      match fs !! (done ++ [c])%list with
      | Some Dir => path_obstacle fs (done ++ [c])%list todo'
      | Some (File _) => Some NotADirectoryError
      | None => Some FileNotFoundError
      end
  end.

(** [Path.mkdir(exist_ok=True)], without [parents=True]. *)
Definition mkdir_exist_ok (p : path) : M DWorld unit :=
  fun w =>
    if is_dir (d_fs w) p then (Ok tt, w)
    else if is_file (d_fs w) p then (Raise FileExistsError, w)
    else if is_dir (d_fs w) (parent p)
         then (Ok tt, mkDWorld (<[p := Dir]> (d_fs w)) (d_log w))
         else (Raise (default FileNotFoundError (path_obstacle (d_fs w) [] (parent p))), w).

(** [sc.readwrite._download(url, path)]: one HTTP request; the file is written
    when the request succeeds and the path can be opened for writing, and no
    half-written file is left otherwise. *)
Definition _download (url : string) (p : path) : M DWorld unit :=
  fun w =>
    let w := mkDWorld (d_fs w) (d_log w ++ [EvDownload url p]) in
    match remote url with
    | None => (Raise (ExternalError "URLError"), w)
    | Some content =>
        if is_dir (d_fs w) p then (Raise (ExternalError "IsADirectoryError"), w)
        else if is_dir (d_fs w) (parent p)
             then (Ok tt, mkDWorld (<[p := File content]> (d_fs w)) (d_log w))
             else (Raise FileNotFoundError, w)
    end.

Definition read_h5ad (p : path) : M DWorld AnnData :=
  fun w =>
    match d_fs w !! p with
    | Some (File content) => (h5ad_parse content, w)
    | _ => (Raise FileNotFoundError, w)
    end.

Definition bcba_url : string :=
  "https://raw.githubusercontent.com/duypham2108/dev_st/master/tutorials/example_bcba_small.h5".

Definition bcba_filename : path := (datasetdir ++ ["example_bcba.h5"])%list.

Definition example_bcba : M DWorld AnnData :=
  mkdir_exist_ok datasetdir ;;;
  let filename := bcba_filename in
  (w <- get_world ;;
   if is_file (d_fs w) filename then ret tt else _download bcba_url filename) ;;;
  adata <- read_h5ad filename ;;
  ret adata.

(** The world after [n] calls in a row, whatever they return. *)
Fixpoint calls (n : nat) (w : DWorld) : DWorld :=
  match n with
  | O => w
  | S n' => calls n' (example_bcba w).2
  end.

End Datasets.

(** ** A concrete setting, for running the model

    One instance of the delegated operations (colours are named by their
    position in the colormap, so two colours are equal exactly when their
    positions are), a small AnnData object with four observations in two
    clusters, and default constructor arguments. *)

Definition demo_hex (q : Q) : string :=
  "c" +:+ pretty (Qnum (Qred q)) +:+ "/" +:+ pretty (Z.pos (Qden (Qred q))).

Definition demo_centroid (xs ys : list Q) : result (Q * Q) :=
  match xs with
  | [] => Raise ZeroDivisionError
  | _ => Ok (Qred (fold_right Qplus 0 xs / inject_Z (Z.of_nat (length xs))),
             Qred (fold_right Qplus 0 ys / inject_Z (Z.of_nat (length xs))))%Q
  end.

(** The demo interpolation hands back the values themselves, and refuses
    what [griddata] refuses: values that are not one per point, and points
    that all lie on the line through the first two. *)
Definition demo_collinear (xs ys : list Q) : bool :=
  match zip xs ys with
  | p0 :: p1 :: rest =>
      forallb (fun p => Qeq_bool ((p1.1 - p0.1) * (p.2 - p0.2)
                                  - (p1.2 - p0.2) * (p.1 - p0.1))%Q 0) rest
  | _ => true
  end.
Definition demo_griddata (xs ys zs : list Q) : result (list Q) :=
  if negb (length zs =? length xs)%nat
  then Raise (ValueError "different number of values and points")
  else if demo_collinear xs ys then Raise (ExternalError "QhullError")
  else Ok zs.

Definition demo_externals : Externals := {|
  rgba := Q;
  to_hex := demo_hex;
  plt_colormaps := ["Spectral_r"; "jet"; "viridis"];
  plt_get_cmap := fun name =>
    if bool_decide (name ∈ ["Spectral_r"; "jet"; "viridis"])
    then Ok (256%Z, fun q => q)
    else Raise (ValueError "not a valid value for name");
  palette := fun _ => ["#1f77b4"; "#ff7f0e"; "#279e68"];
  from_list := fun _ q => q;
  scalar_mappable := fun _ _ _ v => Ok v;
  check_sublist := fun full sub => (fun f => bool_decide (f ∈ sub)) <$> full;
  centroidpython := demo_centroid;
  centroidpython_values := fun _ => Raise TypeError;
  nearest_centroid := fun _ _ => Raise (ExternalError "NearestCentroid");
  pandas_query := fun _ _ => Raise (ExternalError "SyntaxError");
  grid := list Q;
  griddata := demo_griddata;
  nanmax_int := fun zi => v ← list_max zi; Ok (Qtrunc v);
|}.

Definition demo_spot (name lbl : string) (x : list Q) (pos : list Q) : Spot :=
  mkSpot name {[ "clusters" := lbl ]} x x {[ "spatial" := pos ]}.

Definition demo_spots : list Spot :=
  [ demo_spot "AAAC" "0" [1; 0] [10; 20];
    demo_spot "AAAG" "1" [2; 3] [30; 40];
    demo_spot "AAAT" "0" [0; 0] [50; 60];
    demo_spot "AACA" "1" [4; 1] [70; 80] ]%Q.

Definition demo_adata : AnnData :=
  mkAnnData demo_spots
    {[ "clusters" := Categorical ["0"; "1"] ]}
    ["GeneA"; "GeneB"]
    {[ "spatial" ]}
    {[ "spatial" := USpatial {[ "lib" := {[ "hires" := Image "tissue" ]} ]} ]}
    None.

Definition demo_spatial : Spatial :=
  mkSpatial "lib" "hires" (1 # 2) [5; 15; 25; 35]%Q [10; 20; 30; 40]%Q.

(** The image coordinates of a single spot. *)
Definition demo_single_spatial : Spatial := mkSpatial "lib" "hires" 1 [7]%Q [9]%Q.

Definition demo_world : World := mkWorld demo_adata [].

Definition demo_params (cmap : string) (use_label : option string)
    (list_clusters : clusters_arg) (crop : bool) (fname : option string) : Params :=
  mkParams None None cmap use_label list_clusters true false true true crop 100%Q 7%Q 1%Q 1%Q
    false fname 120%Z.

(** ** Vocabulary of the statements *)

(** What a computation may change: [stable I m] says that [m] keeps the
    property [I] of the world, whether it returns or raises. *)
Definition stable {W A} (I : W -> Prop) (m : M W A) : Prop :=
  forall w, I w -> I (m w).2.

(** The file writes and the network operations recorded in a log. *)
Definition file_writes (log : list event) : list event :=
  filter (fun e => is_file_write e = true) log.
Definition network_ops (log : list event) : list event :=
  filter (fun e => is_network e = true) log.
Definition warnings_of (log : list event) : list event :=
  filter (fun e => is_warning e = true) log.

(** Two AnnData objects that differ at most in the [uns] entries [keys]. *)
Definition same_except_uns (keys : list string) (a a' : AnnData) : Prop :=
  spots a' = spots a /\ obs_columns a' = obs_columns a /\ var_names a' = var_names a /\
  obsm_keys a' = obsm_keys a /\ raw_var_names a' = raw_var_names a /\
  forall k, k ∉ keys -> uns a' !! k = uns a !! k.

(** The observations a plot with [use_label] is asked to show, in the words
    of the specification: those whose annotation is one of the clusters. *)
Definition selected (use_label : string) (clusters : list string) (s : Spot) : bool :=
  match label use_label s with
  | Some c => bool_decide (c ∈ clusters)
  | None => false
  end.

(** The data a plot starts from: the caller's object, or its raw version. *)
Definition plotted_source (use_raw : bool) (a : AnnData) : result AnnData :=
  if use_raw then raw_to_adata a else Ok a.

(** The expression value of gene [g] at observation [s]. *)
Definition expression (a : AnnData) (s : Spot) (g : string) : option Q :=
  match list_find (fun n => n = g) (var_names a) with
  | Some (j, _) => spot_X s !! j
  | None => None
  end.

(** Rendered positions [xs], [ys] of the observations whose spatial
    coordinates are the rows [rows]: position [i] is row [i] times [sf]. *)
Definition rendered_at (sf : Q) (rows : list (list Q)) (xs ys : list Q) : Prop :=
  length xs = length rows /\ length ys = length rows /\
  forall i row, rows !! i = Some row ->
    exists c0 c1, row !! 0%nat = Some c0 /\ row !! 1%nat = Some c1 /\
                  xs !! i = Some (c0 * sf)%Q /\ ys !! i = Some (c1 * sf)%Q.

(** The spatial coordinates of some observations, one row each. *)
Definition spatial_rows (l : list Spot) : list (list Q) :=
  (fun s => default [] (spot_obsm s !! "spatial")) <$> l.

(** The sum, the mean and the share of strictly positive values of the
    expression values [row] of one observation over the listed genes. *)
Definition sum_of (row : list Q) : Q := fold_right Qplus 0%Q row.
Definition mean_of (row : list Q) : Q := (sum_of row / inject_Z (Z.of_nat (length row)))%Q.
Definition positive (v : Q) : bool := if Qlt_le_dec 0 v then true else false.
Definition positive_fraction (row : list Q) : Q :=
  (inject_Z (Z.of_nat (length (filter (fun v => positive v = true) row)))
   / inject_Z (Z.of_nat (length row)))%Q.

(** The expression values of one observation over a list of genes. *)
Definition expressions (a : AnnData) (genes : list string) (s : Spot) : option (list Q) :=
  mapM (expression a s) genes.

(** What [list_clusters] is after the constructor, from its argument and the
    full category list. *)
Definition clusters_asked (arg : clusters_arg) (categories : list string) : list string :=
  match arg with
  | ClNone => categories
  | ClScalar c => [c]
  | ClList l => l
  end.

(** Two states of a plot object that differ at most in what is drawn on the
    axes (artists, title, axis switch) and in the figure being closed. *)
Definition same_frame `{Ext : Externals} (b b' : SpatialBasePlot) : Prop :=
  spatial b' = spatial b /\ query_adata b' = query_adata b /\
  list_clusters b' = list_clusters b /\ fname b' = fname b /\ dpi b' = dpi b /\
  use_label b' = use_label b /\ query_indexes b' = query_indexes b /\
  cmap b' = cmap b /\ cell_alpha b' = cell_alpha b /\ size b' = size b /\
  ax_xlim (ax b') = ax_xlim (ax b) /\ ax_ylim (ax b') = ax_ylim (ax b).

(** The limits that [_crop_image] sets for a margin [m]: what [set_xlim]
    stores for the column range widened by [m], and what [set_ylim] stores
    for the row range widened by [m] and, reversed, stores again. When the
    bounds are apart these are the widened ranges themselves. *)
Definition cropped_limits (sp : Spatial) (m : Q) (xlim ylim : option (Q * Q)) : Prop :=
  exists cmin cmax rmin rmax,
    list_min (imagecol sp) = Ok cmin /\ list_max (imagecol sp) = Ok cmax /\
    list_min (imagerow sp) = Ok rmin /\ list_max (imagerow sp) = Ok rmax /\
    xlim = Some (nonsingular (cmin - m) (cmax + m))%Q /\
    ylim = Some (let r := nonsingular (rmin - m) (rmax + m) in nonsingular r.2 r.1)%Q /\
    (apart (cmin - m) (cmax + m) = true -> xlim = Some (cmin - m, cmax + m))%Q /\
    (apart (rmin - m) (rmax + m) = true -> ylim = Some (rmax + m, rmin - m))%Q.

(** The entry that a successful [_save_output] adds to the log. *)
Definition saved (fname : option string) (dpi : Z) : list event :=
  match fname with
  | Some f => [EvSaveFig f dpi]
  | None => []
  end.

(** One scatter per group of [_plot_clusters]: its points are the scaled
    coordinates of the rows that [check_sublist] picks, its colour the
    colormap at [query_indexes[i] / (cmap_n - 1)], [i] the position of the
    group in the enumeration. *)
Definition cluster_scatter `{Ext : Externals} (self : ClusterPlot)
    (ic : nat * (string * list Spot)) (art : artist) : Prop :=
  exists xs ys qi idx pos,
    subset_scaled (cp_base self) (spot_name <$> ic.2.2) = Ok (xs, ys) /\
    query_indexes (cp_base self) = Some qi /\ qi !! ic.1 = Some idx /\
    color_position idx (cmap_n self) = Ok pos /\
    art = AScatter xs ys (CFixed (cmap_ self pos)) (Some ic.2.1)
            (cell_alpha (cp_base self)) (size (cp_base self)).

(** ** The five constructors under one name

    A call of a plot constructor with its arguments; [construct] runs it and
    hands back the [SpatialBasePlot] part of the object it built. *)

Section Calls.
Context `{Ext : Externals}.

Inductive plot_call : Type :=
  | NewSpatialBasePlot (sp : Spatial) (p : Params)
  | NewGenePlot (sp : Spatial) (p : Params) (gene_symbols : genes_arg)
      (threshold : option Q) (method : string) (contour : bool) (step_size : option Z)
  | NewClusterPlot (sp : Spatial) (p : Params)
      (show_subcluster show_cluster_labels show_trajectories reverse show_node : bool)
      (threshold_spots : Z)
  | NewSubClusterPlot (sp : Spatial) (p : Params) (cluster : string)
  | NewCciPlot (sp : Spatial) (p : Params) (use_het : string) (contour : bool)
      (step_size : option Z).

Definition construct (c : plot_call) : M World SpatialBasePlot :=
  match c with
  | NewSpatialBasePlot sp p => SpatialBasePlot_init sp p
  | NewGenePlot sp p g th m ct st =>
      self <- GenePlot_init sp p g th m ct st ;; ret (gp_base self)
  | NewClusterPlot sp p ssc scl str rv sn ts =>
      self <- ClusterPlot_init sp p ssc scl str rv sn ts ;; ret (cp_base self)
  | NewSubClusterPlot sp p cl =>
      self <- SubClusterPlot_init sp p cl ;; ret (sc_base self)
  | NewCciPlot sp p het ct st =>
      self <- CciPlot_init sp p het ct st ;; ret (gp_base self)
  end.

Definition call_spatial (c : plot_call) : Spatial :=
  match c with
  | NewSpatialBasePlot sp _ | NewGenePlot sp _ _ _ _ _ _ | NewClusterPlot sp _ _ _ _ _ _ _
  | NewSubClusterPlot sp _ _ | NewCciPlot sp _ _ _ _ => sp
  end.

Definition call_params (c : plot_call) : Params :=
  match c with
  | NewSpatialBasePlot _ p | NewGenePlot _ p _ _ _ _ _ | NewClusterPlot _ p _ _ _ _ _ _
  | NewSubClusterPlot _ p _ | NewCciPlot _ p _ _ _ => p
  end.

(** The classes whose constructor draws, crops and saves; the base class
    only prepares the frame. *)
Definition draws (c : plot_call) : bool :=
  match c with NewSpatialBasePlot _ _ => false | _ => true end.

(** The constructor up to its crop. *)
Definition draw_part (c : plot_call) : M World SpatialBasePlot :=
  match c with
  | NewSpatialBasePlot sp p => SpatialBasePlot_init sp p
  | NewGenePlot sp p g th m ct st =>
      self <- GenePlot_draw_with GenePlot_get_gene_expression sp p g th m ct st ;;
      ret (gp_base self)
  | NewClusterPlot sp p ssc scl str rv sn ts =>
      self <- ClusterPlot_draw sp p ssc scl str rv sn ts ;; ret (cp_base self)
  | NewSubClusterPlot sp p cl =>
      self <- SubClusterPlot_draw sp p cl ;; ret (sc_base self)
  | NewCciPlot sp p het ct st =>
      self <- GenePlot_draw_with CciPlot_get_gene_expression sp p (GStr het) None "CumSum"
                ct st ;;
      ret (gp_base self)
  end.

(** The [uns] entries a call may write: [use_label + "_colors"], for a
    [ClusterPlot] with [use_label]. *)
Definition written_uns (c : plot_call) : list string :=
  match c with
  | NewClusterPlot _ p _ _ _ _ _ _ =>
      match p_use_label p with Some ul => [colors_key ul] | None => [] end
  | _ => []
  end.

(** The arguments the base constructor gets from a call. *)
Definition base_params (c : plot_call) : Params :=
  match c with
  | NewClusterPlot _ p _ _ _ _ _ _ | NewSubClusterPlot _ p _ => default_use_raw p
  | _ => call_params c
  end.

(** The colour of the scatter drawn with legend label [lbl], if there is one
    with a single fixed colour. *)
Definition is_scatter_of (lbl : string) (a : artist) : bool :=
  match a with
  | AScatter _ _ (CFixed _) (Some l) _ _ => bool_decide (l = lbl)
  | _ => false
  end.
Definition scatter_color (lbl : string) (arts : list artist) : option rgba :=
  match list_find (fun a => is_scatter_of lbl a = true) arts with
  | Some (_, AScatter _ _ (CFixed c) _ _ _) => Some c
  | _ => None
  end.

(** The face colour of the text box that shows [lbl]. *)
Definition is_text_of (lbl : string) (a : artist) : bool :=
  match a with
  | AText _ _ s _ => bool_decide (s = lbl)
  | _ => false
  end.
Definition text_facecolor (lbl : string) (arts : list artist) : option string :=
  match list_find (fun a => is_text_of lbl a = true) arts with
  | Some (_, AText _ _ _ c) => Some c
  | _ => None
  end.

(** The view limits after a constructor that crops. *)
Definition limits_after (crop : bool) (sp : Spatial) (m : Q) (a : Axes) : Prop :=
  if crop then cropped_limits sp m (ax_xlim a) (ax_ylim a)
  else ax_xlim a = None /\ ax_ylim a = None.

End Calls.

(** What one call of [example_bcba] does, by cases on the world it starts
    from: the directory cannot be made; the cache file is there and is read;
    the download or the write fails; the file is downloaded and read. *)
Section Outcome.
Context (datasetdir : path) (remote : string -> option string)
        (h5ad_parse : string -> result AnnData).

Inductive bcba_outcome (w : DWorld) : result AnnData * DWorld -> Prop :=
  | bcba_mkdir_fails e :
      is_dir (d_fs w) datasetdir = false ->
      bcba_outcome w (Raise e, w)
  | bcba_cached fs' content :
      is_file (d_fs w) (bcba_filename datasetdir) = true ->
      fs' !! (bcba_filename datasetdir) = d_fs w !! (bcba_filename datasetdir) ->
      fs' !! (bcba_filename datasetdir) = Some (File content) ->
      is_dir fs' datasetdir = true ->
      bcba_outcome w (h5ad_parse content, mkDWorld fs' (d_log w))
  | bcba_download_fails fs' e :
      is_file (d_fs w) (bcba_filename datasetdir) = false ->
      is_file fs' (bcba_filename datasetdir) = false ->
      bcba_outcome w (Raise e, mkDWorld fs'
                                 (d_log w ++ [EvDownload bcba_url (bcba_filename datasetdir)]))
  | bcba_downloaded fs' content :
      is_file (d_fs w) (bcba_filename datasetdir) = false ->
      remote bcba_url = Some content ->
      fs' !! (bcba_filename datasetdir) = Some (File content) ->
      is_dir fs' datasetdir = true ->
      bcba_outcome w (h5ad_parse content,
                      mkDWorld fs'
                        (d_log w ++ [EvDownload bcba_url (bcba_filename datasetdir)])).

End Outcome.

(** A concrete setting for the loader: an empty file system, a network that
    answers every request with the same bytes, a parser that accepts them. *)
Definition demo_datasetdir : path := ["stlearn_data"].
Definition demo_remote (url : string) : option string := Some "HDF5".
Definition demo_parse (content : string) : result AnnData :=
  if decide (content = "HDF5") then Ok demo_adata else Raise (ExternalError "OSError").
Definition demo_dworld : DWorld := mkDWorld ∅ [].


(** A [GenePlot] object on the demo data, as it is before
    [_get_gene_expression], with two genes and method [CumSum]. *)
Definition demo_gene_plot : @GenePlot demo_externals :=
  mkGenePlot
    (mkBase demo_spatial None None 1 1 7 demo_adata None None 120 None None "jet" new_axes false)
    CumSum None (GList ["GeneA"; "GeneB"]) [].


(** ** Vocabulary of the further properties *)

(** The warning that the gene loop emits when it removes [gene]. *)
Definition removal_warning (gene : string) : event :=
  EvWarn ("We removed " +:+ gene +:+ " because they not exist in the data").

(** No two symbols next to each other in the list are both absent from the
    index. *)
Fixpoint no_adjacent_absent (index : list string) (genes : list string) : bool :=
  match genes with
  | g1 :: rest =>
      match rest with
      | g2 :: _ => (bool_decide (g1 ∈ index) || bool_decide (g2 ∈ index))
                   && no_adjacent_absent index rest
      | [] => true
      end
  | [] => true
  end.

(** The exception of a constructor whose argument check fails with [e]: the
    data to plot are read before the checks, and with [use_raw] on data
    without [raw] that reading raises first. *)
Definition after_source (source : result AnnData) (e : exn) : exn :=
  match source with
  | Ok _ => e
  | Raise e0 => e0
  end.

(** The colour that [_add_cluster_colors] stores at position [i]:
    [to_hex(cmap_(i / (cmap_n - 1)))]. *)
Definition stored_color `{Ext : Externals} (self : ClusterPlot) (i : nat) : string :=
  to_hex (cmap_ self (inject_Z (Z.of_nat i) / inject_Z (cmap_n self - 1))%Q).

(** The calls that reach the gene loop, the one place that warns: a
    [GenePlot] for a list of two or more symbols. *)
Definition may_warn `{Ext : Externals} (c : plot_call) : bool :=
  match c with
  | NewGenePlot _ _ (GList (_ :: _ :: _)) _ _ _ _ => true
  | _ => false
  end.


(** ** Further concrete settings *)

(** A [ClusterPlot] object on the demo data, as it is after the base
    constructor with [use_label="clusters"]. *)
Definition demo_cluster_base : @SpatialBasePlot demo_externals :=
  mkBase demo_spatial None None 1 1 7 demo_adata (Some ["0"; "1"]) None 120
    (Some "clusters") (Some [0; 1]%nat) "jet" new_axes false.
Definition demo_cluster_plot : @ClusterPlot demo_externals :=
  mkClusterPlot demo_cluster_base (fun q => q) 256 5 false false.

(** The demo world after a trajectory analysis: cluster colours, a graph
    with the extra node [9999], and the positions of its nodes. *)
Definition demo_traj_world : World :=
  mkWorld
    (set_uns demo_adata
       (<[ "clusters_colors" := UColors ["#000000"; "#ffffff"] ]>
        (<[ "PTS_graph" := UGraph (mkGraph [0; 1; 9999]%Z [(0, 1); (9999, 0); (1, 9999)]%Z) ]>
         (<[ "centroid_dict" := UCentroids [(0%Z, (1, 2)%Q); (1%Z, (3, 4)%Q)] ]>
          (uns demo_adata)))))
    [].

(** The demo data with sub-cluster labels. *)
Definition demo_sub_spot (name lbl sub : string) (pos : list Q) : Spot :=
  mkSpot name {[ "clusters" := lbl; "sub_cluster_labels" := sub ]} [0; 0]%Q [0; 0]%Q
    {[ "spatial" := pos ]}.
Definition demo_sub_world : World :=
  mkWorld
    (set_obs_columns
       (set_spots demo_adata
          [ demo_sub_spot "AAAC" "0" "b" [10; 20];
            demo_sub_spot "AAAG" "1" "c" [30; 40];
            demo_sub_spot "AAAT" "0" "a" [50; 60];
            demo_sub_spot "AACA" "0" "b" [70; 80] ]%Q)
       (<[ "sub_cluster_labels" := Plain ]> (obs_columns demo_adata)))
    [].


(** A [GenePlot] object on four spots that do not lie on one line, as it is
    before the drawing step. *)
Definition demo_square_adata : AnnData :=
  set_spots demo_adata
    [ demo_spot "AAAC" "0" [1; 0] [10; 20];
      demo_spot "AAAG" "1" [2; 3] [30; 40];
      demo_spot "AAAT" "0" [0; 0] [50; 20];
      demo_spot "AACA" "1" [4; 1] [70; 80] ]%Q.
Definition demo_contour_plot : @GenePlot demo_externals :=
  mkGenePlot
    (mkBase demo_spatial None None 1 1 7 demo_square_adata None None 120 None None "jet"
       new_axes false)
    CumSum None (GList ["GeneA"]) [].

(** A file system in which the place of the parent of the dataset directory
    [data/stlearn] is taken by a regular file. *)
Definition demo_parent_is_file : DWorld :=
  mkDWorld (<[ ["data"] := File "notes" ]> ∅) [].

(** A network that answers no request, and a file system that holds the
    dataset directory with a cache file that the parser rejects. *)
Definition demo_offline (url : string) : option string := None.
Definition demo_bad_cache : DWorld :=
  mkDWorld (<[ bcba_filename demo_datasetdir := File "truncated" ]>
            (<[ demo_datasetdir := Dir ]> ∅)) [].
(** * Properties *)

(** ** Computations *)

Section Computations.
Context {W : Type}.

Lemma bind_ok_inv {A B} (m : M W A) (f : A -> M W B) w b w' :
  bind m f w = (Ok b, w') ->
  exists a w1, m w = (Ok a, w1) /\ f a w1 = (Ok b, w').
Proof.
  unfold bind. destruct (m w) as [[a|e] w1]; intros H; [eauto | discriminate].
Qed.

Lemma bind_raise_inv {A B} (m : M W A) (f : A -> M W B) w e w' :
  bind m f w = (Raise e, w') ->
  m w = (Raise e, w') \/ exists a w1, m w = (Ok a, w1) /\ f a w1 = (Raise e, w').
Proof.
  unfold bind. destruct (m w) as [[a|e1] w1]; intros H; [eauto | left; congruence].
Qed.

Lemma lift_inv {A} (r : result A) (w : W) a w' :
  lift r w = (Ok a, w') -> r = Ok a /\ w' = w.
Proof. unfold lift. intros [= -> ->]. auto. Qed.

Lemma ret_inv {A} (x : A) (w : W) a w' :
  ret x w = (Ok a, w') -> a = x /\ w' = w.
Proof. unfold ret. intros [= -> ->]. auto. Qed.

Lemma assert_inv (c : bool) msg (w : W) u w' :
  assert_ c msg w = (Ok u, w') -> c = true /\ w' = w.
Proof. unfold assert_. destruct c; [intros [= _ ->]; auto | discriminate]. Qed.

Lemma stable_ret {A} (I : W -> Prop) (a : A) : stable I (ret a).
Proof. intros w Hw. exact Hw. Qed.

Lemma stable_raise {A} (I : W -> Prop) e : stable I (@raise W A e).
Proof. intros w Hw. exact Hw. Qed.

Lemma stable_lift {A} (I : W -> Prop) (r : result A) : stable I (lift r).
Proof. intros w Hw. exact Hw. Qed.

Lemma stable_get_world (I : W -> Prop) : stable I get_world.
Proof. intros w Hw. exact Hw. Qed.

Lemma stable_assert (I : W -> Prop) c msg : stable I (assert_ c msg).
Proof. intros w Hw. unfold assert_. destruct c; exact Hw. Qed.

Lemma stable_bind {A B} (I : W -> Prop) (m : M W A) (f : A -> M W B) :
  stable I m -> (forall a, stable I (f a)) -> stable I (bind m f).
Proof.
  intros Hm Hf w Hw. unfold bind. specialize (Hm w Hw).
  destruct (m w) as [[a|e] w1]; simpl in *; [apply Hf, Hm | exact Hm].
Qed.

Lemma stable_for_each {A S} (I : W -> Prop) (l : list A) (body : S -> A -> M W S) acc :
  (forall acc a, stable I (body acc a)) -> stable I (for_each l body acc).
Proof.
  intros Hb. revert acc. induction l as [|a l IH]; intros acc; simpl.
  - apply stable_ret.
  - apply stable_bind; [apply Hb | intros; apply IH].
Qed.

(** A computation that leaves the world as it found it. *)
Lemma readonly_stable {A} (I : W -> Prop) (m : M W A) :
  (forall w, (m w).2 = w) -> stable I m.
Proof. intros H w Hw. rewrite H. exact Hw. Qed.

Lemma for_each_inv {A S} (Phi : S -> Prop) (l : list A) (body : S -> A -> M W S) :
  (forall acc a w r w', Phi acc -> body acc a w = (Ok r, w') -> Phi r) ->
  forall acc w r w', Phi acc -> for_each l body acc w = (Ok r, w') -> Phi r.
Proof.
  intros Hb. induction l as [|a l IH]; intros acc w r w' Hacc H; simpl in H.
  - apply ret_inv in H as [-> _]. exact Hacc.
  - apply bind_ok_inv in H as (acc1 & w1 & H1 & H2). eauto.
Qed.

End Computations.

Lemma rbind_ok_inv {A B} (r : result A) (f : A -> result B) b :
  r ≫= f = Ok b -> exists a, r = Ok a /\ f a = Ok b.
Proof. destruct r as [a|e]; simpl; intros H; [eauto | discriminate]. Qed.

Lemma or_raise_ok_inv {A} (o : option A) e a : or_raise o e = Ok a -> o = Some a.
Proof. destruct o; simpl; congruence. Qed.

Lemma mapR_ok_length {A B} (f : A -> result B) l bs :
  mapR f l = Ok bs -> length bs = length l.
Proof.
  revert bs. induction l as [|a l IH]; intros bs; simpl.
  - intros [= <-]. reflexivity.
  - destruct (f a); [|discriminate]. destruct (mapR f l); [|discriminate].
    intros [= <-]. simpl. f_equal. auto.
Qed.

Lemma mapR_ok_lookup {A B} (f : A -> result B) l bs i a :
  mapR f l = Ok bs -> l !! i = Some a -> exists b, f a = Ok b /\ bs !! i = Some b.
Proof.
  revert bs i. induction l as [|x l IH]; intros bs i; simpl; [intros _ H; inversion H|].
  destruct (f x) eqn:Hx; [|discriminate]. destruct (mapR f l) eqn:Hl; [|discriminate].
  intros [= <-]. destruct i as [|i]; simpl.
  - intros [= <-]. eauto.
  - intros H. eapply IH; eauto.
Qed.

(** ** What the plot constructors may change in the world *)

Lemma stable_bind_ok {W A B} (I : W -> Prop) (m : M W A) (f : A -> M W B) :
  stable I m -> (forall a w w1, m w = (Ok a, w1) -> stable I (f a)) -> stable I (bind m f).
Proof.
  intros Hm Hf w Hw. unfold bind. specialize (Hm w Hw).
  destruct (m w) as [[a|e] w1] eqn:E; simpl in *; [eapply Hf; eauto | exact Hm].
Qed.

Ltac stable_step :=
  lazymatch goal with
  | |- stable _ (bind _ _) => apply stable_bind; [|intros ?]
  | |- stable _ (ret _) => apply stable_ret
  | |- stable _ (raise _) => apply stable_raise
  | |- stable _ (lift _) => apply stable_lift
  | |- stable _ (assert_ _ _) => apply stable_assert
  | |- stable _ get_world => apply stable_get_world
  | |- stable _ (for_each _ _ _) => apply stable_for_each; intros ? ?
  | |- stable _ (match ?x with _ => _ end) => destruct x
  | |- stable _ (let _ := _ in _) => cbv zeta
  end.

Ltac stable_tac := repeat stable_step.

Section Frames.
Context `{Ext : Externals}.
Context (I : World -> Prop).

Lemma stable_read_adata : stable I read_adata.
Proof. unfold read_adata. stable_tac. Qed.

Lemma stable_read_colors key : stable I (read_colors key).
Proof. unfold read_colors, read_adata. stable_tac. Qed.

Lemma stable_base_init sp p : stable I (SpatialBasePlot_init sp p).
Proof. unfold SpatialBasePlot_init, read_adata. stable_tac. Qed.

Lemma stable_crop (crop : bool) margin (b : SpatialBasePlot) :
  stable I (if crop then bind (lift (_crop_image b margin)) (fun a => ret (set_ax b a))
            else ret b).
Proof. stable_tac. Qed.

Lemma stable_cci_get_gene_expression self : stable I (CciPlot_get_gene_expression self).
Proof. unfold CciPlot_get_gene_expression. stable_tac. Qed.

Lemma stable_add_cluster_labels self : stable I (_add_cluster_labels self).
Proof.
  unfold _add_cluster_labels, get_use_label, get_query_indexes. stable_tac;
    try apply stable_read_colors; stable_tac.
Qed.

Lemma stable_add_sub_clusters self : stable I (_add_sub_clusters self).
Proof.
  unfold _add_sub_clusters, get_use_label, get_query_indexes.
  repeat (stable_step || apply stable_read_colors).
Qed.

Lemma stable_add_trajectories self : stable I (_add_trajectories self).
Proof.
  unfold _add_trajectories, get_use_label.
  repeat (stable_step || apply stable_read_colors || apply stable_read_adata).
Qed.

Lemma stable_plot_subclusters b c : stable I (_plot_subclusters b c).
Proof.
  unfold _plot_subclusters, get_use_label.
  repeat (stable_step || apply stable_read_adata).
Qed.

Lemma stable_add_subclusters_label self : stable I (_add_subclusters_label self).
Proof.
  unfold _add_subclusters_label, get_use_label.
  repeat (stable_step || apply stable_read_adata).
Qed.

Lemma stable_subcluster_draw sp p c : stable I (SubClusterPlot_draw sp p c).
Proof.
  unfold SubClusterPlot_draw.
  repeat (stable_step || apply stable_base_init || apply stable_plot_subclusters
          || apply stable_add_subclusters_label).
Qed.

(** From here on the property is one that a warning does not disturb. *)
Hypothesis I_warn : forall msg, stable I (emit (EvWarn msg)).

Lemma stable_remove_absent fuel vi i genes : stable I (remove_absent fuel vi i genes).
Proof.
  revert i genes. induction fuel as [|fuel IH]; intros i genes; simpl.
  - apply stable_ret.
  - repeat (stable_step || apply I_warn || apply IH).
Qed.

Lemma stable_get_gene_expression self : stable I (GenePlot_get_gene_expression self).
Proof.
  unfold GenePlot_get_gene_expression.
  repeat (stable_step || apply stable_remove_absent).
Qed.

Lemma stable_geneplot_draw_with get sp p genes th method contour step :
  (forall self, stable I (get self)) ->
  stable I (GenePlot_draw_with get sp p genes th method contour step).
Proof.
  intros Hget. unfold GenePlot_draw_with.
  repeat (stable_step || apply stable_base_init || apply Hget).
Qed.

End Frames.

(** ** Inverting a computation that returned *)

Lemma read_adata_inv w a w' : read_adata w = (Ok a, w') -> a = w_adata w /\ w' = w.
Proof. unfold read_adata, bind, get_world, ret. intros [= <- <-]. auto. Qed.

Ltac inv_ok_step :=
  match goal with
  | H : bind _ _ _ = (Ok _, _) |- _ =>
      let a := fresh "a" in let w := fresh "w" in let H1 := fresh "H" in
      apply bind_ok_inv in H as (a & w & H1 & H)
  | H : ret _ _ = (Ok _, _) |- _ => apply ret_inv in H as [? ?]; subst
  | H : lift _ _ = (Ok _, _) |- _ => apply lift_inv in H as [H ?]; subst
  | H : assert_ _ _ _ = (Ok _, _) |- _ => apply assert_inv in H as [H ?]; subst
  | H : read_adata _ = (Ok _, _) |- _ => apply read_adata_inv in H as [? ?]; subst
  | H : raise _ _ = (Ok _, _) |- _ => discriminate H
  | H : Raise _ = Ok _ |- _ => discriminate H
  | H : Ok _ = Ok _ |- _ => injection H as H; subst
  | H : _ ≫= _ = Ok _ |- _ =>
      let a := fresh "a" in let H1 := fresh "H" in
      apply rbind_ok_inv in H as (a & H1 & H)
  | H : or_raise _ _ = Ok _ |- _ => apply or_raise_ok_inv in H
  | H : (match ?x with _ => _ end) _ = (Ok _, _) |- _ => destruct x eqn:?
  | H : (match ?x with _ => _ end) = Ok _ |- _ => destruct x eqn:?
  | H : (let _ := _ in _) _ = (Ok _, _) |- _ => cbv zeta in H
  end.

Ltac inv_ok := repeat inv_ok_step.

Section BaseInit.
Context `{Ext : Externals}.

Lemma select_clusters_fields self self' :
  _select_clusters self = Ok self' ->
  spatial self' = spatial self /\ use_label self' = use_label self /\
  fname self' = fname self /\ dpi self' = dpi self /\ ax self' = ax self /\
  title self' = title self /\ cmap self' = cmap self /\
  list_clusters self' = list_clusters self /\ query_indexes self' = query_indexes self.
Proof.
  unfold _select_clusters. intros H. inv_ok; simpl; auto 10.
Qed.

Lemma add_image_limits self a :
  _add_image self = Ok a -> ax_xlim a = ax_xlim (ax self) /\ ax_ylim a = ax_ylim (ax self).
Proof. unfold _add_image. intros H. inv_ok; simpl; auto. Qed.

Lemma base_init_fields sp p w b w' :
  SpatialBasePlot_init sp p w = (Ok b, w') ->
  w' = w /\ spatial b = sp /\ use_label b = p_use_label p /\ fname b = p_fname p /\
  dpi b = p_dpi p /\ title b = p_title p /\ cmap b = p_cmap p /\
  ax_xlim (ax b) = None /\ ax_ylim (ax b) = None.
Proof.
  unfold SpatialBasePlot_init. intros H.
  destruct (p_show_axis p), (p_show_plot p); inv_ok.
  all: repeat match goal with
       | H : _select_clusters _ = Ok _ |- _ =>
           apply select_clusters_fields in H; simpl in H; destruct_and! 
       | H : _add_image _ = Ok _ |- _ => apply add_image_limits in H; simpl in H; destruct H
       end.
  all: simpl; repeat split; try congruence.
Qed.

End BaseInit.

(** ** Selecting observations by name *)

Lemma index_of_lookup (l : list Spot) (s : Spot) (i : nat) :
  NoDup (spot_name <$> l) -> s ∈ l ->
  index_of (spot_name <$> l) (spot_name s) = Ok i -> l !! i = Some s.
Proof.
  intros Hnd Hin. unfold index_of.
  destruct (list_find _ _) as [[j n]|] eqn:Hf; [|discriminate].
  intros [= ->]. apply list_find_Some in Hf as (Hj & Hn & _).
  apply list_elem_of_lookup in Hin as [k Hk].
  assert ((spot_name <$> l) !! k = Some (spot_name s)) as Hk'
    by (rewrite list_lookup_fmap, Hk; reflexivity).
  rewrite Hn in Hj.
  rewrite (NoDup_lookup _ _ _ _ Hnd Hj Hk'). exact Hk.
Qed.

Lemma rows_by_name (l l' : list Spot) pos rows :
  NoDup (spot_name <$> l) -> l' ⊆ l ->
  mapR (index_of (spot_name <$> l)) (spot_name <$> l') = Ok pos ->
  mapR (fun i => or_raise (l !! i) IndexError) pos = Ok rows ->
  rows = l'.
Proof.
  intros Hnd. revert pos rows. induction l' as [|s l' IH]; intros pos rows Hsub; simpl.
  - intros [= <-]. simpl. intros [= <-]. reflexivity.
  - destruct (index_of _ _) as [i|] eqn:Hi; [|discriminate].
    destruct (mapR (index_of _) _) as [pos'|] eqn:Hpos; [|discriminate].
    intros [= <-]. simpl.
    rewrite (index_of_lookup l s i Hnd) by (auto; apply Hsub; left).
    simpl. destruct (mapR _ pos') as [rows'|] eqn:Hrows; [|discriminate].
    intros [= <-]. f_equal. eapply IH; eauto.
    intros x Hx. apply Hsub. right. exact Hx.
Qed.

Lemma subset_obs_filter (a q : AnnData) (P : Spot -> Prop) `{!forall s, Decision (P s)} :
  subset_obs a (spot_name <$> filter P (spots a)) = Ok q ->
  spots q = filter P (spots a) /\ var_names q = var_names a /\ uns q = uns a /\
  obsm_keys q = obsm_keys a /\ raw_var_names q = raw_var_names a.
Proof.
  unfold subset_obs, get_indexer. intros Hq.
  apply rbind_ok_inv in Hq as (pos & Hpos & Hq).
  apply rbind_ok_inv in Hq as (rows & Hrows & Hq).
  injection Hq as <-. simpl. repeat split.
  destruct (decide (NoDup (obs_names a))) as [Hnd|]; [|discriminate].
  eapply rows_by_name; eauto.
  intros s Hs. apply list_elem_of_filter in Hs as [_ Hs]. exact Hs.
Qed.

Lemma selected_nil ul s : selected ul [] s = false.
Proof.
  unfold selected. destruct (label ul s); [|reflexivity].
  apply bool_decide_eq_false_2, not_elem_of_nil.
Qed.

Lemma selected_cons ul c l s :
  selected ul (c :: l) s = bool_decide (label ul s = Some c) || selected ul l s.
Proof.
  unfold selected. destruct (label ul s) as [c'|].
  - destruct (decide (c' = c)) as [->|Hne].
    + rewrite (bool_decide_eq_true_2 (c ∈ c :: l)) by left.
      rewrite (bool_decide_eq_true_2 (Some c = Some c)) by reflexivity. reflexivity.
    + rewrite (bool_decide_eq_false_2 (Some c' = Some c)) by congruence. simpl.
      apply bool_decide_ext. rewrite elem_of_cons. tauto.
  - rewrite bool_decide_eq_false_2 by discriminate. reflexivity.
Qed.

Lemma eval_query_fold ul l e0 s :
  eval_query (fold_left (fun e sub => QOr e (QEq ul sub)) l e0) s
  = eval_query e0 s || selected ul l s.
Proof.
  revert e0. induction l as [|c l IH]; intros e0; simpl.
  - rewrite selected_nil, orb_false_r. reflexivity.
  - rewrite IH, selected_cons. simpl. rewrite orb_assoc. reflexivity.
Qed.

Lemma eval_parsed_query ul lc e s :
  parsed_query lc ul = Some e -> eval_query e s = selected ul lc s.
Proof.
  destruct lc as [|c l]; simpl; [discriminate|]. intros [= <-].
  rewrite eval_query_fold, selected_cons. reflexivity.
Qed.

Section Selection.
Context `{Ext : Externals}.

Lemma select_clusters_spots self self' ul lc :
  use_label self = Some ul -> list_clusters self = Some lc ->
  _select_clusters self = Ok self' ->
  plain_name ul = true -> forallb plain_literal lc = true ->
  spots (query_adata self') = filter (fun s => selected ul lc s = true) (spots (query_adata self)).
Proof.
  unfold _select_clusters. intros -> -> H Hname Hlit. simpl in H.
  apply rbind_ok_inv in H as (names & Hn & H).
  apply rbind_ok_inv in H as (q & Hq & H). injection H as <-. simpl.
  unfold obs_query_index in Hn. destruct (parsed_query lc ul) as [e|] eqn:He; [|discriminate].
  rewrite Hname, Hlit in Hn. simpl in Hn. injection Hn as <-.
  apply subset_obs_filter in Hq as [-> _].
  apply list_filter_iff. intros s. rewrite (eval_parsed_query _ _ _ _ He). reflexivity.
Qed.

Lemma base_init_query sp p w b w' ul :
  SpatialBasePlot_init sp p w = (Ok b, w') -> p_use_label p = Some ul ->
  exists q0 cats,
    plotted_source (p_use_raw p) (w_adata w) = Ok q0 /\
    obs_columns (w_adata w) !! ul = Some (Categorical cats) /\
    list_clusters b = Some (clusters_asked (p_list_clusters p) cats) /\
    (plain_name ul = true ->
     forallb plain_literal (clusters_asked (p_list_clusters p) cats) = true ->
     spots (query_adata b)
     = filter (fun s => selected ul (clusters_asked (p_list_clusters p) cats) s = true)
         (spots q0)).
Proof.
  unfold SpatialBasePlot_init, plotted_source. intros H Hul. rewrite Hul in H.
  destruct (p_show_axis p), (p_show_plot p); inv_ok.
  all: try match goal with H : _get_query_clusters_index _ _ _ = Ok _ |- _ =>
         unfold _get_query_clusters_index in H;
         apply rbind_ok_inv in H as (cats & Hcats & H);
         unfold cat_categories in Hcats;
         destruct (obs_columns (w_adata w) !! ul) as [[cats'|]|] eqn:Hcol; try discriminate;
         injection Hcats as ->
       end.
  all: match goal with H : _select_clusters _ = Ok _ |- _ =>
         pose proof (select_clusters_fields _ _ H) as Hf; simpl in Hf; destruct_and!
       end.
  all: match goal with H : _select_clusters ?self = Ok _ |- _ =>
         eassert (use_label self = Some _) as Hu by reflexivity;
         eassert (list_clusters self = Some _) as Hl by reflexivity;
         pose proof (select_clusters_spots _ _ _ _ Hu Hl H) as Hsel; simpl in Hsel;
         clear H Hu Hl
       end.
  all: eexists _, cats; split; [simpl; eauto|]; split; [reflexivity|].
  all: destruct (p_list_clusters p); simpl in *; simplify_eq.
  all: try match goal with H : cat_categories _ _ = Ok _ |- _ =>
         unfold cat_categories in H; rewrite Hcol in H; injection H as <- end.
  all: try match goal with H : _add_image _ = Ok _ |- _ => clear H end.
  all: simpl; (split; [congruence|]).
  all: intros Hname Hlit; specialize (Hsel Hname Hlit); congruence.
Qed.

End Selection.

(** ** What the drawing steps keep of the plot object *)

Section Steps.
Context `{Ext : Externals}.

Lemma same_frame_refl b : same_frame b b.
Proof. unfold same_frame. auto 15. Qed.

Lemma same_frame_trans b1 b2 b3 : same_frame b1 b2 -> same_frame b2 b3 -> same_frame b1 b3.
Proof. unfold same_frame. intros. destruct_and!. repeat split; congruence. Qed.

Lemma same_frame_draw b a : same_frame b (set_ax b (draw a (ax b))).
Proof. unfold same_frame. simpl. auto 15. Qed.

Lemma same_frame_cp_draw self a : same_frame (cp_base self) (cp_base (cp_draw self a)).
Proof. apply same_frame_draw. Qed.

Ltac frame_tac :=
  inv_ok; simpl;
  try (unfold same_frame; simpl; repeat split; congruence).

Lemma plot_genes_frame self vals self' :
  _plot_genes self vals = Ok self' -> same_frame (gp_base self) (gp_base self').
Proof. unfold _plot_genes. intros H. frame_tac. Qed.

Lemma plot_contour_frame self vals self' :
  _plot_contour self vals = Ok self' -> same_frame (gp_base self) (gp_base self').
Proof. unfold _plot_contour. intros H. frame_tac. Qed.

Lemma remove_absent_ok_world fuel vi i genes w genes' w' :
  remove_absent fuel vi i genes w = (Ok genes', w') -> w_adata w' = w_adata w.
Proof.
  revert i genes w. induction fuel as [|fuel IH]; intros i genes w H; simpl in H.
  - inv_ok. reflexivity.
  - destruct (genes !! i); [|inv_ok; reflexivity].
    apply bind_ok_inv in H as (g1 & w1 & H1 & H).
    destruct (decide (length g1 = 0)); [discriminate|].
    apply IH in H. rewrite H. clear H.
    destruct (bool_decide _); [inv_ok; reflexivity|].
    apply bind_ok_inv in H1 as (u & w2 & H1 & H). inv_ok.
    unfold emit, modify_world in H1. injection H1 as H1. subst. reflexivity.
Qed.

Lemma get_gene_expression_base self w r w' :
  GenePlot_get_gene_expression self w = (Ok r, w') -> gp_base r.2 = gp_base self.
Proof.
  unfold GenePlot_get_gene_expression. intros H.
  repeat (inv_ok_step; try reflexivity).
Qed.

Lemma cci_get_gene_expression_base self w r w' :
  CciPlot_get_gene_expression self w = (Ok r, w') -> gp_base r.2 = gp_base self.
Proof.
  unfold CciPlot_get_gene_expression. intros H.
  repeat (inv_ok_step; try reflexivity).
Qed.

Lemma same_frame_title b t : same_frame b (set_title b t).
Proof. unfold same_frame. simpl. auto 15. Qed.

Lemma same_frame_set_ax_title b t : same_frame b (set_ax b (set_ax_title t (ax b))).
Proof. unfold same_frame. simpl. auto 15. Qed.

Lemma same_frame_color_bar b : same_frame b (set_ax b (_add_color_bar b)).
Proof. unfold same_frame. simpl. auto 15. Qed.

Lemma geneplot_draw_frame get sp p genes th method contour step w self w' :
  (forall self w r w', get self w = (Ok r, w') -> gp_base r.2 = gp_base self) ->
  GenePlot_draw_with get sp p genes th method contour step w = (Ok self, w') ->
  exists b, SpatialBasePlot_init sp p w = (Ok b, w) /\ same_frame b (gp_base self).
Proof.
  intros Hget. unfold GenePlot_draw_with. intros H.
  apply bind_ok_inv in H as (b & w0 & Hb & H).
  pose proof (base_init_fields _ _ _ _ _ Hb) as (-> & _).
  exists b. split; [exact Hb|].
  apply bind_ok_inv in H as (m & w1 & _ & H).
  apply bind_ok_inv in H as (r & w2 & Hr & H).
  assert (same_frame b r.1) as Hr1.
  { destruct (title b); [|destruct genes]; inv_ok; simpl;
      auto using same_frame_refl, same_frame_title. }
  clear Hr. cbv zeta in H.
  apply bind_ok_inv in H as (vs & w3 & Hvs & H).
  apply Hget in Hvs. simpl in Hvs.
  apply bind_ok_inv in H as (shown & w4 & _ & H).
  apply bind_ok_inv in H as (self1 & w5 & Hp & H).
  apply lift_inv in Hp as [Hp ->].
  assert (same_frame (gp_base vs.2) (gp_base self1)) as Hs1.
  { destruct contour; [apply plot_contour_frame in Hp | apply plot_genes_frame in Hp];
      exact Hp. }
  apply ret_inv in H as [-> _].
  eapply same_frame_trans; [exact Hr1|].
  eapply same_frame_trans; [apply same_frame_set_ax_title|].
  unfold _add_title in Hvs. rewrite Hvs in Hs1.
  eapply same_frame_trans; [exact Hs1|].
  destruct (p_show_color_bar p); simpl; auto using same_frame_refl, same_frame_color_bar.
Qed.

Lemma subset_scaled_frame b b' names :
  same_frame b b' -> subset_scaled b' names = subset_scaled b names.
Proof. unfold same_frame, subset_scaled. intros (-> & -> & _). reflexivity. Qed.

Lemma plot_clusters_loop_ok l : forall self self',
  _plot_clusters_loop l self = Ok self' ->
  same_frame (cp_base self) (cp_base self') /\
  cmap_ self' = cmap_ self /\ cmap_n self' = cmap_n self /\
  threshold_spots self' = threshold_spots self /\ reverse self' = reverse self /\
  show_node self' = show_node self /\
  exists new, ax_artists (ax (cp_base self')) = (ax_artists (ax (cp_base self)) ++ new)%list /\
              Forall2 (cluster_scatter self) l new.
Proof.
  induction l as [|[i cluster] l IH]; intros self self' H; simpl in H.
  - injection H as <-. split; [apply same_frame_refl|]. repeat split.
    exists []. rewrite app_nil_r. split; [reflexivity | constructor].
  - apply rbind_ok_inv in H as ([xs ys] & Hxy & H).
    apply rbind_ok_inv in H as (qi & Hqi & H). apply or_raise_ok_inv in Hqi.
    apply rbind_ok_inv in H as (idx & Hidx & H). apply or_raise_ok_inv in Hidx.
    apply rbind_ok_inv in H as (pos & Hpos & H).
    apply IH in H as (Hf & Hc & Hn & Ht & Hr & Hs & new & Hnew & Hall). clear IH.
    pose proof (same_frame_cp_draw self (AScatter xs ys (CFixed (cmap_ self pos))
      (Some cluster.1) (cell_alpha (cp_base self)) (size (cp_base self)))) as Hd.
    split; [eapply same_frame_trans; eauto|]. repeat split; try assumption.
    eexists (_ :: new). split.
    + rewrite Hnew. simpl. rewrite <- app_assoc. reflexivity.
    + constructor.
      * exists xs, ys, qi, idx, pos. simpl. auto.
      * eapply Forall2_impl; [exact Hall|].
        intros ic art (xs' & ys' & qi' & idx' & pos' & H1 & H2 & H3 & H4 & H5).
        exists xs', ys', qi', idx', pos'. simpl in *. auto.
Qed.

Lemma plot_clusters_frame self self' :
  _plot_clusters self = Ok self' ->
  same_frame (cp_base self) (cp_base self') /\
  cmap_ self' = cmap_ self /\ cmap_n self' = cmap_n self.
Proof.
  unfold _plot_clusters. intros H.
  apply rbind_ok_inv in H as (ul & _ & H). apply rbind_ok_inv in H as (groups & _ & H).
  apply plot_clusters_loop_ok in H. tauto.
Qed.

Lemma add_cluster_labels_frame self w self' w' :
  _add_cluster_labels self w = (Ok self', w') -> same_frame (cp_base self) (cp_base self').
Proof.
  unfold _add_cluster_labels. intros H.
  apply bind_ok_inv in H as (lc & w1 & _ & H).
  revert H. apply (for_each_inv (fun acc => same_frame (cp_base self) (cp_base acc)));
    [|apply same_frame_refl].
  intros acc il wa ra wb Hacc H. inv_ok.
  eapply same_frame_trans; [exact Hacc | apply same_frame_cp_draw].
Qed.

Lemma add_sub_clusters_frame self w self' w' :
  _add_sub_clusters self w = (Ok self', w') -> same_frame (cp_base self) (cp_base self').
Proof.
  unfold _add_sub_clusters. intros H.
  apply bind_ok_inv in H as (u & w1 & _ & H).
  apply bind_ok_inv in H as (lc & w2 & _ & H).
  apply bind_ok_inv in H as (r & w3 & H & Hr). apply ret_inv in Hr as [-> _].
  revert H. apply (for_each_inv (fun acc => same_frame (cp_base self) (cp_base acc.1)));
    [|apply same_frame_refl].
  intros acc il wa ra wb Hacc H.
  apply bind_ok_inv in H as (ul & wc & _ & H). cbv zeta in H.
  apply bind_ok_inv in H as (xy & wd & _ & H).
  apply bind_ok_inv in H as (cc & we & _ & H).
  apply bind_ok_inv in H as (classes & wf & _ & H).
  apply bind_ok_inv in H as (self1 & wg & H & Hr). apply ret_inv in Hr as [-> _]. simpl.
  revert H. apply (for_each_inv (fun a => same_frame (cp_base self) (cp_base a)));
    [|exact Hacc].
  intros acc2 jl wh rb wi Hacc2 H2.
  destruct (_ <? _)%Z; inv_ok; [|exact Hacc2].
  eapply same_frame_trans; [exact Hacc2 | apply same_frame_cp_draw].
Qed.

Lemma add_trajectories_frame self w self' w' :
  _add_trajectories self w = (Ok self', w') -> same_frame (cp_base self) (cp_base self').
Proof.
  unfold _add_trajectories. intros H. inv_ok; apply same_frame_cp_draw.
Qed.

End Steps.

(** ** View limits *)

Lemma Qltb_lt (a b : Q) : Qltb a b = true <-> (a < b)%Q.
Proof.
  unfold Qltb. rewrite negb_true_iff. split.
  - intros H. apply Qnot_le_lt. intros Hle. apply Qle_bool_iff in Hle. congruence.
  - intros H. destruct (Qle_bool b a) eqn:E; [|reflexivity].
    apply Qle_bool_iff in E. exfalso. exact (Qlt_not_le _ _ H E).
Qed.

Lemma Qltb_ge (a b : Q) : Qltb a b = false <-> (b <= a)%Q.
Proof.
  unfold Qltb. rewrite negb_false_iff. apply Qle_bool_iff.
Qed.

Lemma Qle_bool_gt (a b : Q) : Qle_bool a b = false <-> (b < a)%Q.
Proof.
  split.
  - intros H. apply Qnot_le_lt. intros Hle. apply Qle_bool_iff in Hle. congruence.
  - intros H. destruct (Qle_bool a b) eqn:E; [|reflexivity].
    apply Qle_bool_iff in E. exfalso. exact (Qlt_not_le _ _ H E).
Qed.

Lemma nonsingular_apart (v0 v1 : Q) : apart v0 v1 = true -> nonsingular v0 v1 = (v0, v1).
Proof.
  unfold apart, nonsingular. cbv zeta. intros H.
  apply andb_prop in H as [H1 H2].
  apply negb_true_iff in H1. apply negb_true_iff in H2. rewrite H1, H2.
  destruct (Qltb v1 v0); reflexivity.
Qed.

Lemma tiny_magnitude_small : (tiny_magnitude <= expander)%Q.
Proof. apply Qle_bool_iff. vm_compute. reflexivity. Qed.

Lemma tiny_magnitude_pos : (0 < tiny_magnitude)%Q.
Proof. reflexivity. Qed.

Lemma Qabs_bounds (v : Q) : (- Qabs v <= v)%Q /\ (v <= Qabs v)%Q /\ (0 <= Qabs v)%Q.
Proof.
  split; [|split; [apply Qle_Qabs | apply Qabs_nonneg]].
  pose proof (Qle_Qabs (- v)) as H. rewrite Qabs_opp in H. lra.
Qed.

(** What [nonsingular] stores for limits given in increasing order contains
    them and is not empty. *)
Lemma nonsingular_increasing (v0 v1 : Q) :
  (v0 <= v1)%Q ->
  ((nonsingular v0 v1).1 <= v0)%Q /\ (v1 <= (nonsingular v0 v1).2)%Q /\
  ((nonsingular v0 v1).1 < (nonsingular v0 v1).2)%Q.
Proof.
  intros Hle. unfold nonsingular. cbv zeta.
  assert (Qltb v1 v0 = false) as -> by (apply Qltb_ge; exact Hle).
  destruct (Qabs_bounds v0) as (Hl0 & Hu0 & Ha0). destruct (Qabs_bounds v1) as (Hl1 & Hu1 & Ha1).
  pose proof (Q.le_max_l (Qabs v0) (Qabs v1)) as Hm0.
  pose proof (Q.le_max_r (Qabs v0) (Qabs v1)) as Hm1.
  pose proof tiny_magnitude_small as Ht. pose proof tiny_magnitude_pos as Htp.
  assert (Qmax (Qabs v0) (Qabs v1) <= Qabs v0 + Qabs v1)%Q as Hsum.
  { destruct (Q.max_spec (Qabs v0) (Qabs v1)) as [[_ ->]|[_ ->]]; lra. }
  set (A0 := Qabs v0) in *. set (A1 := Qabs v1) in *. set (M := Qmax A0 A1) in *.
  clearbody M. clearbody A0 A1.
  unfold expander in *.
  destruct (Qltb M tiny_magnitude) eqn:E1; simpl.
  - apply Qltb_lt in E1. repeat split; lra.
  - apply Qltb_ge in E1.
    destruct (Qle_bool (v1 - v0) (M * tiny_interval)) eqn:E2; simpl.
    + destruct (Qeq_bool v1 0 && Qeq_bool v0 0) eqn:E3; simpl.
      * apply andb_prop in E3 as [Hz1 Hz0].
        apply Qeq_bool_iff in Hz1. apply Qeq_bool_iff in Hz0. repeat split; lra.
      * repeat split; lra.
    + apply Qle_bool_gt in E2. unfold tiny_interval in E2. repeat split; lra.
Qed.

(** Stored again in the reverse order, limits that are not empty are kept,
    upper bound first. *)
Lemma nonsingular_reversed (a b : Q) :
  (a < b)%Q ->
  ((nonsingular b a).2 <= a)%Q /\ (b <= (nonsingular b a).1)%Q.
Proof.
  intros Hlt. pose proof (nonsingular_increasing a b (Qlt_le_weak _ _ Hlt)) as (H1 & H2 & _).
  unfold nonsingular in *. cbv zeta in *.
  assert (Qltb a b = true) as Hs by (apply Qltb_lt; exact Hlt).
  assert (Qltb b a = false) as Hn by (apply Qltb_ge, Qlt_le_weak; exact Hlt).
  rewrite Hs. rewrite Hn in H1, H2. simpl. auto.
Qed.

Lemma apart_reversed (v0 v1 : Q) : apart v0 v1 = true -> apart v1 v0 = true.
Proof.
  unfold apart. cbv zeta. intros H.
  destruct (Qltb v1 v0) eqn:E1, (Qltb v0 v1) eqn:E2; try exact H.
  - apply Qltb_lt in E1. apply Qltb_lt in E2. lra.
  - exfalso. apply Qltb_ge in E1. apply Qltb_ge in E2.
    apply andb_prop in H as [_ H]. apply negb_true_iff in H. apply Qle_bool_gt in H.
    pose proof (Q.le_max_l (Qabs v0) (Qabs v1)). pose proof (Qabs_nonneg v0).
    unfold tiny_interval in H.
    set (A0 := Qabs v0) in *. set (M := Qmax A0 (Qabs v1)) in *. clearbody M. clearbody A0.
    lra.
Qed.

Section Constructors.
Context `{Ext : Externals}.

Lemma cluster_draw_frame sp p ssc scl st rv sn ts w self w' :
  ClusterPlot_draw sp p ssc scl st rv sn ts w = (Ok self, w') ->
  exists b, SpatialBasePlot_init sp (default_use_raw p) w = (Ok b, w) /\
            same_frame b (cp_base self).
Proof.
  unfold ClusterPlot_draw. intros H.
  apply bind_ok_inv in H as (b & w0 & Hb & H).
  pose proof (base_init_fields _ _ _ _ _ Hb) as (-> & _).
  exists b. split; [exact Hb|].
  apply bind_ok_inv in H as (cm & w1 & _ & H). cbv zeta in H.
  apply bind_ok_inv in H as (u & w2 & _ & H).
  apply bind_ok_inv in H as (s1 & w3 & H1 & H). apply lift_inv in H1 as [H1 ->].
  apply plot_clusters_frame in H1 as (H1 & _). simpl in H1.
  apply bind_ok_inv in H as (s2 & w4 & H2 & H).
  apply bind_ok_inv in H as (s3 & w5 & H3 & H).
  eapply same_frame_trans; [exact H1|].
  eapply same_frame_trans with (b2 := cp_base s2).
  { destruct scl; [apply add_cluster_labels_frame in H2 | apply ret_inv in H2 as [-> _]].
    - eapply same_frame_trans; [|exact H2].
      destruct (p_show_color_bar p); [apply same_frame_cp_draw | apply same_frame_refl].
    - destruct (p_show_color_bar p); [apply same_frame_cp_draw | apply same_frame_refl]. }
  eapply same_frame_trans with (b2 := cp_base s3).
  { destruct ssc; [apply add_sub_clusters_frame in H3; exact H3
                  | apply ret_inv in H3 as [-> _]; apply same_frame_refl]. }
  destruct st; [apply add_trajectories_frame in H; exact H
               | apply ret_inv in H as [-> _]; apply same_frame_refl].
Qed.

Lemma plot_subclusters_frame b c w self w' :
  _plot_subclusters b c w = (Ok self, w') -> same_frame b (sc_base self).
Proof.
  unfold _plot_subclusters. intros H. inv_ok; apply same_frame_draw.
Qed.

Lemma same_frame_sc_draw self a : same_frame (sc_base self) (sc_base (sc_draw self a)).
Proof. apply same_frame_draw. Qed.

Lemma add_subclusters_label_frame self w self' w' :
  _add_subclusters_label self w = (Ok self', w') -> same_frame (sc_base self) (sc_base self').
Proof.
  unfold _add_subclusters_label. intros H.
  apply bind_ok_inv in H as (ul & w1 & _ & H).
  apply bind_ok_inv in H as (a & w2 & _ & H).
  apply bind_ok_inv in H as (u & w3 & _ & H). cbv zeta in H.
  apply bind_ok_inv in H as (subs & w4 & _ & H).
  apply bind_ok_inv in H as (cc & w5 & _ & H).
  apply bind_ok_inv in H as (vmin & w6 & _ & H).
  apply bind_ok_inv in H as (vmax & w7 & _ & H).
  revert H. apply (for_each_inv (fun acc => same_frame (sc_base self) (sc_base acc)));
    [|apply same_frame_refl].
  intros acc il wa ra wb Hacc H. inv_ok.
  eapply same_frame_trans; [exact Hacc | apply same_frame_sc_draw].
Qed.

Lemma subcluster_draw_frame sp p c w self w' :
  SubClusterPlot_draw sp p c w = (Ok self, w') ->
  exists b, SpatialBasePlot_init sp (default_use_raw p) w = (Ok b, w) /\
            same_frame b (sc_base self).
Proof.
  unfold SubClusterPlot_draw. intros H.
  apply bind_ok_inv in H as (b & w0 & Hb & H).
  pose proof (base_init_fields _ _ _ _ _ Hb) as (-> & _).
  exists b. split; [exact Hb|].
  apply bind_ok_inv in H as (s1 & w1 & H1 & H).
  apply plot_subclusters_frame in H1. apply add_subclusters_label_frame in H.
  eapply same_frame_trans; eauto.
Qed.

(** The tail of the constructors. *)

Lemma crop_image_ok b m a :
  _crop_image b m = Ok a ->
  cropped_limits (spatial b) m (ax_xlim a) (ax_ylim a) /\
  ax_artists a = ax_artists (ax b) /\ ax_title a = ax_title (ax b) /\
  ax_axis_on a = ax_axis_on (ax b).
Proof.
  unfold _crop_image. intros H.
  apply rbind_ok_inv in H as (cmin & Hcmin & H).
  apply rbind_ok_inv in H as (cmax & Hcmax & H).
  apply rbind_ok_inv in H as (rmin & Hrmin & H).
  apply rbind_ok_inv in H as (rmax & Hrmax & H).
  simpl in H.
  destruct (nonsingular (rmin - m) (rmax + m)) as [lo hi] eqn:Ey.
  injection H as <-. simpl. split; [|auto].
  exists cmin, cmax, rmin, rmax. rewrite Ey. simpl.
  split; [exact Hcmin|]. split; [exact Hcmax|]. split; [exact Hrmin|]. split; [exact Hrmax|].
  split; [reflexivity|]. split; [reflexivity|]. split.
  - intros Hx. rewrite (nonsingular_apart _ _ Hx). reflexivity.
  - intros Hy. rewrite (nonsingular_apart _ _ Hy) in Ey. injection Ey as <- <-.
    rewrite (nonsingular_apart _ _ (apart_reversed _ _ Hy)). reflexivity.
Qed.

Lemma crop_and_save_spec crop m b w :
  let r := crop_and_save crop m (fname b) b w in
  w_adata r.2 = w_adata w /\
  match r.1 with
  | Ok b' =>
      w_log r.2 = (w_log w ++ saved (fname b) (dpi b))%list /\
      b' = set_ax b (ax b') /\
      if crop then cropped_limits (spatial b) m (ax_xlim (ax b')) (ax_ylim (ax b'))
      else b' = b
  | Raise _ => w_log r.2 = w_log w
  end.
Proof.
  unfold crop_and_save, bind. destruct crop.
  - unfold lift. destruct (_crop_image b m) as [a|e] eqn:Ha; simpl; [|auto].
    apply crop_image_ok in Ha as (Hl & Ha & _).
    unfold _save_output. simpl. destruct (fname b) as [f|]; simpl; auto.
    rewrite app_nil_r. auto.
  - unfold ret, _save_output. simpl.
    assert (b = set_ax b (ax b)) as Hb by (destruct b; reflexivity).
    destruct (fname b) as [f|]; simpl; auto.
    rewrite app_nil_r. auto.
Qed.

End Constructors.

Section Calls_facts.
Context `{Ext : Externals}.

Lemma stable_add_cluster_colors (I : World -> Prop) self :
  (forall ul v, use_label (cp_base self) = Some ul -> stable I (write_uns (colors_key ul) v)) ->
  stable I (_add_cluster_colors self).
Proof.
  intros Hw. unfold _add_cluster_colors, get_use_label.
  apply stable_bind_ok; [apply stable_lift|]. intros ul w w1 Hul.
  apply lift_inv in Hul as [Hul _]. apply or_raise_ok_inv in Hul.
  repeat (stable_step || apply stable_read_adata || apply stable_read_colors
          || apply (Hw _ _ Hul)).
Qed.

Lemma stable_cluster_draw (I : World -> Prop) sp p ssc scl st rv sn ts :
  (forall ul v, p_use_label p = Some ul -> stable I (write_uns (colors_key ul) v)) ->
  stable I (ClusterPlot_draw sp p ssc scl st rv sn ts).
Proof.
  intros Hw. unfold ClusterPlot_draw.
  apply stable_bind_ok; [apply stable_base_init|]. intros b w w1 Hb.
  apply base_init_fields in Hb as (_ & _ & Hul & _). simpl in Hul.
  apply stable_bind; [apply stable_lift|]. intros cm. cbv zeta.
  apply stable_bind.
  { apply stable_add_cluster_colors. simpl. intros ul v E. apply Hw. congruence. }
  intros _.
  repeat (stable_step || apply stable_add_cluster_labels || apply stable_add_sub_clusters
          || apply stable_add_trajectories).
Qed.

Lemma stable_draw_part (I : World -> Prop) c :
  (forall msg, stable I (emit (EvWarn msg))) ->
  (forall k v, k ∈ written_uns c -> stable I (write_uns k v)) ->
  stable I (draw_part c).
Proof.
  intros Hwarn Huns. destruct c; simpl.
  - apply stable_base_init.
  - apply stable_bind; [|intros; apply stable_ret].
    apply stable_geneplot_draw_with.
    intros self. apply stable_get_gene_expression. exact Hwarn.
  - apply stable_bind; [|intros; apply stable_ret].
    apply stable_cluster_draw. intros ul v E. apply Huns. simpl. rewrite E. left.
  - apply stable_bind; [|intros; apply stable_ret]. apply stable_subcluster_draw.
  - apply stable_bind; [|intros; apply stable_ret].
    apply stable_geneplot_draw_with.
    intros self. apply stable_cci_get_gene_expression.
Qed.

Lemma construct_split c w :
  draws c = true ->
  construct c w
  = bind (draw_part c)
      (crop_and_save (p_crop (call_params c)) (p_margin (call_params c))
         (p_fname (call_params c))) w.
Proof.
  destruct c; simpl; [discriminate| | | |]; intros _;
    unfold GenePlot_init, CciPlot_init, GenePlot_init_with, ClusterPlot_init,
      SubClusterPlot_init, bind, ret;
    repeat match goal with
           | |- context [match ?m w with _ => _ end] => destruct (m w) as [[?|?] ?]; simpl
           | |- context [match crop_and_save ?a ?b ?c ?d ?e with _ => _ end] =>
               destruct (crop_and_save a b c d e) as [[?|?] ?]; simpl
           end; reflexivity.
Qed.

Lemma draw_part_base c w b w' :
  draw_part c w = (Ok b, w') ->
  exists b0, SpatialBasePlot_init (call_spatial c) (base_params c) w = (Ok b0, w) /\
             same_frame b0 b.
Proof.
  destruct c; simpl; intros H.
  - pose proof (base_init_fields _ _ _ _ _ H) as (-> & _).
    eauto using same_frame_refl.
  - apply bind_ok_inv in H as (self & w1 & H & Hr). apply ret_inv in Hr as [-> _].
    apply geneplot_draw_frame in H; [exact H | apply get_gene_expression_base].
  - apply bind_ok_inv in H as (self & w1 & H & Hr). apply ret_inv in Hr as [-> _].
    apply cluster_draw_frame in H. exact H.
  - apply bind_ok_inv in H as (self & w1 & H & Hr). apply ret_inv in Hr as [-> _].
    apply subcluster_draw_frame in H. exact H.
  - apply bind_ok_inv in H as (self & w1 & H & Hr). apply ret_inv in Hr as [-> _].
    apply geneplot_draw_frame in H; [exact H | apply cci_get_gene_expression_base].
Qed.

Lemma base_params_same c :
  p_fname (base_params c) = p_fname (call_params c) /\
  p_dpi (base_params c) = p_dpi (call_params c) /\
  p_use_label (base_params c) = p_use_label (call_params c) /\
  p_list_clusters (base_params c) = p_list_clusters (call_params c).
Proof. destruct c; simpl; auto. Qed.

Lemma draw_part_ok c w b w' :
  draw_part c w = (Ok b, w') ->
  spatial b = call_spatial c /\ fname b = p_fname (call_params c) /\
  dpi b = p_dpi (call_params c) /\ ax_xlim (ax b) = None /\ ax_ylim (ax b) = None.
Proof.
  intros H. apply draw_part_base in H as (b0 & Hb & Hf).
  apply base_init_fields in Hb. destruct (base_params_same c) as (E1 & E2 & _).
  unfold same_frame in Hf. destruct_and!. repeat split; congruence.
Qed.


End Calls_facts.

Section Plot_claims.
Context `{Ext : Externals}.

Lemma stable_crop_and_save (I : World -> Prop) crop m fo b :
  (forall f d, stable I (emit (EvSaveFig f d))) -> stable I (crop_and_save crop m fo b).
Proof.
  intros Hs. unfold crop_and_save, _save_output.
  repeat (stable_step || apply Hs).
Qed.

Lemma stable_construct (I : World -> Prop) c :
  (forall msg, stable I (emit (EvWarn msg))) ->
  (forall f d, stable I (emit (EvSaveFig f d))) ->
  (forall k v, k ∈ written_uns c -> stable I (write_uns k v)) ->
  stable I (construct c).
Proof.
  intros He Hs Hu. destruct (draws c) eqn:Hd.
  - intros w Hw. rewrite construct_split by exact Hd. revert w Hw.
    apply stable_bind; [apply stable_draw_part; auto|].
    intros b. apply stable_crop_and_save. auto.
  - destruct c; try discriminate. simpl. apply stable_base_init.
Qed.

Lemma same_except_uns_refl keys a : same_except_uns keys a a.
Proof. unfold same_except_uns. auto 10. Qed.

(** C1 (as amended). Constructing a plot leaves the caller's AnnData object
    as it was (observations, obs columns, obsm arrays, var names, raw), except
    that a [ClusterPlot] with [use_label] writes the one entry
    [uns[use_label + "_colors"]]: every other entry of [uns] is the same after
    the constructor as before, whether it returns or raises. *)
Theorem plots_write_only_cluster_colors (c : plot_call) (w : World) :
  same_except_uns (written_uns c) (w_adata w) (w_adata (construct c w).2).
Proof.
  apply (stable_construct (fun w' => same_except_uns (written_uns c) (w_adata w) (w_adata w'))).
  - intros e w1 H. exact H.
  - intros f d w1 H. exact H.
  - intros k v Hk w1 (H1 & H2 & H3 & H4 & H5 & H6). unfold same_except_uns. simpl.
    repeat split; try assumption.
    intros k' Hk'. rewrite lookup_insert_ne by (intros ->; contradiction). auto.
  - apply same_except_uns_refl.
Qed.

Lemma log_filter_emit (f : event -> bool) (L : list event) e :
  f e = false ->
  stable (fun w => filter (fun e => f e = true) (w_log w) = L) (emit e).
Proof.
  intros Hf w Hw. simpl. rewrite filter_app, Hw. simpl.
  rewrite filter_cons_False by (rewrite Hf; discriminate).
  rewrite filter_nil. apply app_nil_r.
Qed.

Lemma log_filter_write_uns (f : event -> bool) (L : list event) k v :
  stable (fun w => filter (fun e => f e = true) (w_log w) = L) (write_uns k v).
Proof. intros w Hw. exact Hw. Qed.

Lemma draw_part_file_writes c w :
  file_writes (w_log (draw_part c w).2) = file_writes (w_log w).
Proof.
  apply (stable_draw_part (fun w' => file_writes (w_log w') = file_writes (w_log w))).
  - intros msg. apply log_filter_emit. reflexivity.
  - intros k v _. apply log_filter_write_uns.
  - reflexivity.
Qed.

Lemma file_writes_saved l fo d : file_writes (l ++ saved fo d) = (file_writes l ++ saved fo d)%list.
Proof.
  unfold file_writes. rewrite filter_app. f_equal. destruct fo; reflexivity.
Qed.

(** C9 (as amended). The constructors of [GenePlot], [ClusterPlot],
    [SubClusterPlot] and [CciPlot] write a file exactly when they return and
    [fname] is not [None]: then the one write is the [savefig] with the given
    [fname] and [dpi]. A constructor that raises has written nothing, and the
    constructor of [SpatialBasePlot] never writes, whatever [fname] is. *)
Theorem only_write_is_savefig (c : plot_call) (w : World) :
  file_writes (w_log (construct c w).2)
  = (file_writes (w_log w)
     ++ if draws c && is_ok (construct c w).1
        then saved (p_fname (call_params c)) (p_dpi (call_params c))
        else [])%list.
Proof.
  destruct (draws c) eqn:Hd; simpl.
  - rewrite construct_split by exact Hd. unfold bind.
    pose proof (draw_part_file_writes c w) as Hw.
    destruct (draw_part c w) as [[b|e] w1] eqn:Hdp; simpl in *.
    + apply draw_part_ok in Hdp as (_ & Hf & Hdpi & _). rewrite <- Hf.
      pose proof (crop_and_save_spec (p_crop (call_params c)) (p_margin (call_params c)) b w1)
        as [_ Hs]. simpl in Hs.
      destruct (crop_and_save _ _ _ b w1) as [[b'|e] w2]; simpl in *.
      * destruct Hs as [-> _]. rewrite file_writes_saved, Hw, Hdpi. reflexivity.
      * rewrite Hs, Hw, app_nil_r. reflexivity.
    + rewrite Hw, app_nil_r. reflexivity.
  - rewrite app_nil_r. destruct c; try discriminate. simpl.
    apply (stable_base_init (fun w' => file_writes (w_log w') = file_writes (w_log w))).
    reflexivity.
Qed.

(** The plot constructors perform no network operation. *)
Lemma plots_no_network (c : plot_call) (w : World) :
  network_ops (w_log (construct c w).2) = network_ops (w_log w).
Proof.
  apply (stable_construct (fun w' => network_ops (w_log w') = network_ops (w_log w))).
  - intros msg. apply log_filter_emit. reflexivity.
  - intros f d. apply log_filter_emit. reflexivity.
  - intros k v _. apply log_filter_write_uns.
  - reflexivity.
Qed.

(** C7 (as amended). After a successful constructor of [GenePlot],
    [ClusterPlot], [SubClusterPlot] or [CciPlot] with [crop=True] and margin
    [m], the limits are what matplotlib stores for
    [set_xlim(imagecol.min() - m, imagecol.max() + m)] and for
    [set_ylim(imagerow.min() - m, imagerow.max() + m)] reversed: when the two
    bounds of an axis are apart, the x-limits are exactly
    [(imagecol.min() - m, imagecol.max() + m)] and the y-limits exactly
    [(imagerow.max() + m, imagerow.min() - m)]; bounds that coincide are
    stored widened. With [crop=False] the constructor has set no limits. The
    constructor of [SpatialBasePlot] sets no limits, whatever [crop] is. *)
Theorem crop_sets_limits (c : plot_call) (w : World) (b : SpatialBasePlot) (w' : World) :
  construct c w = (Ok b, w') ->
  if draws c
  then limits_after (p_crop (call_params c)) (call_spatial c) (p_margin (call_params c)) (ax b)
  else ax_xlim (ax b) = None /\ ax_ylim (ax b) = None.
Proof.
  intros H. destruct (draws c) eqn:Hd.
  - rewrite construct_split in H by exact Hd.
    apply bind_ok_inv in H as (b1 & w1 & Hdp & H).
    apply draw_part_ok in Hdp as (Hsp & Hf & _ & Hx & Hy). rewrite <- Hf in H.
    pose proof (crop_and_save_spec (p_crop (call_params c)) (p_margin (call_params c)) b1 w1)
      as [_ Hs]. simpl in Hs. rewrite H in Hs. simpl in Hs. destruct Hs as (_ & _ & Hs).
    unfold limits_after. destruct (p_crop (call_params c)).
    + rewrite <- Hsp. exact Hs.
    + subst b. auto.
  - destruct c; try discriminate. simpl in H. apply base_init_fields in H. tauto.
Qed.

End Plot_claims.

(** ** The data loader *)

Section Datasets_facts.
Context (datasetdir : path) (remote : string -> option string)
        (h5ad_parse : string -> result AnnData).

Local Abbreviation file := (bcba_filename datasetdir).
Local Abbreviation run := (example_bcba datasetdir remote h5ad_parse).

Lemma bcba_filename_ne : file ≠ datasetdir.
Proof.
  unfold bcba_filename. intros H. apply (f_equal length) in H.
  rewrite length_app in H. simpl in H. lia.
Qed.

Lemma bcba_filename_parent : parent file = datasetdir.
Proof. unfold parent, bcba_filename. apply removelast_last. Qed.

Lemma bcba_filename_cons : exists x p, file = x :: p.
Proof. unfold bcba_filename. destruct datasetdir; simpl; eauto. Qed.

Lemma is_file_insert_dir fs : is_file (<[datasetdir := Dir]> fs) file = is_file fs file.
Proof.
  unfold is_file. rewrite lookup_insert_ne by (apply not_eq_sym, bcba_filename_ne).
  reflexivity.
Qed.

Lemma is_dir_insert_file fs content :
  is_dir (<[file := File content]> fs) datasetdir = is_dir fs datasetdir.
Proof.
  unfold is_dir. rewrite lookup_insert_ne by apply bcba_filename_ne. reflexivity.
Qed.

Lemma result_eta {A W} (r : result A) (w : W) :
  match r with Ok a => (Ok a, w) | Raise e => (Raise e, w) end = (r, w).
Proof. destruct r; reflexivity. Qed.

Lemma example_bcba_outcome w : bcba_outcome datasetdir remote h5ad_parse w (run w).
Proof.
  unfold example_bcba, bind, mkdir_exist_ok, get_world, ret.
  destruct (is_dir (d_fs w) datasetdir) eqn:Hd.
  - (* the directory is there *)
    destruct (is_file (d_fs w) file) eqn:Hf; simpl.
    + unfold read_h5ad. simpl. unfold is_file in Hf.
      destruct (d_fs w !! file) as [[|content]|] eqn:Hl; try discriminate.
      rewrite result_eta.
      destruct w as [fs lg]. simpl in *. eapply bcba_cached; simpl; eauto.
      unfold is_file. rewrite Hl. reflexivity.
    + unfold _download. simpl. destruct (remote bcba_url) as [content|] eqn:Hr.
      * destruct (is_dir (d_fs w) file) eqn:Hdf.
        { apply bcba_download_fails; auto. }
        rewrite bcba_filename_parent, Hd. unfold read_h5ad. simpl.
        rewrite lookup_insert_eq, result_eta.
        apply bcba_downloaded; [exact Hf | exact Hr | apply lookup_insert_eq |].
        rewrite is_dir_insert_file. exact Hd.
      * apply bcba_download_fails; auto.
  - destruct (is_file (d_fs w) datasetdir) eqn:Hfd; [apply bcba_mkdir_fails; exact Hd|].
    destruct (is_dir (d_fs w) (parent datasetdir)) eqn:Hp; [|apply bcba_mkdir_fails; exact Hd].
    simpl. rewrite is_file_insert_dir.
    assert (is_dir (<[datasetdir:=Dir]> (d_fs w)) datasetdir = true) as Hd'.
    { unfold is_dir. rewrite lookup_insert_eq. destruct (decide _); reflexivity. }
    destruct (is_file (d_fs w) file) eqn:Hf; simpl.
    + unfold read_h5ad. simpl. unfold is_file in Hf.
      rewrite lookup_insert_ne by (apply not_eq_sym, bcba_filename_ne).
      destruct (d_fs w !! file) as [[|content]|] eqn:Hl; try discriminate.
      rewrite result_eta.
      eapply (bcba_cached _ _ _ w); simpl; eauto.
      * unfold is_file. rewrite Hl. reflexivity.
      * rewrite lookup_insert_ne by (apply not_eq_sym, bcba_filename_ne). reflexivity.
      * rewrite lookup_insert_ne by (apply not_eq_sym, bcba_filename_ne). exact Hl.
    + unfold _download. simpl. destruct (remote bcba_url) as [content|] eqn:Hr.
      * destruct (is_dir (<[datasetdir:=Dir]> (d_fs w)) file) eqn:Hdf.
        { apply bcba_download_fails; [exact Hf | rewrite is_file_insert_dir; exact Hf]. }
        rewrite bcba_filename_parent, Hd'. unfold read_h5ad. simpl.
        rewrite lookup_insert_eq, result_eta.
        apply bcba_downloaded; [exact Hf | exact Hr | apply lookup_insert_eq |].
        rewrite is_dir_insert_file. exact Hd'.
      * apply bcba_download_fails; [exact Hf | rewrite is_file_insert_dir; exact Hf].
Qed.

End Datasets_facts.

Section Datasets_claims.
Context (datasetdir : path) (remote : string -> option string)
        (h5ad_parse : string -> result AnnData).

Local Abbreviation file := (bcba_filename datasetdir).
Local Abbreviation run := (example_bcba datasetdir remote h5ad_parse).

Lemma example_bcba_again w content :
  is_dir (d_fs w) datasetdir = true -> d_fs w !! file = Some (File content) ->
  run w = (h5ad_parse content, w).
Proof.
  intros Hd Hf. unfold example_bcba, bind, mkdir_exist_ok, get_world, ret, read_h5ad.
  rewrite Hd. simpl. unfold is_file. rewrite Hf. simpl. rewrite Hf. apply result_eta.
Qed.

Lemma example_bcba_log w :
  d_log (run w).2 = d_log w \/
  (is_file (d_fs w) file = false /\
   d_log (run w).2 = (d_log w ++ [EvDownload bcba_url file])%list).
Proof.
  destruct (example_bcba_outcome datasetdir remote h5ad_parse w); simpl; auto.
Qed.

Lemma example_bcba_cached_log w :
  is_file (d_fs w) file = true ->
  d_log (run w).2 = d_log w /\ d_fs (run w).2 !! file = d_fs w !! file.
Proof.
  intros Hf. destruct (example_bcba_outcome datasetdir remote h5ad_parse w); simpl; auto;
    congruence.
Qed.

Lemma calls_cached_log n : forall w,
  is_file (d_fs w) file = true ->
  d_log (calls datasetdir remote h5ad_parse n w) = d_log w.
Proof.
  induction n as [|n IH]; intros w Hf; simpl; [reflexivity|].
  destruct (example_bcba_cached_log w Hf) as [Hl Hfs].
  rewrite IH, Hl; [reflexivity|]. unfold is_file in *. rewrite Hfs. exact Hf.
Qed.

Lemma example_bcba_ok w a w1 :
  run w = (Ok a, w1) ->
  is_dir (d_fs w1) datasetdir = true /\
  d_log w1 = (d_log w ++ if is_file (d_fs w) file then [] else [EvDownload bcba_url file])%list /\
  exists content, d_fs w1 !! file = Some (File content) /\ h5ad_parse content = Ok a.
Proof.
  intros H. pose proof (example_bcba_outcome datasetdir remote h5ad_parse w) as Ho.
  rewrite H in Ho. inversion Ho; subst; simpl.
  - match goal with H : is_file _ _ = true |- _ => rewrite H end.
    rewrite app_nil_r. eauto.
  - match goal with H : is_file _ _ = false |- _ => rewrite H end. eauto.
Qed.

(** C3. Every call of [example_bcba] downloads only when the cache file
    [example_bcba.h5] is not there, and leaves an existing cache file as it
    is. A call that returns has made sure the dataset directory exists, has
    downloaded exactly when the cache file was missing, and returns the
    AnnData read from that file; a second call right after it returns the
    same data and downloads nothing. *)
Theorem example_bcba_downloads_once (w : DWorld) :
  (d_log (run w).2 = d_log w \/
   (is_file (d_fs w) file = false /\
    d_log (run w).2 = (d_log w ++ [EvDownload bcba_url file])%list)) /\
  (is_file (d_fs w) file = true ->
   d_log (run w).2 = d_log w /\ d_fs (run w).2 !! file = d_fs w !! file) /\
  forall a w1, run w = (Ok a, w1) ->
    is_dir (d_fs w1) datasetdir = true /\
    d_log w1
    = (d_log w ++ if is_file (d_fs w) file then [] else [EvDownload bcba_url file])%list /\
    (exists content, d_fs w1 !! file = Some (File content) /\ h5ad_parse content = Ok a) /\
    run w1 = (Ok a, w1).
Proof.
  split; [apply example_bcba_log|]. split; [apply example_bcba_cached_log|].
  intros a w1 H. apply example_bcba_ok in H as (Hd & Hl & content & Hc & Hp).
  repeat split; try assumption; [eauto|].
  rewrite (example_bcba_again w1 content Hd Hc), Hp. reflexivity.
Qed.

End Datasets_claims.

(** C10. No plot constructor performs a network operation. A call of
    [example_bcba] performs at most one, the download of the example file, and
    none when the cache file exists; once a call has returned, no later call
    downloads again. *)
Theorem network_is_one_download `{Ext : Externals} :
  (forall (c : plot_call) (w : World),
     network_ops (w_log (construct c w).2) = network_ops (w_log w)) /\
  (forall datasetdir remote h5ad_parse (w : DWorld),
     let w' := (example_bcba datasetdir remote h5ad_parse w).2 in
     d_log w' = d_log w \/
     (is_file (d_fs w) (bcba_filename datasetdir) = false /\
      d_log w' = (d_log w ++ [EvDownload bcba_url (bcba_filename datasetdir)])%list)) /\
  (forall datasetdir remote h5ad_parse (w : DWorld) a w1,
     example_bcba datasetdir remote h5ad_parse w = (Ok a, w1) ->
     forall n, d_log (calls datasetdir remote h5ad_parse n w1) = d_log w1).
Proof.
  split; [apply plots_no_network|]. split; [intros; apply example_bcba_log|].
  intros dd remote parse w a w1 H n.
  apply example_bcba_ok in H as (_ & _ & content & Hc & _).
  apply calls_cached_log. unfold is_file. rewrite Hc. reflexivity.
Qed.

(** Witnesses on the concrete setting. *)

Lemma example_bcba_downloads_once_witness :
  exists a w1,
    example_bcba demo_datasetdir demo_remote demo_parse demo_dworld = (Ok a, w1) /\
    d_log w1 = [EvDownload bcba_url (bcba_filename demo_datasetdir)] /\
    example_bcba demo_datasetdir demo_remote demo_parse w1 = (Ok a, w1).
Proof.
  destruct (example_bcba demo_datasetdir demo_remote demo_parse demo_dworld)
    as [[a|e] w1] eqn:E; [|vm_compute in E; discriminate E].
  exists a, w1. split; [reflexivity|].
  destruct (example_bcba_downloads_once demo_datasetdir demo_remote demo_parse demo_dworld)
    as (_ & _ & H).
  destruct (H a w1 E) as (_ & Hl & _ & Hagain).
  split; [rewrite Hl; reflexivity | exact Hagain].
Defined.

Lemma network_is_one_download_witness :
  exists a w1,
    example_bcba demo_datasetdir demo_remote demo_parse demo_dworld = (Ok a, w1) /\
    d_log (calls demo_datasetdir demo_remote demo_parse 3 w1) = d_log w1.
Proof.
  destruct (example_bcba demo_datasetdir demo_remote demo_parse demo_dworld)
    as [[a|e] w1] eqn:E; [|vm_compute in E; discriminate E].
  exists a, w1. split; [reflexivity|].
  exact (proj2 (proj2 (@network_is_one_download demo_externals)) _ _ _ _ _ _ E 3%nat).
Defined.

(** ** Which observations are plotted *)

Section Selection_claim.
Context `{Ext : Externals}.


(** The text written for the clusters [0] and [1] of the column [clusters]:
    the last two characters of the loop's text are cut off. *)
Lemma create_query_text :
  create_query ["0"; "1"] "clusters"
  = "clusters == " +:+ dquote +:+ "0" +:+ dquote +:+ " | clusters == "
    +:+ dquote +:+ "1" +:+ dquote +:+ " ".
Proof. reflexivity. Qed.

(** A text that is not plain is left to pandas: the model says nothing of
    the rows it selects. *)
Lemma query_left_to_pandas (a : AnnData) (lc : list string) (ul : string) :
  lc <> [] -> plain_name ul && forallb plain_literal lc = false ->
  obs_query_index a lc ul = pandas_query a (create_query lc ul).
Proof.
  intros Hne Hp. unfold obs_query_index. rewrite Hp.
  destruct lc; [contradiction | reflexivity].
Qed.


End Selection_claim.

(** ** The concrete setting: witnesses and counterexamples *)

(** C1 as stated fails: a [ClusterPlot] changes the caller's object. *)
Lemma cluster_plot_writes_uns :
  let r := @construct demo_externals
             (NewClusterPlot demo_spatial
                (demo_params "jet" (Some "clusters") ClNone true None)
                false false false false false 5%Z) demo_world in
  is_ok r.1 = true /\ w_adata r.2 <> w_adata demo_world /\
  uns (w_adata r.2) !! "clusters_colors" = Some (UColors ["c0/1"; "c1/255"]) /\
  uns (w_adata demo_world) !! "clusters_colors" = None.
Proof.
  cbv zeta. split; [vm_compute; reflexivity|].
  assert (uns (w_adata (@construct demo_externals
             (NewClusterPlot demo_spatial
                (demo_params "jet" (Some "clusters") ClNone true None)
                false false false false false 5%Z) demo_world).2) !! "clusters_colors"
          = Some (UColors ["c0/1"; "c1/255"])) as H1 by (vm_compute; reflexivity).
  assert (uns (w_adata demo_world) !! "clusters_colors" = None) as H2
    by (vm_compute; reflexivity).
  split; [|split; assumption].
  intros E. rewrite E in H1. rewrite H1 in H2. discriminate H2.
Qed.



(** C7 as stated fails: the constructor of [SpatialBasePlot] does not crop. *)
Lemma base_plot_does_not_crop :
  let r := @construct demo_externals
             (NewSpatialBasePlot demo_spatial (demo_params "jet" None ClNone true None))
             demo_world in
  match r.1 with
  | Ok b => ax_xlim (ax b) = None /\ ax_ylim (ax b) = None /\
            ~ cropped_limits demo_spatial 100 (ax_xlim (ax b)) (ax_ylim (ax b))
  | Raise _ => False
  end.
Proof.
  destruct (@construct demo_externals _ _) as [[b|e] w'] eqn:E;
    [|vm_compute in E; discriminate E].
  simpl in *. apply base_init_fields in E as (_ & _ & _ & _ & _ & _ & _ & Hx & Hy).
  split; [exact Hx|]. split; [exact Hy|].
  intros (cmin & cmax & rmin & rmax & _ & _ & _ & _ & H & _). rewrite Hx in H. discriminate H.
Qed.

(** The limits of a single spot at column 7 and row 9, cropped with margin
    0: both pairs of bounds coincide and are stored widened by 5%. *)
Lemma crop_widens_identical_limits :
  exists a x0 x1 y0 y1,
    @_crop_image demo_externals
      (mkBase demo_single_spatial None None 1 1 7 demo_adata None None 120 None None "jet"
         new_axes false) 0 = Ok a /\
    ax_xlim a = Some (x0, x1) /\ ax_ylim a = Some (y0, y1) /\
    (x0 == 665 # 100)%Q /\ (x1 == 735 # 100)%Q /\ (y0 == 945 # 100)%Q /\ (y1 == 855 # 100)%Q.
Proof.
  eexists _, _, _, _, _. split; [vm_compute; reflexivity|].
  split; [reflexivity|]. split; [reflexivity|]. repeat split; vm_compute; reflexivity.
Qed.

Lemma crop_sets_limits_witness :
  exists b w',
    @construct demo_externals
      (NewGenePlot demo_spatial (demo_params "jet" None ClNone true None)
         (GList ["GeneA"]) None "CumSum" false None) demo_world = (Ok b, w') /\
    ax_xlim (ax b) = Some (5 - 100, 35 + 100)%Q /\
    ax_ylim (ax b) = Some (40 + 100, 10 - 100)%Q.
Proof.
  destruct (@construct demo_externals _ demo_world) as [[b|e] w'] eqn:E;
    [|vm_compute in E; discriminate E].
  exists b, w'. split; [reflexivity|].
  pose proof (crop_sets_limits _ _ _ _ E) as H. simpl in H.
  destruct H as (cmin & cmax & rmin & rmax & H1 & H2 & H3 & H4 & _ & _ & Hx & Hy).
  vm_compute in H1, H2, H3, H4.
  injection H1 as <-. injection H2 as <-. injection H3 as <-. injection H4 as <-.
  split; [apply Hx | apply Hy]; vm_compute; reflexivity.
Defined.

(** C9 as stated fails: the constructor of [SpatialBasePlot] does not save,
    even with an [fname]. *)
Lemma base_plot_does_not_save :
  let r := @construct demo_externals
             (NewSpatialBasePlot demo_spatial
                (demo_params "jet" None ClNone true (Some "out.png")))
             demo_world in
  match r.1 with
  | Ok b => fname b = Some "out.png" /\ file_writes (w_log r.2) = []
  | Raise _ => False
  end.
Proof. vm_compute. split; reflexivity. Qed.

(** ** Gene symbols and gene values *)

Lemma list_remove_first_length x l :
  x ∈ l -> S (length (list_remove_first x l)) = length l.
Proof.
  induction l as [|y l IH]; intros Hin; [inversion Hin|]. simpl.
  destruct (decide (y = x)) as [->|Hne]; [reflexivity|]. simpl. f_equal. apply IH.
  apply elem_of_cons in Hin as [->|Hin]; [contradiction | exact Hin].
Qed.

Section Gene_loop.
Context (var_index : list string).

(** Enough fuel: the result of the loop does not depend on the fuel, from
    [length genes - i + 1] on. [S (length genes)] is enough for [i = 0]. *)
Lemma remove_absent_fuel fuel : forall fuel' i genes w,
  length genes - i < fuel -> length genes - i < fuel' ->
  remove_absent fuel var_index i genes w = remove_absent fuel' var_index i genes w.
Proof.
  induction fuel as [|fuel IH]; intros fuel' i genes w Hf Hf'; [lia|].
  destruct fuel' as [|fuel']; [lia|]. simpl.
  destruct (genes !! i) as [gene|] eqn:Hi; [|reflexivity].
  pose proof (lookup_lt_Some _ _ _ Hi) as Hlt.
  assert (gene ∈ genes) as Hin by (eapply list_elem_of_lookup_2; eauto).
  pose proof (list_remove_first_length _ _ Hin) as Hlen.
  unfold bind. destruct (bool_decide (gene ∈ var_index)); simpl.
  - destruct (decide (length genes = 0)); [reflexivity|]. apply IH; lia.
  - destruct (decide (length (list_remove_first gene genes) = 0)); [reflexivity|].
    apply IH; lia.
Qed.

(** After the first iteration the list cannot become empty: the
    [ValueError] of the loop is never raised for a list of two or more
    symbols. *)
Lemma remove_absent_returns fuel : forall i genes w,
  (1 <= i /\ 1 <= length genes) \/ 2 <= length genes ->
  exists genes', (remove_absent fuel var_index i genes w).1 = Ok genes' /\ genes' <> [].
Proof.
  induction fuel as [|fuel IH]; intros i genes w Hi; simpl.
  - exists genes. split; [reflexivity|]. destruct genes; [simpl in Hi; lia | discriminate].
  - destruct (genes !! i) as [gene|] eqn:Hg.
    + pose proof (lookup_lt_Some _ _ _ Hg) as Hlt.
      assert (gene ∈ genes) as Hin by (eapply list_elem_of_lookup_2; eauto).
      pose proof (list_remove_first_length _ _ Hin) as Hlen.
      unfold bind. destruct (bool_decide (gene ∈ var_index)); simpl.
      * destruct (decide (length genes = 0)); [lia|]. apply IH. lia.
      * destruct (decide (length (list_remove_first gene genes) = 0)); [lia|].
        apply IH. lia.
    + exists genes. split; [reflexivity|]. destruct genes; [simpl in Hi; lia | discriminate].
Qed.

(** When every symbol is present, the loop changes nothing and warns of
    nothing. *)
Lemma remove_absent_present genes :
  Forall (fun g => g ∈ var_index) genes ->
  forall fuel i w, remove_absent fuel var_index i genes w = (Ok genes, w).
Proof.
  intros Hall fuel. induction fuel as [|fuel IH]; intros i w; simpl; [reflexivity|].
  destruct (genes !! i) as [gene|] eqn:Hg; [|reflexivity].
  assert (gene ∈ genes) as Hin by (eapply list_elem_of_lookup_2; eauto).
  rewrite Forall_forall in Hall. unfold bind.
  rewrite bool_decide_eq_true_2 by (apply Hall, Hin). simpl.
  destruct (decide (length genes = 0)) as [E|_]; [|apply IH].
  destruct genes; [inversion Hin | discriminate E].
Qed.

End Gene_loop.

(** C4 (the code misses what the claim says). Two symbols, both absent from
    the data: the loop removes only the first, warns once and ends with
    [GeneY] still in the list; the constructor then fails on the lookup of
    [GeneY] with a [KeyError], not with the [ValueError] for a list left
    empty. *)
Theorem absent_genes_not_all_removed :
  let w := demo_world in
  (remove_absent 3 ["GeneA"; "GeneB"] 0 ["GeneX"; "GeneY"] w).1 = Ok ["GeneY"] /\
  let r := @GenePlot_init demo_externals demo_spatial (demo_params "jet" None ClNone true None)
             (GList ["GeneX"; "GeneY"]) None "CumSum" false None w in
  r.1 = Raise (KeyError "GeneY") /\
  w_log r.2 = [EvWarn "We removed GeneX because they not exist in the data"].
Proof. vm_compute. repeat split; reflexivity. Qed.

Lemma mapR_total {A B} (f : A -> result B) (P : A -> B -> Prop) l :
  Forall (fun a => exists b, f a = Ok b /\ P a b) l ->
  exists bs, mapR f l = Ok bs /\ Forall2 P l bs.
Proof.
  induction 1 as [|a l (b & Hb & HP) _ (bs & Hbs & HF)]; simpl.
  - exists []. split; [reflexivity | constructor].
  - rewrite Hb, Hbs. exists (b :: bs). split; [reflexivity | constructor; assumption].
Qed.

Lemma mapR_fmap {A B C} (f : B -> result C) (g : A -> B) l :
  mapR f (g <$> l) = mapR (fun a => f (g a)) l.
Proof. induction l as [|a l IH]; csimpl; [reflexivity | rewrite IH; reflexivity]. Qed.

Lemma positive_Qgtb v : Qgtb v 0 = true <-> positive v = true.
Proof.
  unfold Qgtb, positive. destruct (Qlt_le_dec 0 v) as [Hlt|Hle].
  - split; [reflexivity|]. intros _. apply negb_true_iff.
    destruct (Qle_bool v 0) eqn:E; [|reflexivity].
    apply Qle_bool_iff in E. exfalso. eapply Qlt_not_le; eauto.
  - split; [|discriminate]. intros H. apply negb_true_iff in H.
    apply Qle_bool_iff in Hle. congruence.
Qed.

Lemma cumsum_from_last acc row :
  (default acc (last (cumsum_from acc row)) == acc + sum_of row)%Q.
Proof.
  revert acc. induction row as [|x row IH]; intros acc; simpl.
  - unfold sum_of. simpl. ring.
  - rewrite last_cons. destruct (last (cumsum_from (acc + x) row)) as [v|] eqn:E.
    + specialize (IH (acc + x)%Q). rewrite E in IH. simpl in *. rewrite IH.
      unfold sum_of. simpl. ring.
    + simpl. specialize (IH (acc + x)%Q). rewrite E in IH. simpl in IH. rewrite IH.
      unfold sum_of. simpl. ring.
Qed.

Lemma cumsum_last row :
  row <> [] -> exists v, last (cumsum row) = Some v /\ (v == sum_of row)%Q.
Proof.
  destruct row as [|x row]; [congruence|]. intros _. simpl.
  rewrite last_cons. pose proof (cumsum_from_last x row) as H.
  destruct (last (cumsum_from x row)) as [v|]; simpl in *; eexists; (split; [reflexivity|]);
    exact H.
Qed.

Lemma zip_with_fmap_same {A B C D} (f : B -> C -> D) (g : A -> B) (h : A -> C) l :
  zip_with f (g <$> l) (h <$> l) = (fun a => f (g a) (h a)) <$> l.
Proof. induction l as [|a l IH]; csimpl; [reflexivity | rewrite IH; reflexivity]. Qed.

(** The two combinations, against the sum, the mean and the positive share. *)
Lemma combine_genes_spec m n (df : list (list Q)) :
  Forall (fun row => row <> [] /\ length row = n) df ->
  exists vals, combine_genes m n df = Ok vals /\
    Forall2 (fun row v => match m with
                           | CumSum => (v == sum_of row)%Q
                           | NaiveMean => (v == mean_of row * positive_fraction row)%Q
                           end) df vals.
Proof.
  intros Hdf. destruct m; simpl.
  - unfold last_column. rewrite mapR_fmap. apply mapR_total.
    eapply Forall_impl; [exact Hdf|]. intros row [Hne _]. simpl.
    destruct (cumsum_last row Hne) as (v & Hl & Hs). rewrite Hl. simpl. eauto.
  - eexists. split; [reflexivity|]. rewrite zip_with_fmap_same.
    apply Forall2_fmap_r, Forall_Forall2_diag.
    eapply Forall_impl; [exact Hdf|]. intros row [_ Hn]. simpl.
    unfold row_mean, mean_of, positive_fraction, count_positive, Qsum, sum_of, Qof_nat.
    rewrite Hn. rewrite (list_filter_iff _ (fun v => positive v = true))
      by (intros; apply positive_Qgtb). reflexivity.
Qed.

Lemma index_of_present (vn : list string) g :
  g ∈ vn -> exists j, index_of vn g = Ok j /\ list_find (fun n => n = g) vn = Some (j, g).
Proof.
  intros Hin. unfold index_of.
  destruct (list_find_elem_of (fun n => n = g) vn g Hin eq_refl) as [[j n] Hf].
  rewrite Hf. exists j. split; [reflexivity|].
  apply list_find_Some in Hf as (_ & -> & _). reflexivity.
Qed.

Lemma row_expressions (a : AnnData) (s : Spot) genes pos :
  Forall2 (fun g j => list_find (fun n => n = g) (var_names a) = Some (j, g)) genes pos ->
  length (spot_X s) = length (var_names a) ->
  exists row, mapR (fun j => or_raise (spot_X s !! j) IndexError) pos = Ok row /\
              expressions a genes s = Some row /\ length row = length genes.
Proof.
  intros HF Hlen.
  assert (exists row, mapR (fun j => or_raise (spot_X s !! j) IndexError) pos = Ok row /\
                      Forall2 (fun g v => expression a s g = Some v) genes row) as H.
  { induction HF as [|g j genes pos Hg _ (row & Hrow & Hex)]; simpl.
    - exists []. split; [reflexivity | constructor].
    - pose proof Hg as Hg'. apply list_find_Some in Hg' as (Hj & _ & _).
      apply lookup_lt_Some in Hj. rewrite <- Hlen in Hj.
      destruct (lookup_lt_is_Some_2 _ _ Hj) as [v Hv].
      rewrite Hv, Hrow. simpl. exists (v :: row). split; [reflexivity|].
      constructor; [|exact Hex]. unfold expression. rewrite Hg. exact Hv. }
  destruct H as (row & Hrow & Hex). exists row. split; [exact Hrow|]. split.
  - unfold expressions. apply mapM_Some_2, Hex.
  - symmetry. eapply Forall2_length, Hex.
Qed.

(** [to_df] returns on a well-shaped object, with the expression values of
    every observation over the genes asked. *)
Lemma to_df_spec (a : AnnData) genes :
  NoDup (var_names a) ->
  Forall (fun s => length (spot_X s) = length (var_names a)) (spots a) ->
  Forall (fun g => g ∈ var_names a) genes ->
  exists df, to_df a genes = Ok df /\
    Forall2 (fun s row => expressions a genes s = Some row /\ length row = length genes)
      (spots a) df.
Proof.
  intros Hnd Hshape Hpres. unfold to_df, get_indexer.
  destruct (decide (NoDup (var_names a))) as [_|]; [|contradiction].
  destruct (mapR_total (index_of (var_names a))
              (fun g j => list_find (fun n => n = g) (var_names a) = Some (j, g)) genes)
    as (pos & Hpos & HF).
  { eapply Forall_impl; [exact Hpres|]. intros g Hg. apply index_of_present, Hg. }
  rewrite Hpos. simpl. apply mapR_total.
  eapply Forall_impl; [exact Hshape|]. intros s Hs. simpl.
  destruct (row_expressions a s genes pos HF Hs) as (row & H1 & H2 & H3). eauto.
Qed.

Lemma Forall2_compose {A B C} (P : A -> B -> Prop) (Q : B -> C -> Prop) l k m :
  Forall2 P l k -> Forall2 Q k m -> Forall2 (fun a c => exists b, P a b /\ Q b c) l m.
Proof.
  intros HP. revert m. induction HP as [|a b l k Hab _ IH]; intros m HQ;
    inversion HQ; subst; constructor; eauto.
Qed.

Section Gene_values.
Context `{Ext : Externals}.

Lemma method_available_None m :
  m <> "CumSum" -> m <> "NaiveMean" -> method_available m = None.
Proof.
  intros H1 H2. unfold method_available.
  destruct (decide (m = "CumSum")); [contradiction|].
  destruct (decide (m = "NaiveMean")); [contradiction | reflexivity].
Qed.

(** C5. For a list of two or more genes, all present in the data,
    [_get_gene_expression] returns one value per observation: with method
    [CumSum] the sum of the observation's expression values over the listed
    genes, with [NaiveMean] their mean times the share of listed genes whose
    value is strictly positive; the list of genes is not changed and nothing
    is warned of. Any method name other than these two makes the constructor
    raise, by the assertion as soon as the base constructor has returned. *)
Theorem gene_values_combined :
  (forall (self : GenePlot) (w : World) (genes : list string),
     let q := query_adata (gp_base self) in
     gene_symbols self = GList genes -> 2 <= length genes ->
     Forall (fun g => g ∈ var_names q) genes ->
     NoDup (var_names q) ->
     Forall (fun s => length (spot_X s) = length (var_names q)) (spots q) ->
     exists vals,
       GenePlot_get_gene_expression self w = (Ok (vals, self), w) /\
       Forall2 (fun s v => exists row,
                  expressions q genes s = Some row /\
                  match method self with
                  | CumSum => (v == sum_of row)%Q
                  | NaiveMean => (v == mean_of row * positive_fraction row)%Q
                  end) (spots q) vals) /\
  (forall sp p genes th (m : string) contour step (w : World),
     m <> "CumSum" -> m <> "NaiveMean" ->
     exists e, (GenePlot_init sp p genes th m contour step w).1 = Raise e /\
               (is_ok (SpatialBasePlot_init sp p w).1 = true ->
                exists msg, e = AssertionError msg)).
Proof.
  split.
  - intros self w genes q Hg Hlen Hpres Hnd Hshape.
    destruct (to_df_spec q genes Hnd Hshape Hpres) as (df & Hdf & HF).
    destruct (combine_genes_spec (method self) (length genes) df) as (vals & Hc & Hv).
    { eapply Forall2_Forall_r; [exact HF|]. apply Forall_forall. intros s _ row [_ Hl].
      split; [|exact Hl]. destruct row; [simpl in Hl; lia | discriminate]. }
    exists vals. split.
    + unfold GenePlot_get_gene_expression. rewrite Hg.
      destruct genes as [|g1 [|g2 genes]]; [simpl in Hlen; lia | simpl in Hlen; lia|].
      unfold bind. rewrite remove_absent_present by exact Hpres.
      fold q. unfold lift. rewrite Hdf. simpl. simpl in Hc. rewrite Hc. unfold ret.
      destruct self; simpl in *. subst. reflexivity.
    + eapply Forall2_impl; [exact (Forall2_compose _ _ _ _ _ HF Hv)|].
      intros s v (row & [Hrow _] & Hval). eauto.
  - intros sp p genes th m contour step w H1 H2.
    unfold GenePlot_init, GenePlot_init_with, GenePlot_draw_with, bind.
    destruct (SpatialBasePlot_init sp p w) as [[b|e] w1]; simpl.
    + rewrite (method_available_None m H1 H2). simpl. eauto.
    + exists e. split; [reflexivity | discriminate].
Qed.

End Gene_values.

Lemma gene_values_combined_witness :
  (exists vals,
     GenePlot_get_gene_expression demo_gene_plot demo_world
     = (Ok (vals, demo_gene_plot), demo_world) /\
     Forall2 (fun s v => exists row,
                expressions demo_adata ["GeneA"; "GeneB"] s = Some row /\
                (v == sum_of row)%Q) demo_spots vals) /\
  exists e, (@GenePlot_init demo_externals demo_spatial
               (demo_params "jet" None ClNone true None) (GList ["GeneA"]) None "Mean"
               false None demo_world).1 = Raise e.
Proof.
  split.
  - apply (proj1 (@gene_values_combined demo_externals) demo_gene_plot demo_world
             ["GeneA"; "GeneB"]).
    + reflexivity.
    + simpl. lia.
    + apply (bool_decide_unpack _). vm_compute. exact Logic.I.
    + apply (bool_decide_unpack _). vm_compute. exact Logic.I.
    + apply (bool_decide_unpack _). vm_compute. exact Logic.I.
  - destruct (proj2 (@gene_values_combined demo_externals) demo_spatial
                (demo_params "jet" None ClNone true None) (GList ["GeneA"]) None "Mean"
                false None demo_world) as (e & He & _); [discriminate | discriminate|].
    exists e. exact He.
Defined.

(** ** Colours of the clusters *)

(** C6 (the code misses what the claim says). Clusters asked for in another
    order than the category list, here [["1"; "0"]]: the scatter of cluster
    [0] is drawn in the colour of index 1, while the colour stored for it in
    [uns] is that of its own index 0 in the full category list. *)
Theorem cluster_scatter_color_differs :
  let r := @ClusterPlot_init demo_externals demo_spatial
             (demo_params "jet" (Some "clusters") (ClList ["1"; "0"]) true None)
             false false false false false 5%Z demo_world in
  match r.1 with
  | Ok self =>
      let arts := ax_artists (ax (cp_base self)) in
      query_indexes (cp_base self) = Some [1; 0]%nat /\
      (* the stored colours: index 0 for "0", index 1 for "1" *)
      uns (w_adata r.2) !! "clusters_colors" = Some (UColors ["c0/1"; "c1/255"]) /\
      (to_hex <$> (cmap_ self <$> color_position 0 (cmap_n self))) = Ok "c0/1" /\
      (to_hex <$> (cmap_ self <$> color_position 1 (cmap_n self))) = Ok "c1/255" /\
      (* the colours drawn *)
      to_hex <$> scatter_color "0" arts = Some "c1/255" /\
      to_hex <$> scatter_color "1" arts = Some "c0/1"
  | Raise _ => False
  end.
Proof. vm_compute. repeat split; reflexivity. Qed.

(** With labels switched on and two categories left in the plotted data,
    [_add_cluster_labels] stops on the undefined name [spatial]. *)
Lemma cluster_labels_name_error :
  (@ClusterPlot_init demo_externals demo_spatial
     (demo_params "jet" (Some "clusters") ClNone true None)
     false true false false false 5%Z demo_world).1 = Raise (NameError "spatial").
Proof. vm_compute. reflexivity. Qed.

(** With one cluster asked for, scatter, stored colour and text box agree. *)
Lemma cluster_colors_agree_single :
  let r := @ClusterPlot_init demo_externals demo_spatial
             (demo_params "jet" (Some "clusters") (ClList ["1"]) true None)
             false true false false false 5%Z demo_world in
  match r.1 with
  | Ok self =>
      let arts := ax_artists (ax (cp_base self)) in
      to_hex <$> scatter_color "1" arts = Some "c1/255" /\
      text_facecolor "1" arts = Some "c1/255" /\
      uns (w_adata r.2) !! "clusters_colors" = Some (UColors ["c0/1"; "c1/255"])
  | Raise _ => False
  end.
Proof. vm_compute. repeat split; reflexivity. Qed.

(** ** Rendered positions *)

Lemma column_of_lookup j arr c i row :
  column_of j arr = Ok c -> arr !! i = Some row ->
  exists v, row !! j = Some v /\ c !! i = Some v.
Proof.
  unfold column_of. intros H Hi.
  destruct (mapR_ok_lookup _ _ _ _ _ H Hi) as (v & Hv & Hc).
  apply or_raise_ok_inv in Hv. eauto.
Qed.

Lemma scaled_coords_rendered sf arr xy :
  scaled_coords sf arr = Ok xy -> rendered_at sf arr xy.1 xy.2.
Proof.
  unfold scaled_coords. intros H.
  apply rbind_ok_inv in H as (c0 & H0 & H). apply rbind_ok_inv in H as (c1 & H1 & H).
  injection H as <-. simpl. unfold rendered_at, scaled.
  rewrite !length_fmap. unfold column_of in *.
  rewrite (mapR_ok_length _ _ _ H0), (mapR_ok_length _ _ _ H1).
  split; [reflexivity|]. split; [reflexivity|].
  intros i row Hi.
  destruct (column_of_lookup 0 arr c0 i row H0 Hi) as (v0 & Hr0 & Hc0).
  destruct (column_of_lookup 1 arr c1 i row H1 Hi) as (v1 & Hr1 & Hc1).
  exists v0, v1. rewrite !list_lookup_fmap, Hc0, Hc1. auto.
Qed.

Lemma obsm_get_spatial a arr :
  obsm_get a "spatial" = Ok arr -> arr = spatial_rows (spots a).
Proof. unfold obsm_get. destruct (decide _); [|discriminate]. intros [= <-]. reflexivity. Qed.

Section Positions.
Context `{Ext : Externals}.

Lemma scaled_spatial_rendered b a xy :
  scaled_spatial b a = Ok xy ->
  rendered_at (scale_factor (spatial b)) (spatial_rows (spots a)) xy.1 xy.2.
Proof.
  unfold scaled_spatial. intros H. apply rbind_ok_inv in H as (arr & Ha & H).
  apply obsm_get_spatial in Ha as ->. apply scaled_coords_rendered, H.
Qed.

Lemma subset_scaled_rendered b names xy :
  subset_scaled b names = Ok xy ->
  exists mask,
    rendered_at (scale_factor (spatial b))
      (mask_rows (spatial_rows (spots (query_adata b))) mask) xy.1 xy.2.
Proof.
  unfold subset_scaled. intros H. apply rbind_ok_inv in H as (arr & Ha & H).
  apply rbind_ok_inv in H as (sub & Hs & H). apply obsm_get_spatial in Ha as ->.
  unfold bool_index in Hs. destruct (decide _); [|discriminate]. injection Hs as <-.
  eexists. apply scaled_coords_rendered, H.
Qed.

(** C8. Every drawing step renders each observation it plots at its
    spatial coordinates times the scale factor: the gene scatter and the
    contour take all observations of [query_adata], each cluster scatter the
    observations that [check_sublist] picks, the sub-cluster scatter the
    observations of the cluster. *)
Theorem rendered_positions_are_scaled :
  (forall (self : GenePlot) vals self',
     _plot_genes self vals = Ok self' ->
     exists xs ys c l al sz,
       ax_artists (ax (gp_base self'))
       = (ax_artists (ax (gp_base self)) ++ [AScatter xs ys c l al sz])%list /\
       rendered_at (scale_factor (spatial (gp_base self)))
         (spatial_rows (spots (query_adata (gp_base self)))) xs ys) /\
  (forall (self : GenePlot) vals self',
     _plot_contour self vals = Ok self' ->
     exists xs ys st cm al,
       ax_artists (ax (gp_base self'))
       = (ax_artists (ax (gp_base self)) ++ [AContour xs ys vals st cm al])%list /\
       rendered_at (scale_factor (spatial (gp_base self)))
         (spatial_rows (spots (query_adata (gp_base self)))) xs ys) /\
  (forall (self : ClusterPlot) self',
     _plot_clusters self = Ok self' ->
     exists new,
       ax_artists (ax (cp_base self')) = (ax_artists (ax (cp_base self)) ++ new)%list /\
       Forall (fun art => exists xs ys c l al sz mask,
                 art = AScatter xs ys c l al sz /\
                 rendered_at (scale_factor (spatial (cp_base self)))
                   (mask_rows (spatial_rows (spots (query_adata (cp_base self)))) mask)
                   xs ys) new) /\
  (forall (b : SpatialBasePlot) cl w self w',
     _plot_subclusters b cl w = (Ok self, w') ->
     exists ul xs ys c l al sz,
       use_label b = Some ul /\
       ax_artists (ax (sc_base self)) = (ax_artists (ax b) ++ [AScatter xs ys c l al sz])%list /\
       rendered_at (scale_factor (spatial b))
         (spatial_rows (rows_of (w_adata w) ul cl)) xs ys).
Proof.
  split; [|split; [|split]].
  - intros self vals self' H. unfold _plot_genes in H.
    apply rbind_ok_inv in H as (vmin & _ & H). apply rbind_ok_inv in H as (vmax & _ & H).
    apply rbind_ok_inv in H as (xy & Hxy & H). apply rbind_ok_inv in H as (cm & _ & H).
    destruct (scatter_takes _ _); [|discriminate H].
    injection H as <-. simpl. do 6 eexists. split; [reflexivity|].
    apply scaled_spatial_rendered, Hxy.
  - intros self vals self' H. unfold _plot_contour in H.
    apply rbind_ok_inv in H as (xy & Hxy & H).
    do 4 (apply rbind_ok_inv in H as (? & _ & H)).
    apply rbind_ok_inv in H as (zi & _ & H).
    apply rbind_ok_inv in H as (st & _ & H).
    apply rbind_ok_inv in H as (top & _ & H).
    destruct (decide (st = 0%Z)); [discriminate|].
    apply rbind_ok_inv in H as (cm & _ & H).
    destruct ((0 <? st)%Z && (1 <=? top)%Z); [|discriminate H].
    injection H as <-. simpl. do 5 eexists. split; [reflexivity|].
    apply scaled_spatial_rendered, Hxy.
  - intros self self' H. unfold _plot_clusters in H.
    apply rbind_ok_inv in H as (ul & _ & H). apply rbind_ok_inv in H as (groups & _ & H).
    apply plot_clusters_loop_ok in H as (_ & _ & _ & _ & _ & _ & new & Hnew & HF).
    exists new. split; [exact Hnew|].
    eapply Forall2_Forall_r; [exact HF|]. apply Forall_forall.
    intros ic _ art (xs & ys & qi & idx & pos & Hxy & _ & _ & _ & ->).
    apply subset_scaled_rendered in Hxy as (mask & Hr).
    do 6 eexists. exists mask. split; [reflexivity | exact Hr].
  - intros b cl w self w' H. unfold _plot_subclusters in H.
    apply bind_ok_inv in H as (ul & w1 & Hul & H).
    apply lift_inv in Hul as [Hul ->]. apply or_raise_ok_inv in Hul.
    apply bind_ok_inv in H as (a & w2 & Ha & H). apply read_adata_inv in Ha as [-> ->].
    apply bind_ok_inv in H as (u & w3 & Hu & H).
    assert (w3 = w) as -> by (destruct (bool_decide _); inv_ok; reflexivity).
    cbv zeta in H.
    apply bind_ok_inv in H as (colors & w4 & Hc & H). apply lift_inv in Hc as [_ ->].
    apply bind_ok_inv in H as (sub & w5 & Hsub & H). apply lift_inv in Hsub as [Hsub ->].
    apply bind_ok_inv in H as (xy & w6 & Hxy & H). apply lift_inv in Hxy as [Hxy ->].
    apply bind_ok_inv in H as (cm & w7 & _ & H). apply ret_inv in H as [-> _].
    unfold rows_of in Hsub. apply subset_obs_filter in Hsub as (Hsp & _).
    apply scaled_spatial_rendered in Hxy. rewrite Hsp in Hxy.
    exists ul. do 6 eexists. split; [exact Hul|]. split; [reflexivity | exact Hxy].
Qed.

End Positions.

Lemma rendered_positions_are_scaled_witness :
  exists self',
    @_plot_genes demo_externals demo_gene_plot [1; 5; 0; 5]%Q = Ok self' /\
    exists xs ys c l al sz,
      ax_artists (ax (gp_base self')) = [AScatter xs ys c l al sz] /\
      rendered_at (1 # 2) [[10; 20]; [30; 40]; [50; 60]; [70; 80]]%Q xs ys.
Proof.
  destruct (@_plot_genes demo_externals demo_gene_plot [1; 5; 0; 5]%Q) as [self'|e] eqn:E;
    [|vm_compute in E; discriminate E].
  exists self'. split; [reflexivity|].
  exact (proj1 (@rendered_positions_are_scaled demo_externals) _ _ _ E).
Defined.

Lemma plots_write_only_cluster_colors_witness :
  same_except_uns ["clusters_colors"] demo_adata
    (w_adata (@construct demo_externals
                (NewClusterPlot demo_spatial
                   (demo_params "jet" (Some "clusters") ClNone true None)
                   false false false false false 5%Z) demo_world).2).
Proof.
  exact (@plots_write_only_cluster_colors demo_externals
           (NewClusterPlot demo_spatial (demo_params "jet" (Some "clusters") ClNone true None)
              false false false false false 5%Z) demo_world).
Defined.

Lemma only_write_is_savefig_witness :
  file_writes (w_log (@construct demo_externals
                        (NewGenePlot demo_spatial
                           (demo_params "jet" None ClNone true (Some "out.png"))
                           (GList ["GeneA"]) None "CumSum" false None) demo_world).2)
  = [EvSaveFig "out.png" 120].
Proof.
  rewrite (@only_write_is_savefig demo_externals). vm_compute. reflexivity.
Defined.

(** * Further properties of the code *)

(** ** Argument checks of the base constructor *)

Ltac run_base :=
  unfold SpatialBasePlot_init, plotted_source, read_adata, get_world, bind, ret, lift, assert_
    in *; simpl in *.

Section Base_checks.
Context `{Ext : Externals}.

Lemma construct_base_raise c w e w' :
  SpatialBasePlot_init (call_spatial c) (base_params c) w = (Raise e, w') ->
  construct c w = (Raise e, w').
Proof.
  destruct c; simpl; intros H; [exact H | | | |];
    unfold GenePlot_init, CciPlot_init, GenePlot_init_with, GenePlot_draw_with,
      ClusterPlot_init, ClusterPlot_draw, SubClusterPlot_init, SubClusterPlot_draw, bind;
    simpl in H; rewrite H; reflexivity.
Qed.

Lemma base_init_source_raise sp p w e :
  plotted_source (p_use_raw p) (w_adata w) = Raise e ->
  SpatialBasePlot_init sp p w = (Raise e, w).
Proof.
  intros Hq. run_base. destruct (p_use_raw p); [|discriminate Hq]. rewrite Hq. reflexivity.
Qed.

Lemma base_init_needs_use_label sp p w q0 :
  plotted_source (p_use_raw p) (w_adata w) = Ok q0 ->
  p_use_label p = None -> p_list_clusters p <> ClNone ->
  SpatialBasePlot_init sp p w
  = (Raise (AssertionError "Please specify `use_label` parameter!"), w).
Proof.
  intros Hq Hul Hlc. run_base. rewrite Hul.
  destruct (p_use_raw p); [rewrite Hq|]; destruct (p_list_clusters p); try contradiction;
    reflexivity.
Qed.

Lemma base_init_unknown_label sp p w q0 ul :
  plotted_source (p_use_raw p) (w_adata w) = Ok q0 ->
  p_use_label p = Some ul -> obs_columns (w_adata w) !! ul = None ->
  SpatialBasePlot_init sp p w
  = (Raise (AssertionError "Please choose the right label in `adata.obs.columns`!"), w).
Proof.
  intros Hq Hul Hcol. run_base. rewrite Hul, Hcol.
  destruct (p_use_raw p); [rewrite Hq|]; destruct (p_list_clusters p); reflexivity.
Qed.

(** X1. A constructor that gets [list_clusters] without [use_label] raises,
    for every plot class, and leaves the world as it was: it raises the
    assertion error of the base class, unless [use_raw] is set on data
    without [raw], where the reading of the raw data raises its
    [AttributeError] first. *)
Theorem list_clusters_needs_use_label (c : plot_call) (w : World) :
  p_use_label (call_params c) = None -> p_list_clusters (call_params c) <> ClNone ->
  construct c w
  = (Raise (after_source (plotted_source (p_use_raw (base_params c)) (w_adata w))
              (AssertionError "Please specify `use_label` parameter!")), w).
Proof.
  intros Hul Hlc. destruct (base_params_same c) as (_ & _ & E1 & E2).
  apply construct_base_raise.
  destruct (plotted_source _ _) as [q0|e] eqn:Hq; simpl.
  - eapply base_init_needs_use_label; eauto; congruence.
  - apply base_init_source_raise. exact Hq.
Qed.

(** X2. A constructor whose [use_label] is not a column of [adata.obs]
    raises, for every plot class, and leaves the world as it was: it raises
    the assertion error of the base class, unless [use_raw] is set on data
    without [raw], where the reading of the raw data raises its
    [AttributeError] first. *)
Theorem use_label_must_be_a_column (c : plot_call) (w : World) (ul : string) :
  p_use_label (call_params c) = Some ul -> obs_columns (w_adata w) !! ul = None ->
  construct c w
  = (Raise (after_source (plotted_source (p_use_raw (base_params c)) (w_adata w))
              (AssertionError "Please choose the right label in `adata.obs.columns`!")), w).
Proof.
  intros Hul Hcol. destruct (base_params_same c) as (_ & _ & E1 & E2).
  apply construct_base_raise.
  destruct (plotted_source _ _) as [q0|e] eqn:Hq; simpl.
  - eapply base_init_unknown_label; eauto; congruence.
  - apply base_init_source_raise. exact Hq.
Qed.

End Base_checks.

Lemma mapR_ok_Forall2 {A B} (f : A -> result B) l bs :
  mapR f l = Ok bs -> Forall2 (fun a b => f a = Ok b) l bs.
Proof.
  revert bs. induction l as [|a l IH]; intros bs; simpl.
  - intros [= <-]. constructor.
  - destruct (f a) as [b|] eqn:Ha; [|discriminate].
    destruct (mapR f l) as [bs'|]; [|discriminate]. intros [= <-]. constructor; auto.
Qed.

Lemma mapR_raise {A B} (f : A -> result B) e l :
  (forall a, a ∈ l -> f a = Raise e \/ exists b, f a = Ok b) ->
  Exists (fun a => f a = Raise e) l -> mapR f l = Raise e.
Proof.
  induction l as [|a l IH]; intros Hall Hex; [inversion Hex|]. simpl.
  destruct (Hall a) as [Ha|[b Ha]]; [left | rewrite Ha; reflexivity |].
  rewrite Ha. inversion Hex as [? ? Hx|? ? Hx]; subst; [congruence|].
  rewrite IH; [reflexivity | | exact Hx]. intros x Hin. apply Hall. right. exact Hin.
Qed.

Section Base_state.
Context `{Ext : Externals}.

Lemma query_index_first (cats : list string) (query : string) :
  match list_find (fun c => c = query) cats with
  | Some (i, _) => cats !! i = Some query /\ forall j, j < i -> cats !! j <> Some query
  | None => query ∉ cats
  end.
Proof.
  destruct (list_find _ cats) as [[i x]|] eqn:Hf.
  - apply list_find_Some in Hf as (Hi & -> & Hj). split; [exact Hi|].
    intros j Hlt Hjq. eapply Hj; eauto.
  - apply list_find_None in Hf. intros Hin. rewrite Forall_forall in Hf.
    exact (Hf _ Hin eq_refl).
Qed.

Lemma query_clusters_index_spec a ul lc qi cats :
  obs_columns a !! ul = Some (Categorical cats) ->
  _get_query_clusters_index a ul lc = Ok qi ->
  Forall2 (fun c idx => cats !! idx = Some c /\ forall j, j < idx -> cats !! j <> Some c) lc qi.
Proof.
  intros Hcol H. unfold _get_query_clusters_index, cat_categories in H. rewrite Hcol in H.
  simpl in H. apply mapR_ok_Forall2 in H. eapply Forall2_impl; [exact H|].
  intros c idx Hc. simpl in Hc. pose proof (query_index_first cats c) as Hq.
  destruct (list_find _ cats) as [[i x]|]; [|discriminate]. injection Hc as <-. exact Hq.
Qed.

Lemma query_clusters_index_unknown a ul lc cats :
  obs_columns a !! ul = Some (Categorical cats) ->
  Exists (fun c => c ∉ cats) lc ->
  _get_query_clusters_index a ul lc = Raise IndexError.
Proof.
  intros Hcol Hex. unfold _get_query_clusters_index, cat_categories. rewrite Hcol. simpl.
  apply mapR_raise.
  - intros c _. destruct (list_find _ cats) as [[i x]|]; eauto.
  - eapply Exists_impl; [exact Hex|]. intros c Hc. simpl.
    pose proof (query_index_first cats c) as Hq.
    destruct (list_find _ cats) as [[i x]|]; [|reflexivity].
    destruct Hq as [Hq _]. exfalso. apply Hc. eapply list_elem_of_lookup_2, Hq.
Qed.

Lemma select_clusters_shape self self' :
  _select_clusters self = Ok self' -> exists q, self' = set_query_adata self q.
Proof.
  unfold _select_clusters. intros H. destruct (list_clusters self).
  - inv_ok. eauto.
  - injection H as <-. exists (query_adata self). destruct self; reflexivity.
Qed.

(** What the base constructor leaves on the object, beyond what the
    statements above use. *)
Lemma base_init_state sp p w b w' :
  SpatialBasePlot_init sp p w = (Ok b, w') ->
  p_cmap p ∈ (plt_colormaps ++ scanpy_cmap ++ stlearn_cmap)%list /\
  ax_axis_on (ax b) = p_show_axis p /\ fig_closed b = negb (p_show_plot p) /\
  cell_alpha b = p_cell_alpha p /\ size b = p_size p /\
  match p_use_label p with
  | Some ul =>
      exists cats qi,
        obs_columns (w_adata w) !! ul = Some (Categorical cats) /\
        query_indexes b = Some qi /\
        _get_query_clusters_index (w_adata w) ul (clusters_asked (p_list_clusters p) cats)
        = Ok qi
  | None =>
      p_list_clusters p = ClNone /\ list_clusters b = None /\ query_indexes b = None /\
      plotted_source (p_use_raw p) (w_adata w) = Ok (query_adata b)
  end.
Proof.
  unfold SpatialBasePlot_init, plotted_source. intros H.
  destruct (p_show_axis p) eqn:Hax, (p_show_plot p) eqn:Hpl; inv_ok.
  all: repeat match goal with
       | H : bool_decide _ = true |- _ => apply bool_decide_eq_true_1 in H
       | H : _add_image _ = Ok _ |- _ =>
           unfold _add_image in H; inv_ok; simpl
       | H : _select_clusters _ = Ok _ |- _ =>
           apply select_clusters_shape in H as [? ->]
       end.
  all: simpl.
  all: (split; [assumption|]); (split; [reflexivity|]); (split; [reflexivity|]).
  all: (split; [reflexivity|]); (split; [reflexivity|]).
  all: try match goal with H : _get_query_clusters_index _ _ _ = Ok _ |- _ =>
         pose proof H as Hqi; unfold _get_query_clusters_index in Hqi;
         apply rbind_ok_inv in Hqi as (cats & Hcats & _);
         unfold cat_categories in Hcats;
         match type of Hcats with
         | context [obs_columns ?a !! ?k] =>
             destruct (obs_columns a !! k) as [[cats'|]|] eqn:Hcol; try discriminate
         end;
         injection Hcats as ->; exists cats; eexists; split; [reflexivity|];
         split; [reflexivity|]
       end.
  all: destruct (p_list_clusters p); simpl in *; simplify_eq.
  all: try match goal with H : cat_categories _ _ = Ok _ |- _ =>
         unfold cat_categories in H; rewrite Hcol in H; injection H as <- end.
  all: try (exfalso; match goal with H : is_Some None |- _ =>
              destruct H as [? H]; discriminate H end).
  all: try assumption.
  all: try (repeat split; reflexivity).
  all: try (repeat split; congruence).
Qed.

End Base_state.

Section Base_theorems.
Context `{Ext : Externals}.

Lemma construct_fields c w b w' :
  construct c w = (Ok b, w') ->
  exists b0, SpatialBasePlot_init (call_spatial c) (base_params c) w = (Ok b0, w) /\
    spatial b = spatial b0 /\ query_adata b = query_adata b0 /\
    list_clusters b = list_clusters b0 /\ query_indexes b = query_indexes b0 /\
    use_label b = use_label b0 /\ cmap b = cmap b0 /\ cell_alpha b = cell_alpha b0 /\
    size b = size b0.
Proof.
  intros H. destruct (draws c) eqn:Hd.
  - rewrite construct_split in H by exact Hd.
    apply bind_ok_inv in H as (b1 & w1 & Hdp & H).
    pose proof (draw_part_ok _ _ _ _ Hdp) as (_ & Hfn & _).
    apply draw_part_base in Hdp as (b0 & Hb & Hf). exists b0. split; [exact Hb|].
    rewrite <- Hfn in H.
    pose proof (crop_and_save_spec (p_crop (call_params c)) (p_margin (call_params c)) b1 w1)
      as [_ Hs]. simpl in Hs. rewrite H in Hs. simpl in Hs. destruct Hs as (_ & -> & _).
    unfold same_frame in Hf. simpl. tauto.
  - destruct c; try discriminate. simpl in *.
    pose proof (base_init_fields _ _ _ _ _ H) as (-> & _). eauto 10.
Qed.

Lemma base_init_unknown_cluster sp p w q0 ul cats :
  plotted_source (p_use_raw p) (w_adata w) = Ok q0 ->
  p_use_label p = Some ul ->
  obs_columns (w_adata w) !! ul = Some (Categorical cats) ->
  Exists (fun c => c ∉ cats) (clusters_asked (p_list_clusters p) cats) ->
  SpatialBasePlot_init sp p w = (Raise IndexError, w).
Proof.
  intros Hq Hul Hcol Hex.
  pose proof (query_clusters_index_unknown _ _ _ _ Hcol Hex) as Hqi.
  run_base. rewrite Hul, Hcol. simpl.
  destruct (p_use_raw p); [rewrite Hq|]; destruct (p_list_clusters p); simpl in *;
    try (unfold cat_categories; rewrite Hcol); rewrite Hqi; reflexivity.
Qed.

(** X3. After a successful constructor with [use_label], [query_indexes]
    has one entry for each cluster of [list_clusters], in the same order, and
    the entry is the first position of that cluster in the full category list
    of [adata.obs[use_label]]; so every cluster asked for is a category. *)
Theorem query_indexes_locate_clusters (c : plot_call) (w : World) (b : SpatialBasePlot)
    (w' : World) (ul : string) :
  construct c w = (Ok b, w') -> p_use_label (call_params c) = Some ul ->
  exists cats lc qi,
    obs_columns (w_adata w) !! ul = Some (Categorical cats) /\
    list_clusters b = Some lc /\ query_indexes b = Some qi /\
    Forall2 (fun cl idx => cats !! idx = Some cl /\ forall j, j < idx -> cats !! j <> Some cl)
      lc qi.
Proof.
  intros H Hul. apply construct_fields in H as (b0 & Hb & _ & _ & Hlc & Hqi & _).
  destruct (base_params_same c) as (_ & _ & E1 & E2). rewrite <- E1 in Hul.
  destruct (base_init_query _ _ _ _ _ _ Hb Hul) as (q0 & cats & _ & Hcol & Hl & _).
  apply base_init_state in Hb as (_ & _ & _ & _ & _ & Hst). rewrite Hul in Hst.
  destruct Hst as (cats' & qi & Hcol' & Hq & Hidx).
  assert (cats' = cats) as -> by congruence.
  exists cats, (clusters_asked (p_list_clusters (base_params c)) cats), qi.
  split; [exact Hcol|]. split; [congruence|]. split; [congruence|].
  eapply query_clusters_index_spec; eauto.
Qed.

(** X4. A cluster of [list_clusters] that is not a category of
    [adata.obs[use_label]] makes every constructor raise, with the world left
    as it was: it raises [IndexError], unless [use_raw] is set on data
    without [raw], where the reading of the raw data raises its
    [AttributeError] first. *)
Theorem unknown_cluster_raises (c : plot_call) (w : World) (ul : string)
    (cats : list string) :
  p_use_label (call_params c) = Some ul ->
  obs_columns (w_adata w) !! ul = Some (Categorical cats) ->
  Exists (fun cl => cl ∉ cats) (clusters_asked (p_list_clusters (call_params c)) cats) ->
  construct c w
  = (Raise (after_source (plotted_source (p_use_raw (base_params c)) (w_adata w))
              IndexError), w).
Proof.
  intros Hul Hcol Hex. destruct (base_params_same c) as (_ & _ & E1 & E2).
  apply construct_base_raise.
  destruct (plotted_source _ _) as [q0|e] eqn:Hq; simpl.
  - eapply base_init_unknown_cluster; eauto; congruence.
  - apply base_init_source_raise. exact Hq.
Qed.

(** X5. Without [use_label] nothing is selected: after a successful
    constructor [query_adata] is the caller's data (its raw version with
    [use_raw]) with all its observations, and [list_clusters] stays [None]. *)
Theorem without_use_label_all_plotted (c : plot_call) (w : World) (b : SpatialBasePlot)
    (w' : World) :
  construct c w = (Ok b, w') -> p_use_label (call_params c) = None ->
  plotted_source (p_use_raw (base_params c)) (w_adata w) = Ok (query_adata b) /\
  list_clusters b = None /\ p_list_clusters (call_params c) = ClNone.
Proof.
  intros H Hul. apply construct_fields in H as (b0 & Hb & _ & Hq & Hlc & _).
  destruct (base_params_same c) as (_ & _ & E1 & E2). rewrite <- E1 in Hul.
  apply base_init_state in Hb as (_ & _ & _ & _ & _ & Hst). rewrite Hul in Hst.
  destruct Hst as (Hn & Hl & _ & Hsrc). rewrite Hq, Hlc. split; [exact Hsrc|].
  split; [exact Hl | congruence].
Qed.

End Base_theorems.

(** ** Minimum, maximum and the crop *)

Lemma fold_min_spec (l : list Q) (acc : Q) :
  let r := fold_left (fun m y => if Qltb y m then y else m) l acc in
  (r <= acc)%Q /\ (forall v, v ∈ l -> (r <= v)%Q) /\ (r = acc \/ r ∈ l).
Proof.
  revert acc. induction l as [|y l IH]; intros acc; simpl.
  - split; [apply Qle_refl|]. split; [intros v Hv; inversion Hv | left; reflexivity].
  - destruct (IH (if Qltb y acc then y else acc)) as (H1 & H2 & H3).
    assert ((if Qltb y acc then y else acc) <= acc /\ (if Qltb y acc then y else acc) <= y)%Q
      as [Ha Hy].
    { unfold Qltb. destruct (Qle_bool acc y) eqn:E; simpl.
      - apply Qle_bool_iff in E. split; [apply Qle_refl | exact E].
      - split; [|apply Qle_refl]. apply Qlt_le_weak, Qnot_le_lt. intros Hle.
        apply Qle_bool_iff in Hle. congruence. }
    split; [eapply Qle_trans; eauto|]. split.
    + intros v Hv. apply elem_of_cons in Hv as [->|Hv]; [eapply Qle_trans; eauto | auto].
    + destruct H3 as [H3|H3]; [|right; right; exact H3].
      rewrite H3. destruct (Qltb y acc); [right; left | left; reflexivity].
Qed.

Lemma fold_max_spec (l : list Q) (acc : Q) :
  let r := fold_left (fun m y => if Qgtb y m then y else m) l acc in
  (acc <= r)%Q /\ (forall v, v ∈ l -> (v <= r)%Q) /\ (r = acc \/ r ∈ l).
Proof.
  revert acc. induction l as [|y l IH]; intros acc; simpl.
  - split; [apply Qle_refl|]. split; [intros v Hv; inversion Hv | left; reflexivity].
  - destruct (IH (if Qgtb y acc then y else acc)) as (H1 & H2 & H3).
    assert (acc <= (if Qgtb y acc then y else acc) /\ y <= (if Qgtb y acc then y else acc))%Q
      as [Ha Hy].
    { unfold Qgtb. destruct (Qle_bool y acc) eqn:E; simpl.
      - apply Qle_bool_iff in E. split; [apply Qle_refl | exact E].
      - split; [|apply Qle_refl]. apply Qlt_le_weak, Qnot_le_lt. intros Hle.
        apply Qle_bool_iff in Hle. congruence. }
    split; [eapply Qle_trans; eauto|]. split.
    + intros v Hv. apply elem_of_cons in Hv as [->|Hv]; [eapply Qle_trans; eauto | auto].
    + destruct H3 as [H3|H3]; [|right; right; exact H3].
      rewrite H3. destruct (Qgtb y acc); [right; left | left; reflexivity].
Qed.

Lemma list_min_spec l mn :
  list_min l = Ok mn -> mn ∈ l /\ forall v, v ∈ l -> (mn <= v)%Q.
Proof.
  destruct l as [|x l]; [discriminate|]. simpl. intros [= <-].
  destruct (fold_min_spec l x) as (H1 & H2 & H3). split.
  - destruct H3 as [->|H3]; [left | right; exact H3].
  - intros v Hv. apply elem_of_cons in Hv as [->|Hv]; auto.
Qed.

Lemma list_max_spec l mx :
  list_max l = Ok mx -> mx ∈ l /\ forall v, v ∈ l -> (v <= mx)%Q.
Proof.
  destruct l as [|x l]; [discriminate|]. simpl. intros [= <-].
  destruct (fold_max_spec l x) as (H1 & H2 & H3). split.
  - destruct H3 as [->|H3]; [left | right; exact H3].
  - intros v Hv. apply elem_of_cons in Hv as [->|Hv]; auto.
Qed.

Lemma Qle_minus_margin (a v m : Q) : (0 <= m)%Q -> (a <= v)%Q -> (a - m <= v)%Q.
Proof.
  intros Hm Ha. apply Qle_trans with (y := a); [|exact Ha].
  unfold Qminus. rewrite <- (Qplus_0_r a) at 2. apply Qplus_le_r.
  apply (Qopp_le_compat 0 m) in Hm. exact Hm.
Qed.

Lemma Qle_plus_margin (a v m : Q) : (0 <= m)%Q -> (v <= a)%Q -> (v <= a + m)%Q.
Proof.
  intros Hm Ha. apply Qle_trans with (y := a); [exact Ha|].
  rewrite <- (Qplus_0_r a) at 1. apply Qplus_le_r. exact Hm.
Qed.

Section Crop.
Context `{Ext : Externals}.

(** X6. With a margin that is not negative, the limits that [_crop_image]
    sets contain every image coordinate of the object: every entry of
    [imagecol] lies between the two x-limits, and every entry of [imagerow]
    between the two y-limits, which are set upper bound first (the row axis
    points down). *)
Theorem crop_contains_coordinates (b : SpatialBasePlot) (m : Q) (a : Axes) :
  _crop_image b m = Ok a -> (0 <= m)%Q ->
  exists x0 x1 y0 y1,
    ax_xlim a = Some (x0, x1) /\ ax_ylim a = Some (y0, y1) /\
    (forall v, v ∈ imagecol (spatial b) -> (x0 <= v)%Q /\ (v <= x1)%Q) /\
    (forall v, v ∈ imagerow (spatial b) -> (y1 <= v)%Q /\ (v <= y0)%Q).
Proof.
  intros H Hm. apply crop_image_ok in H as (Hl & _).
  destruct Hl as (cmin & cmax & rmin & rmax & H1 & H2 & H3 & H4 & Hx & Hy & _).
  apply list_min_spec in H1 as [Hc1 H1]. apply list_max_spec in H2 as [_ H2].
  apply list_min_spec in H3 as [Hr1 H3]. apply list_max_spec in H4 as [_ H4].
  pose proof (H2 _ Hc1) as Hc. pose proof (H4 _ Hr1) as Hr.
  destruct (nonsingular_increasing (cmin - m) (cmax + m)) as (Hx0 & Hx1 & _); [lra|].
  destruct (nonsingular_increasing (rmin - m) (rmax + m)) as (Hy0 & Hy1 & Hlt); [lra|].
  cbv zeta in Hy.
  destruct (nonsingular_reversed _ _ Hlt) as (Hb & Ht).
  destruct (nonsingular (cmin - m) (cmax + m)) as [x0 x1].
  destruct (nonsingular (rmin - m) (rmax + m)) as [r0 r1]. simpl in *.
  destruct (nonsingular r1 r0) as [y0 y1]. simpl in *.
  exists x0, x1, y0, y1.
  split; [exact Hx|]. split; [exact Hy|]. split; intros v Hv.
  - specialize (H1 _ Hv). specialize (H2 _ Hv). split; lra.
  - specialize (H3 _ Hv). specialize (H4 _ Hv). split; lra.
Qed.

(** X7. [_crop_image] returns exactly when the object has image
    coordinates: with an empty [imagecol] or [imagerow] it raises the
    [ValueError] of a minimum over nothing. *)
Theorem crop_needs_coordinates (b : SpatialBasePlot) (m : Q) :
  (imagecol (spatial b) <> [] -> imagerow (spatial b) <> [] ->
   is_ok (_crop_image b m) = true) /\
  (imagecol (spatial b) = [] \/ imagerow (spatial b) = [] ->
   exists msg, _crop_image b m = Raise (ValueError msg)).
Proof.
  unfold _crop_image. split.
  - intros Hc Hr. destruct (imagecol (spatial b)); [contradiction|].
    destruct (imagerow (spatial b)); [contradiction|]. simpl.
    destruct (nonsingular _ _); reflexivity.
  - intros [E|E].
    + rewrite E. simpl. eauto.
    + destruct (imagecol (spatial b)); simpl; [eauto|]. rewrite E. simpl. eauto.
Qed.

End Crop.

(** ** The gene loop *)

Section Gene_loop_more.
Context (index : list string).

Lemma filter_remove_first_absent g (l : list string) :
  g ∉ index ->
  filter (fun x => x ∈ index) (list_remove_first g l) = filter (fun x => x ∈ index) l.
Proof.
  intros Hg. induction l as [|y l IH]; [reflexivity|]. simpl.
  destruct (decide (y = g)) as [->|Hne].
  - rewrite filter_cons_False by exact Hg. reflexivity.
  - rewrite !filter_cons. destruct (decide (y ∈ index)); rewrite IH; reflexivity.
Qed.

Lemma remove_first_middle g (pre rest : list string) :
  g ∉ pre -> list_remove_first g (pre ++ g :: rest) = (pre ++ rest)%list.
Proof.
  intros Hg. induction pre as [|y pre IH]; simpl.
  - destruct (decide (g = g)); [reflexivity | contradiction].
  - destruct (decide (y = g)) as [->|Hne]; [exfalso; apply Hg; left|].
    f_equal. apply IH. intros Hin. apply Hg. right. exact Hin.
Qed.

Lemma no_adjacent_absent_tail g rest :
  no_adjacent_absent index (g :: rest) = true -> no_adjacent_absent index rest = true.
Proof.
  simpl. destruct rest as [|g2 rest]; [reflexivity|].
  intros H. apply andb_true_iff in H as [_ H]. exact H.
Qed.

(** The loop on a list whose visited part [pre] holds present symbols only
    and whose part still to visit [suf] has no two absent symbols in a row. *)
Lemma remove_absent_no_adjacent fuel : forall pre suf w,
  Forall (fun g => g ∈ index) pre ->
  no_adjacent_absent index suf = true ->
  length suf < fuel -> pre <> [] \/ 2 <= length suf ->
  remove_absent fuel index (length pre) (pre ++ suf) w
  = (Ok (pre ++ filter (fun g => g ∈ index) suf)%list,
     mkWorld (w_adata w)
       (w_log w ++ (removal_warning <$> filter (fun g => g ∉ index) suf))).
Proof.
  induction fuel as [|fuel IH]; intros pre suf w Hpre Hadj Hfuel Hne; [lia|].
  simpl. destruct suf as [|g rest].
  - rewrite app_nil_r, lookup_ge_None_2 by lia. unfold ret. simpl.
    rewrite !app_nil_r. destruct w; reflexivity.
  - rewrite lookup_app_r, Nat.sub_diag by lia. simpl. unfold bind.
    destruct (decide (g ∈ index)) as [Hg|Hg].
    + rewrite bool_decide_eq_true_2 by exact Hg. unfold ret at 1. simpl.
      destruct (decide (length (pre ++ g :: rest) = 0)) as [E|_];
        [rewrite length_app in E; simpl in E; lia|].
      replace (length pre + 1) with (length (pre ++ [g])) by (rewrite length_app; reflexivity).
      replace (pre ++ g :: rest)%list with ((pre ++ [g]) ++ rest)%list
        by (rewrite <- app_assoc; reflexivity).
      rewrite IH.
      * rewrite filter_cons_True by exact Hg.
        rewrite (filter_cons_False (fun g => g ∉ index)) by (intros Hn; contradiction).
        rewrite <- app_assoc. reflexivity.
      * apply Forall_app. split; [exact Hpre | repeat constructor; exact Hg].
      * eapply no_adjacent_absent_tail, Hadj.
      * simpl in Hfuel. lia.
      * left. destruct pre; discriminate.
    + rewrite bool_decide_eq_false_2 by exact Hg. simpl.
      rewrite remove_first_middle
        by (intros Hin; rewrite Forall_forall in Hpre; exact (Hg (Hpre _ Hin))).
      destruct (decide (length (pre ++ rest) = 0)) as [E|_].
      { rewrite length_app in E. destruct Hne as [Hne|Hne];
          [destruct pre; [contradiction | simpl in E; lia] | simpl in Hne; lia]. }
      rewrite filter_cons_False by exact Hg.
      rewrite (filter_cons_True (fun g => g ∉ index)) by exact Hg.
      destruct rest as [|r1 rest'].
      * rewrite app_nil_r. destruct fuel as [|fuel']; simpl.
        -- unfold ret. rewrite app_nil_r. reflexivity.
        -- rewrite lookup_ge_None_2 by lia. unfold ret. rewrite app_nil_r. reflexivity.
      * assert (r1 ∈ index) as Hr1.
        { simpl in Hadj. apply andb_true_iff in Hadj as [Hadj _].
          rewrite bool_decide_eq_false_2 in Hadj by exact Hg. simpl in Hadj.
          apply bool_decide_eq_true_1 in Hadj. exact Hadj. }
        replace (length pre + 1) with (length (pre ++ [r1]))
          by (rewrite length_app; reflexivity).
        replace (pre ++ r1 :: rest')%list with ((pre ++ [r1]) ++ rest')%list
          by (rewrite <- app_assoc; reflexivity).
        rewrite IH.
        -- simpl. rewrite filter_cons_True by exact Hr1.
           rewrite (filter_cons_False (fun g => g ∉ index) r1)
             by (intros Hn; contradiction).
           rewrite <- !app_assoc. reflexivity.
        -- apply Forall_app. split; [exact Hpre | repeat constructor; exact Hr1].
        -- eapply no_adjacent_absent_tail, no_adjacent_absent_tail, Hadj.
        -- simpl in Hfuel. lia.
        -- left. destruct pre; discriminate.
Qed.

End Gene_loop_more.

Section Gene_loop_general.
Context (index : list string).

Lemma remove_absent_keeps fuel : forall i genes w genes' w',
  remove_absent fuel index i genes w = (Ok genes', w') ->
  filter (fun g => g ∈ index) genes' = filter (fun g => g ∈ index) genes /\
  w_adata w' = w_adata w /\
  exists removed,
    w_log w' = (w_log w ++ (removal_warning <$> removed))%list /\
    Forall (fun g => g ∉ index) removed /\
    length removed + length genes' = length genes.
Proof.
  induction fuel as [|fuel IH]; intros i genes w genes' w' H; simpl in H.
  - apply ret_inv in H as [-> ->]. repeat split. exists []. simpl.
    rewrite app_nil_r. auto.
  - destruct (genes !! i) as [gene|] eqn:Hi.
    2:{ apply ret_inv in H as [-> ->]. repeat split. exists []. simpl.
        rewrite app_nil_r. auto. }
    assert (gene ∈ genes) as Hin by (eapply list_elem_of_lookup_2; eauto).
    apply bind_ok_inv in H as (g1 & w1 & H1 & H).
    destruct (decide (length g1 = 0)); [discriminate|].
    apply IH in H as (Hf & Ha & removed & Hl & Hr & Hlen).
    destruct (decide (gene ∈ index)) as [Hg|Hg].
    + rewrite bool_decide_eq_true_2 in H1 by exact Hg. apply ret_inv in H1 as [-> ->].
      split; [exact Hf|]. split; [exact Ha|]. exists removed. auto.
    + rewrite bool_decide_eq_false_2 in H1 by exact Hg.
      apply bind_ok_inv in H1 as (u & w2 & He & H1). apply ret_inv in H1 as [-> ->].
      unfold emit, modify_world in He. injection He as He. subst w2. simpl in *.
      split; [rewrite Hf; apply filter_remove_first_absent, Hg|]. split; [exact Ha|].
      exists (gene :: removed). split; [|split].
      * rewrite Hl. simpl. rewrite <- app_assoc. reflexivity.
      * constructor; assumption.
      * pose proof (list_remove_first_length _ _ Hin). simpl. lia.
Qed.

(** X8. The gene loop on a list of two or more symbols always ends without
    raising, with at least one symbol left. It never drops a symbol that is
    present in the data (these keep their order), it emits one warning per
    symbol it removes, every removed symbol is absent from the data, and it
    changes nothing else in the world. *)
Theorem gene_loop_keeps_present_genes (genes : list string) (w : World) :
  2 <= length genes ->
  exists genes' removed,
    remove_absent (S (length genes)) index 0 genes w
    = (Ok genes', mkWorld (w_adata w) (w_log w ++ (removal_warning <$> removed))) /\
    genes' <> [] /\
    filter (fun g => g ∈ index) genes' = filter (fun g => g ∈ index) genes /\
    Forall (fun g => g ∉ index) removed /\
    length removed + length genes' = length genes.
Proof.
  intros Hlen.
  destruct (remove_absent_returns index (S (length genes)) 0 genes w) as (genes' & Hr & Hne);
    [right; exact Hlen|].
  destruct (remove_absent (S (length genes)) index 0 genes w) as [r w'] eqn:E.
  simpl in Hr. subst r.
  destruct (remove_absent_keeps _ _ _ _ _ _ E) as (Hf & Ha & removed & Hl & Hrem & Hn).
  exists genes', removed. split; [|auto].
  f_equal. destruct w'; simpl in *. congruence.
Qed.

Lemma remove_absent_isolated (genes : list string) (w : World) :
  2 <= length genes -> no_adjacent_absent index genes = true ->
  remove_absent (S (length genes)) index 0 genes w
  = (Ok (filter (fun g => g ∈ index) genes),
     mkWorld (w_adata w)
       (w_log w ++ (removal_warning <$> filter (fun g => g ∉ index) genes))).
Proof.
  intros Hlen Hadj.
  apply (remove_absent_no_adjacent index (S (length genes)) [] genes w);
    [constructor | exact Hadj | lia | right; exact Hlen].
Qed.

(** X9. When no two absent symbols stand next to each other in the list,
    the gene loop removes every absent symbol, with one warning each in list
    order, and leaves exactly the present symbols. *)
Theorem gene_loop_removes_isolated_absent (genes : list string) (w : World) :
  2 <= length genes -> no_adjacent_absent index genes = true ->
  remove_absent (S (length genes)) index 0 genes w
  = (Ok (filter (fun g => g ∈ index) genes),
     mkWorld (w_adata w)
       (w_log w ++ (removal_warning <$> filter (fun g => g ∉ index) genes))).
Proof.
  intros Hlen Hadj.
  apply (remove_absent_no_adjacent index (S (length genes)) [] genes w);
    [constructor | exact Hadj | lia | right; exact Hlen].
Qed.

End Gene_loop_general.

Lemma gene_loop_keeps_present_genes_witness :
  exists genes' removed,
    remove_absent 4 ["GeneA"; "GeneB"] 0 ["GeneX"; "GeneY"; "GeneA"] demo_world
    = (Ok genes', mkWorld demo_adata (removal_warning <$> removed)) /\
    genes' <> [] /\
    filter (fun g => g ∈ ["GeneA"; "GeneB"]) genes' = ["GeneA"].
Proof.
  destruct (gene_loop_keeps_present_genes ["GeneA"; "GeneB"] ["GeneX"; "GeneY"; "GeneA"]
              demo_world) as (genes' & removed & H & Hne & Hf & _); [simpl; lia|].
  exists genes', removed. split; [exact H|]. split; [exact Hne|].
  rewrite Hf. vm_compute. reflexivity.
Defined.

Lemma gene_loop_removes_isolated_absent_witness :
  remove_absent 4 ["GeneA"; "GeneB"] 0 ["GeneX"; "GeneA"; "GeneY"] demo_world
  = (Ok ["GeneA"], mkWorld demo_adata [removal_warning "GeneX"; removal_warning "GeneY"]).
Proof.
  etransitivity.
  - apply (gene_loop_removes_isolated_absent ["GeneA"; "GeneB"]
             ["GeneX"; "GeneA"; "GeneY"] demo_world); [simpl; lia | vm_compute; reflexivity].
  - vm_compute. reflexivity.
Defined.

(** ** Gene values *)

Section Gene_values_more.
Context `{Ext : Externals}.

(** X10. [_get_gene_expression] on a list of two or more symbols in which
    no two absent symbols stand next to each other: the absent symbols are
    removed from the list of the object with one warning each, and the values
    returned are combined (sum for [CumSum], mean times positive share for
    [NaiveMean]) from the expression values of the present genes only. *)
Theorem gene_values_skip_isolated_absent (self : GenePlot) (w : World) (genes : list string) :
  let q := query_adata (gp_base self) in
  let present := filter (fun g => g ∈ var_names q) genes in
  gene_symbols self = GList genes -> 2 <= length genes ->
  no_adjacent_absent (var_names q) genes = true ->
  NoDup (var_names q) ->
  Forall (fun s => length (spot_X s) = length (var_names q)) (spots q) ->
  exists vals,
    GenePlot_get_gene_expression self w
    = (Ok (vals, gp_set_genes self (GList present)),
       mkWorld (w_adata w)
         (w_log w ++ (removal_warning <$> filter (fun g => g ∉ var_names q) genes))) /\
    Forall2 (fun s v => exists row,
               expressions q present s = Some row /\
               match method self with
               | CumSum => (v == sum_of row)%Q
               | NaiveMean => (v == mean_of row * positive_fraction row)%Q
               end) (spots q) vals.
Proof.
  intros q present Hg Hlen Hadj Hnd Hshape.
  pose proof (remove_absent_isolated (var_names q) genes w Hlen Hadj) as Hloop.
  destruct (remove_absent_returns (var_names q) (S (length genes)) 0 genes w)
    as (genes' & Hr & Hne); [right; exact Hlen|].
  rewrite Hloop in Hr. simpl in Hr. injection Hr as <-. fold present in Hloop, Hne.
  assert (Forall (fun g => g ∈ var_names q) present) as Hpres.
  { apply Forall_forall. intros g Hin. apply list_elem_of_filter in Hin as [Hin _]. exact Hin. }
  destruct (to_df_spec q present Hnd Hshape Hpres) as (df & Hdf & HF).
  destruct (combine_genes_spec (method self) (length present) df) as (vals & Hc & Hv).
  { eapply Forall2_Forall_r; [exact HF|]. apply Forall_forall. intros s _ row [_ Hl].
    split; [|exact Hl]. destruct row; [|discriminate].
    destruct present; [contradiction | discriminate Hl]. }
  exists vals. split.
  - unfold GenePlot_get_gene_expression. rewrite Hg.
    destruct genes as [|g1 [|g2 genes]]; [simpl in Hlen; lia | simpl in Hlen; lia|].
    unfold bind. fold q. rewrite Hloop. unfold lift. simpl.
    fold q. fold present. rewrite Hdf. simpl. rewrite Hc. reflexivity.
  - eapply Forall2_impl; [exact (Forall2_compose _ _ _ _ _ HF Hv)|].
    intros s v (row & [Hrow _] & Hval). eauto.
Qed.

(** X11. [_get_gene_expression] on a list of one symbol that is present in
    the data returns, for every observation, its expression value of that
    gene, and changes nothing. *)
Theorem single_gene_values (self : GenePlot) (w : World) (g : string) :
  let q := query_adata (gp_base self) in
  gene_symbols self = GList [g] -> g ∈ var_names q ->
  NoDup (var_names q) ->
  Forall (fun s => length (spot_X s) = length (var_names q)) (spots q) ->
  exists vals,
    GenePlot_get_gene_expression self w = (Ok (vals, self), w) /\
    Forall2 (fun s v => expression q s g = Some v) (spots q) vals.
Proof.
  intros q Hg Hin Hnd Hshape.
  destruct (to_df_spec q [g] Hnd Hshape) as (df & Hdf & HF); [repeat constructor; exact Hin|].
  destruct (mapR_total (fun row => or_raise (last row) IndexError)
              (fun (row : list Q) v => row = [v]) df) as (vals & Hv & HFv).
  { eapply Forall2_Forall_r; [exact HF|]. apply Forall_forall. intros s _ row [_ Hl].
    destruct row as [|v [|? ?]]; try discriminate Hl. exists v. split; reflexivity. }
  exists vals. split.
  - unfold GenePlot_get_gene_expression. rewrite Hg. fold q.
    rewrite bool_decide_eq_true_2 by exact Hin.
    unfold bind, lift. rewrite Hdf. unfold last_column. rewrite Hv. reflexivity.
  - eapply Forall2_impl; [exact (Forall2_compose _ _ _ _ _ HF HFv)|].
    intros s v (row & [Hrow _] & ->). unfold expressions in Hrow.
    apply mapM_Some_1 in Hrow. inversion Hrow; subst. assumption.
Qed.

(** X12. A [GenePlot] asked for no gene, or for one gene (a list of one
    symbol, or a plain string with no title given) that is absent from the
    plotted data, raises the [ValueError] of [_get_gene_expression] as soon as
    the base constructor has returned and the method name is accepted; nothing
    in the world has changed then. *)
Theorem gene_plot_rejects_missing_gene sp p th (m : string) contour step (w : World)
    (b : SpatialBasePlot) (g : string) :
  SpatialBasePlot_init sp p w = (Ok b, w) ->
  is_Some (method_available m) ->
  GenePlot_init sp p (GList []) th m contour step w
  = (Raise (ValueError "Genes should be provided, please input genes"), w) /\
  (g ∉ var_names (query_adata b) ->
   GenePlot_init sp p (GList [g]) th m contour step w
   = (Raise (ValueError (g +:+ " is not exist in the data, please try another gene")), w) /\
   (p_title p = None ->
    GenePlot_init sp p (GStr g) th m contour step w
    = (Raise (ValueError (g +:+ " is not exist in the data, please try another gene")), w))).
Proof.
  intros Hb [mt Hm].
  pose proof (base_init_fields _ _ _ _ _ Hb) as (_ & _ & _ & _ & _ & Ht & _).
  unfold GenePlot_init, GenePlot_init_with, GenePlot_draw_with, bind.
  rewrite Hb. unfold lift. rewrite Hm. simpl. split; [|intros Hg; split; [|intros Hnone]].
  - destruct (title b); reflexivity.
  - destruct (title b); simpl; unfold GenePlot_get_gene_expression; simpl;
      rewrite bool_decide_eq_false_2 by exact Hg; reflexivity.
  - rewrite Ht, Hnone. simpl. unfold GenePlot_get_gene_expression. simpl.
    rewrite bool_decide_eq_false_2 by exact Hg. reflexivity.
Qed.

End Gene_values_more.

(** ** Threshold, colour range and contour step *)

Lemma mask_rows_fmap {A} (f : A -> bool) (l : list A) :
  mask_rows l (f <$> l) = filter (fun a => f a = true) l.
Proof.
  induction l as [|a l IH]; [reflexivity|]. csimpl. rewrite IH.
  destruct (f a) eqn:E.
  - rewrite filter_cons_True by exact E. reflexivity.
  - rewrite filter_cons_False by (rewrite E; discriminate). reflexivity.
Qed.

Lemma mask_rows_all {A} (l : list A) : mask_rows l (repeat true (length l)) = l.
Proof. induction l as [|a l IH]; simpl; [reflexivity | rewrite IH; reflexivity]. Qed.

(** X13. The values a [GenePlot] passes on to its drawing step,
    [gene_values[self.available_ids]]: with no threshold all values, with a
    threshold [t] exactly the values strictly greater than [t], in their
    order. The indexing never fails. *)
Theorem threshold_keeps_greater_values (gene_values : list Q) (threshold : option Q) :
  bool_index gene_values (_add_threshold gene_values threshold)
  = Ok match threshold with
       | None => gene_values
       | Some t => filter (fun v => Qgtb v t = true) gene_values
       end.
Proof.
  unfold bool_index, _add_threshold. destruct threshold as [t|].
  - rewrite length_fmap. destruct (decide _); [|contradiction]. rewrite mask_rows_fmap.
    reflexivity.
  - rewrite repeat_length. destruct (decide _); [|contradiction]. rewrite mask_rows_all.
    reflexivity.
Qed.

Section Drawing_steps.
Context `{Ext : Externals}.

(** X14. The colour range of the gene scatter covers the values it shows:
    [vmin] and [vmax] are values of the scatter, and every value lies between
    them. With no value to show, [_plot_genes] raises a [ValueError]. *)
Theorem gene_scatter_range_covers_values (self : GenePlot) (vals : list Q) :
  (vals = [] -> exists msg, _plot_genes self vals = Raise (ValueError msg)) /\
  forall self', _plot_genes self vals = Ok self' ->
    exists xs ys cm vmin vmax al sz,
      ax_artists (ax (gp_base self'))
      = (ax_artists (ax (gp_base self))
         ++ [AScatter xs ys (CValues vals cm vmin vmax) None al sz])%list /\
      vmin ∈ vals /\ vmax ∈ vals /\
      forall v, v ∈ vals -> (vmin <= v)%Q /\ (v <= vmax)%Q.
Proof.
  split.
  - intros ->. unfold _plot_genes. simpl. eauto.
  - intros self' H. unfold _plot_genes in H.
    apply rbind_ok_inv in H as (vmin & Hmin & H). apply rbind_ok_inv in H as (vmax & Hmax & H).
    apply rbind_ok_inv in H as (xy & _ & H). apply rbind_ok_inv in H as (cm & _ & H).
    destruct (scatter_takes _ _); [|discriminate H].
    injection H as <-. simpl. do 7 eexists. split; [reflexivity|].
    apply list_min_spec in Hmin as [Hmin1 Hmin2]. apply list_max_spec in Hmax as [Hmax1 Hmax2].
    split; [exact Hmin1|]. split; [exact Hmax1|]. intros v Hv. split; auto.
Qed.

(** X15. The step between contour levels is never zero after
    [_plot_contour]: a step given by the caller is kept (and a given step of
    0 makes [_plot_contour] raise), and a step left open is set to
    [int(max(z) / 50)], or to 1 when that is smaller than 1. *)
Theorem contour_step_is_positive (self : GenePlot) (vals : list Q) (self' : GenePlot) :
  _plot_contour self vals = Ok self' ->
  exists st, step_size self' = Some st /\ st <> 0%Z /\
    match step_size self with
    | Some s0 => st = s0
    | None => (1 <= st)%Z /\
              exists zmax, list_max vals = Ok zmax /\ st = Z.max 1 (Qtrunc (zmax / 50))
    end.
Proof.
  unfold _plot_contour. intros H.
  apply rbind_ok_inv in H as (xy & _ & H).
  do 4 (apply rbind_ok_inv in H as (? & _ & H)).
  apply rbind_ok_inv in H as (zi & _ & H).
  apply rbind_ok_inv in H as (st & Hst & H).
  apply rbind_ok_inv in H as (top & _ & H).
  destruct (decide (st = 0%Z)) as [|Hne]; [discriminate|].
  apply rbind_ok_inv in H as (cm & _ & H).
  destruct ((0 <? st)%Z && (1 <=? top)%Z); [|discriminate H]. injection H as <-. simpl.
  exists st. split; [reflexivity|]. split; [exact Hne|].
  destruct (step_size self) as [s0|].
  - injection Hst as <-. reflexivity.
  - apply rbind_ok_inv in Hst as (zmax & Hz & Hst). injection Hst as <-.
    destruct (Z.ltb_spec (Qtrunc (zmax / 50)) 1).
    + split; [lia|]. exists zmax. split; [exact Hz | lia].
    + split; [lia|]. exists zmax. split; [exact Hz | lia].
Qed.

End Drawing_steps.

(** ** Cluster colours *)

Lemma enumerate_lookup {A} (l : list A) i j x :
  enumerate l !! i = Some (j, x) -> j = i /\ l !! i = Some x.
Proof.
  unfold enumerate. intros H. apply lookup_zip_with_Some in H as (a & b & E & Ha & Hb).
  injection E as -> ->. apply lookup_seq in Ha as [-> _]. auto.
Qed.

Lemma enumerate_length {A} (l : list A) : length (enumerate l) = length l.
Proof. unfold enumerate. rewrite length_zip_with, length_seq. lia. Qed.

Section Cluster_colors.
Context `{Ext : Externals}.

Lemma color_position_ok i n :
  (n - 1)%Z <> 0%Z -> color_position i n = Ok (inject_Z (Z.of_nat i) / inject_Z (n - 1))%Q.
Proof. intros H. unfold color_position. destruct (decide _); [contradiction | reflexivity]. Qed.

Lemma add_colors_loop (self : ClusterPlot) (key : string) {A} (l : list A) :
  (cmap_n self - 1)%Z <> 0%Z ->
  forall start w cs,
    uns (w_adata w) !! key = Some (UColors cs) ->
    for_each (zip (seq start (length l)) l)
      (fun (_ : unit) (ic : nat * A) =>
         pos <- lift (color_position ic.1 (cmap_n self)) ;;
         l <- read_colors key ;;
         write_uns key (UColors (l ++ [to_hex (cmap_ self pos)])))
      tt w
    = (Ok tt,
       mkWorld (set_uns (w_adata w)
                  (<[key := UColors (cs ++ (stored_color self <$> seq start (length l)))]>
                     (uns (w_adata w))))
         (w_log w)).
Proof.
  intros Hn. induction l as [|a l IH]; intros start w cs Hcs; simpl.
  - unfold ret. f_equal. rewrite app_nil_r, insert_id by exact Hcs.
    destruct w as [[] ?]; reflexivity.
  - unfold bind at 1. unfold bind at 1, lift. rewrite color_position_ok by exact Hn.
    unfold bind at 1, read_colors, bind at 1, read_adata, bind at 1, get_world, ret.
    simpl. rewrite Hcs. unfold write_uns, modify_world. simpl.
    rewrite (IH (S start) _ (cs ++ [stored_color self start])%list)
      by (simpl; apply lookup_insert_eq).
    simpl. rewrite insert_insert_eq, <- app_assoc. reflexivity.
Qed.

(** X16. [_add_cluster_colors] on data whose [use_label] column is
    categorical: with a colormap of more or less than one colour it returns,
    and then [adata.uns[use_label + "_colors"]] holds one colour per category
    of the full data, the colour at position [i] being
    [to_hex(cmap_(i / (cmap_n - 1)))], whatever the entry held before; nothing
    else changes. With a colormap of exactly one colour and at least one
    category it raises [ZeroDivisionError] and leaves an empty list in the
    entry. *)
Theorem cluster_colors_stored (self : ClusterPlot) (w : World) (ul : string)
    (cats : list string) :
  use_label (cp_base self) = Some ul ->
  obs_columns (w_adata w) !! ul = Some (Categorical cats) ->
  let stored cs := mkWorld (set_uns (w_adata w)
                              (<[colors_key ul := UColors cs]> (uns (w_adata w))))
                     (w_log w) in
  ((cmap_n self - 1)%Z <> 0%Z ->
   _add_cluster_colors self w
   = (Ok tt, stored (stored_color self <$> seq 0 (length cats)))) /\
  ((cmap_n self - 1)%Z = 0%Z -> cats <> [] ->
   _add_cluster_colors self w = (Raise ZeroDivisionError, stored [])).
Proof.
  intros Hul Hcol stored.
  assert (forall w1 : World, obs_columns (w_adata w1) = obs_columns (w_adata w) ->
            spots (w_adata w1) = spots (w_adata w) ->
            groupby (w_adata w1) ul
            = Ok ((fun c => (c, filter (fun s => label ul s = Some c) (spots (w_adata w))))
                    <$> cats)) as Hgroups.
  { intros w1 H1 H2. unfold groupby. rewrite H1, Hcol, H2. reflexivity. }
  set (w1 := mkWorld (set_uns (w_adata w)
                        (<[colors_key ul := UColors []]> (uns (w_adata w)))) (w_log w)).
  assert (_add_cluster_colors self w
          = match groupby (w_adata w1) ul with
            | Ok groups =>
                for_each (enumerate groups)
                  (fun (_ : unit) (ic : nat * (string * list Spot)) =>
                     pos <- lift (color_position ic.1 (cmap_n self)) ;;
                     l <- read_colors (colors_key ul) ;;
                     write_uns (colors_key ul) (UColors (l ++ [to_hex (cmap_ self pos)])))
                  tt w1
            | Raise e => (Raise e, w1)
            end) as ->.
  { unfold _add_cluster_colors, get_use_label. rewrite Hul. reflexivity. }
  rewrite Hgroups by reflexivity.
  unfold enumerate. rewrite length_fmap. split.
  - intros Hn.
    pose proof (add_colors_loop self (colors_key ul)
                  ((fun c => (c, filter (fun s => label ul s = Some c) (spots (w_adata w))))
                     <$> cats) Hn 0 w1 []) as Hloop.
    rewrite length_fmap in Hloop. rewrite Hloop by (simpl; apply lookup_insert_eq).
    unfold stored. simpl. rewrite insert_insert_eq. reflexivity.
  - intros Hn Hne. destruct cats as [|c cats]; [contradiction|]. simpl.
    unfold bind at 1. unfold bind at 1, lift. unfold color_position.
    destruct (decide _); [reflexivity | contradiction].
Qed.

(** X17. The scatters of [_plot_clusters] have the colours of the clusters
    they show whenever the categories of the plotted data, in their order, are
    the clusters of [list_clusters]: if [query_indexes] holds for every
    cluster its position in a category list [cats], then the scatter labelled
    with a cluster is drawn with the colormap at that cluster's position
    divided by [cmap_n - 1]. *)
Theorem cluster_scatters_follow_list_order (self self' : ClusterPlot) (ul : string)
    (groups : list (string * list Spot)) (lc cats : list string) (qi : list nat) :
  _plot_clusters self = Ok self' ->
  use_label (cp_base self) = Some ul ->
  groupby (query_adata (cp_base self)) ul = Ok groups ->
  query_indexes (cp_base self) = Some qi ->
  Forall2 (fun cl idx => cats !! idx = Some cl) lc qi ->
  groups.*1 = lc ->
  exists new,
    ax_artists (ax (cp_base self')) = (ax_artists (ax (cp_base self)) ++ new)%list /\
    Forall2 (fun cl art => exists xs ys idx pos al sz,
               art = AScatter xs ys (CFixed (cmap_ self pos)) (Some cl) al sz /\
               cats !! idx = Some cl /\ color_position idx (cmap_n self) = Ok pos) lc new.
Proof.
  intros H Hul Hg Hqi Hidx Hlc. unfold _plot_clusters in H. cbv zeta in H.
  rewrite Hul in H. simpl in H. rewrite Hg in H. simpl in H.
  apply plot_clusters_loop_ok in H as (_ & _ & _ & _ & _ & _ & new & Hnew & HF).
  exists new. split; [exact Hnew|].
  pose proof (Forall2_length _ _ _ HF) as Hlen. rewrite enumerate_length in Hlen.
  apply Forall2_same_length_lookup. split.
  { rewrite <- Hlc, length_fmap. exact Hlen. }
  intros i cl art Hcl Hart.
  assert (exists g, groups !! i = Some g /\ g.1 = cl) as (g & Hgi & Hg1).
  { rewrite <- Hlc, list_lookup_fmap in Hcl. destruct (groups !! i) as [g|]; [|discriminate].
    injection Hcl as <-. eauto. }
  assert (enumerate groups !! i = Some (i, g)) as Hen.
  { unfold enumerate. apply lookup_zip_with_Some. exists i, g. split; [reflexivity|].
    split; [|exact Hgi]. apply lookup_seq. split; [reflexivity|].
    apply lookup_lt_Some in Hgi. exact Hgi. }
  destruct (Forall2_lookup_lr _ _ _ _ _ _ HF Hen Hart)
    as (xs & ys & qi' & idx & pos & _ & Hq & Hi & Hp & ->).
  simpl in *. rewrite Hqi in Hq. injection Hq as <-.
  pose proof (Forall2_lookup_lr _ _ _ _ _ _ Hidx Hcl Hi) as Hcat.
  rewrite Hg1. do 6 eexists. split; [reflexivity|]. split; [exact Hcat | exact Hp].
Qed.

End Cluster_colors.

(** ** Cluster labels, trajectories and what a [ClusterPlot] needs *)

Lemma bind_raise {W A B} (m : M W A) (f : A -> M W B) w e w1 :
  m w = (Raise e, w1) -> bind m f w = (Raise e, w1).
Proof. unfold bind. intros ->. reflexivity. Qed.

Lemma bind_ok {W A B} (m : M W A) (f : A -> M W B) w a w1 :
  m w = (Ok a, w1) -> bind m f w = f a w1.
Proof. unfold bind. intros ->. reflexivity. Qed.


Lemma filter_edges_not_removed (P : Z * Z -> Prop) `{!forall e, Decision (P e)}
    (edges : list (Z * Z)) :
  filter (fun e => e ∉ filter P edges) edges = filter (fun e => ¬ P e) edges.
Proof.
  assert (forall l, Forall (fun e => e ∈ edges) l ->
            filter (fun e => e ∉ filter P edges) l = filter (fun e => ¬ P e) l) as Hfil.
  { induction l as [|e l IH]; intros Hl; [reflexivity|].
    apply Forall_cons in Hl as [He Hl]. rewrite !filter_cons, IH by exact Hl.
    destruct (decide (e ∉ filter P edges)) as [Hn|Hn], (decide (¬ P e)) as [Hm|Hm];
      try reflexivity; exfalso.
    - apply Hn. apply list_elem_of_filter. split; [|exact He].
      destruct (decide (P e)); [assumption | contradiction].
    - apply Hn. rewrite list_elem_of_filter. tauto. }
  apply Hfil. apply Forall_forall. auto.
Qed.

Section Cluster_steps.
Context `{Ext : Externals}.

(** X18. [_add_cluster_labels] cannot label a cluster of a column with two
    categories or more: with at least one cluster in [list_clusters], once the
    coordinates of the first cluster are found, it raises
    [NameError] for the name [spatial], and nothing is drawn or written. *)
Theorem cluster_labels_need_single_category (self : ClusterPlot) (w : World)
    (cl ul : string) (rest cats : list string) (xy : list Q * list Q) :
  list_clusters (cp_base self) = Some (cl :: rest) ->
  use_label (cp_base self) = Some ul ->
  subset_scaled (cp_base self)
    (spot_name <$> rows_of (query_adata (cp_base self)) ul cl) = Ok xy ->
  cat_categories (query_adata (cp_base self)) ul = Ok cats ->
  2 <= length cats ->
  _add_cluster_labels self w = (Raise (NameError "spatial"), w).
Proof.
  intros Hlc Hul Hxy Hcats Hlen. unfold _add_cluster_labels. cbv zeta.
  rewrite Hlc. simpl or_raise. erewrite bind_ok by reflexivity.
  unfold enumerate. simpl. apply bind_raise.
  unfold get_use_label. rewrite Hul. simpl or_raise.
  erewrite bind_ok by reflexivity. simpl. rewrite Hxy.
  erewrite bind_ok by reflexivity. rewrite Hcats.
  erewrite bind_ok by reflexivity.
  apply bind_raise.
  destruct (Nat.ltb_spec (length cats) 2) as [Hlt|_]; [lia | reflexivity].
Qed.

Lemma add_cluster_labels_ok (self self' : ClusterPlot) (w w' : World) :
  _add_cluster_labels self w = (Ok self', w') ->
  list_clusters (cp_base self) = Some [] \/
  exists ul cats, use_label (cp_base self) = Some ul /\
    cat_categories (query_adata (cp_base self)) ul = Ok cats /\ length cats < 2.
Proof.
  unfold _add_cluster_labels. cbv zeta. intros H.
  apply bind_ok_inv in H as (lc & w1 & Hlc & H). apply lift_inv in Hlc as [Hlc ->].
  apply or_raise_ok_inv in Hlc. destruct lc as [|cl rest]; [left; exact Hlc | right].
  unfold enumerate in H. simpl in H.
  apply bind_ok_inv in H as (self1 & w1 & H & _).
  apply bind_ok_inv in H as (ul & w2 & Hul & H). unfold get_use_label in Hul.
  apply lift_inv in Hul as [Hul ->]. apply or_raise_ok_inv in Hul.
  apply bind_ok_inv in H as (xy & w3 & _ & H).
  apply bind_ok_inv in H as (cats & w4 & Hcats & H). apply lift_inv in Hcats as [Hcats ->].
  apply bind_ok_inv in H as (c & w5 & Hc & _).
  exists ul, cats. split; [exact Hul|]. split; [exact Hcats|].
  destruct (Nat.ltb_spec (length cats) 2) as [Hlt|_]; [exact Hlt | discriminate Hc].
Qed.

Lemma add_trajectories_ok (self self' : ClusterPlot) (w w' : World) :
  _add_trajectories self w = (Ok self', w') ->
  w' = w /\
  exists g cd G,
    uns (w_adata w) !! "PTS_graph" = Some (UGraph g) /\
    uns (w_adata w) !! "centroid_dict" = Some (UCentroids cd) /\
    (9999%Z ∈ g_nodes g) /\
    self' = cp_draw self (AEdges G cd (if reverse self then "<|-" else "-|>")) /\
    g_nodes G = filter (fun n => n ≠ 9999%Z) (g_nodes g) /\
    g_edges G = filter (fun e => ¬ (e.1 = 9999%Z ∨ e.2 = 9999%Z)) (g_edges g) /\
    (show_node self = true -> cd = []).
Proof.
  unfold _add_trajectories, get_use_label. cbv zeta. intros H.
  apply bind_ok_inv in H as (ul & w1 & Hul & H). apply lift_inv in Hul as [_ ->].
  apply bind_ok_inv in H as (used & w1 & Hc & H).
  assert (w1 = w) as ->.
  { unfold read_colors, read_adata, bind, get_world, ret in Hc. simpl in Hc.
    destruct (uns (w_adata w) !! colors_key ul) as [[]|]; inversion Hc; reflexivity. }
  apply bind_ok_inv in H as (a & w1 & Ha & H). apply read_adata_inv in Ha as [-> ->].
  apply bind_ok_inv in H as (pts & w1 & Hp & H). apply lift_inv in Hp as [Hp ->].
  apply or_raise_ok_inv in Hp.
  apply bind_ok_inv in H as (g & w1 & Hg & H).
  destruct pts as [| |g0| |]; try discriminate Hg.
  destruct (decide (g_nodes g0 = [])); [discriminate Hg|].
  apply ret_inv in Hg as [-> ->].
  apply bind_ok_inv in H as (G & w1 & HG & H). simpl in HG.
  destruct (bool_decide (9999%Z ∈ g_nodes g0)) eqn:Hin; [|discriminate HG].
  apply bool_decide_eq_true_1 in Hin. apply ret_inv in HG as [-> ->].
  apply bind_ok_inv in H as (cd0 & w1 & Hcd & H). apply lift_inv in Hcd as [Hcd ->].
  apply or_raise_ok_inv in Hcd.
  apply bind_ok_inv in H as (cd & w1 & Hcd' & H).
  destruct cd0 as [| | |cd1|]; try discriminate Hcd'. apply ret_inv in Hcd' as [-> ->].
  assert (filter (fun e : Z * Z => e ∉ filter (fun e => e.1 = 9999%Z ∨ e.2 = 9999%Z)
                                       (g_edges g0)) (g_edges g0)
          = filter (fun e => ¬ (e.1 = 9999%Z ∨ e.2 = 9999%Z)) (g_edges g0)) as Hedges.
  { apply filter_edges_not_removed. }
  destruct (show_node (cp_draw self _)) eqn:Hsn.
  - destruct cd1 as [|c cd]; [|discriminate H]. apply ret_inv in H as [-> ->].
    split; [reflexivity|]. do 3 eexists. repeat split; try eassumption; try reflexivity.
  - apply ret_inv in H as [-> ->]. split; [reflexivity|].
    do 3 eexists. repeat split; try eassumption; try reflexivity.
    simpl in Hsn. congruence.
Qed.

(** X19. The graph that [_add_trajectories] draws is the graph stored under
    [uns["PTS_graph"]] without its node [9999] and without the edges that touch
    it, every other node and edge kept in order, drawn at the positions of
    [uns["centroid_dict"]] with the arrow style that [reverse] selects; the
    stored graph must hold the node [9999], the stored objects are not
    changed, and with [show_node] the method only returns for an empty
    [centroid_dict]. *)
Theorem trajectories_draw_graph_without_9999 (self self' : ClusterPlot) (w w' : World) :
  _add_trajectories self w = (Ok self', w') ->
  w' = w /\
  exists g cd G,
    uns (w_adata w) !! "PTS_graph" = Some (UGraph g) /\
    uns (w_adata w) !! "centroid_dict" = Some (UCentroids cd) /\
    (9999%Z ∈ g_nodes g) /\
    ax_artists (ax (cp_base self'))
    = (ax_artists (ax (cp_base self))
       ++ [AEdges G cd (if reverse self then "<|-" else "-|>")])%list /\
    (forall n, n ∈ g_nodes G <-> n ∈ g_nodes g /\ n <> 9999%Z) /\
    (forall e, e ∈ g_edges G <-> e ∈ g_edges g /\ e.1 <> 9999%Z /\ e.2 <> 9999%Z) /\
    g_nodes G `sublist_of` g_nodes g /\ g_edges G `sublist_of` g_edges g /\
    (show_node self = true -> cd = []).
Proof.
  intros H. apply add_trajectories_ok in H
    as (-> & g & cd & G & Hg & Hcd & Hin & -> & Hn & He & Hs).
  split; [reflexivity|]. exists g, cd, G.
  split; [exact Hg|]. split; [exact Hcd|]. split; [exact Hin|].
  split; [reflexivity|].
  split. { intros n. rewrite Hn, list_elem_of_filter. tauto. }
  split. { intros e. rewrite He, list_elem_of_filter. tauto. }
  split. { rewrite Hn. apply sublist_filter. }
  split. { rewrite He. apply sublist_filter. }
  exact Hs.
Qed.

End Cluster_steps.

(** ** What a [ClusterPlot] needs *)

Section Cluster_constructor.
Context `{Ext : Externals}.

Lemma add_sub_clusters_column (self self' : ClusterPlot) (w w' : World) :
  _add_sub_clusters self w = (Ok self', w') ->
  is_Some (obs_columns (query_adata (cp_base self)) !! "sub_cluster_labels").
Proof.
  unfold _add_sub_clusters. cbv zeta. intros H.
  apply bind_ok_inv in H as (u & w1 & H & _).
  destruct (bool_decide _) eqn:E; [|discriminate H].
  apply bool_decide_eq_true_1 in E. exact E.
Qed.

Lemma add_cluster_colors_use_label (self : ClusterPlot) (w w' : World) u :
  _add_cluster_colors self w = (Ok u, w') ->
  exists ul, use_label (cp_base self) = Some ul.
Proof.
  unfold _add_cluster_colors, get_use_label. intros H.
  apply bind_ok_inv in H as (ul & w1 & H & _). apply lift_inv in H as [H _].
  apply or_raise_ok_inv in H. eauto.
Qed.

Lemma same_world_after {A} (m : M World A) (w : World) :
  (forall I : World -> Prop, stable I m) -> (m w).2 = w.
Proof. intros H. apply (H (fun x => x = w)). reflexivity. Qed.

Lemma cluster_draw_steps sp p ssc scl st rv sn ts w self w' :
  ClusterPlot_draw sp p ssc scl st rv sn ts w = (Ok self, w') ->
  exists b0 ul self2 self3 self4,
    SpatialBasePlot_init sp (default_use_raw p) w = (Ok b0, w) /\
    use_label b0 = Some ul /\
    same_frame b0 (cp_base self2) /\
    (if scl then _add_cluster_labels self2 else ret self2) w' = (Ok self3, w') /\
    (if ssc then _add_sub_clusters self3 else ret self3) w' = (Ok self4, w') /\
    (if st then _add_trajectories self4 else ret self4) w' = (Ok self, w').
Proof.
  unfold ClusterPlot_draw. intros H.
  apply bind_ok_inv in H as (b & w0 & Hb & H).
  pose proof (base_init_fields _ _ _ _ _ Hb) as (-> & _).
  apply bind_ok_inv in H as (cm & w1 & Hcm & H). apply lift_inv in Hcm as [_ ->].
  cbv zeta in H.
  apply bind_ok_inv in H as (u & w2 & Hcol & H).
  apply add_cluster_colors_use_label in Hcol as [ul Hul]. simpl in Hul.
  apply bind_ok_inv in H as (s1 & w3 & H1 & H). apply lift_inv in H1 as [H1 ->].
  apply plot_clusters_frame in H1 as (H1 & _). simpl in H1.
  apply bind_ok_inv in H as (s2 & w4 & H2 & H).
  apply bind_ok_inv in H as (s3 & w5 & H3 & H).
  assert (w4 = w2) as ->.
  { change w4 with (Ok s2, w4).2. rewrite <- H2.
    apply same_world_after. intros I.
    destruct scl; [apply stable_add_cluster_labels | apply stable_ret]. }
  assert (w5 = w2) as ->.
  { change w5 with (Ok s3, w5).2. rewrite <- H3.
    apply same_world_after. intros I.
    destruct ssc; [apply stable_add_sub_clusters | apply stable_ret]. }
  assert (w' = w2) as ->.
  { change w' with (Ok self, w').2. rewrite <- H.
    apply same_world_after. intros I.
    destruct st; [apply stable_add_trajectories | apply stable_ret]. }
  exists b, ul, (if p_show_color_bar p then _add_cluster_bar s1 else s1), s2, s3.
  split; [exact Hb|]. split; [exact Hul|].
  split.
  { eapply same_frame_trans; [exact H1|].
    destruct (p_show_color_bar p); [apply same_frame_cp_draw | apply same_frame_refl]. }
  auto.
Qed.

(** X20. What a [ClusterPlot] that was constructed needed: a [use_label];
    with [show_cluster_labels], no cluster to label or a column of fewer than
    two categories; with [show_subcluster], a column [sub_cluster_labels] in
    the plotted data; with [show_trajectories], a graph under
    [uns["PTS_graph"]] that holds the node [9999] and positions under
    [uns["centroid_dict"]]. *)
Theorem cluster_plot_requirements (sp : Spatial) (p : Params)
    (ssc scl st rv sn : bool) (ts : Z) (w w' : World) (b : SpatialBasePlot) :
  construct (NewClusterPlot sp p ssc scl st rv sn ts) w = (Ok b, w') ->
  exists ul, p_use_label p = Some ul /\ use_label b = Some ul /\
    (scl = true ->
     list_clusters b = Some [] \/
     exists cats, cat_categories (query_adata b) ul = Ok cats /\ length cats < 2) /\
    (ssc = true -> is_Some (obs_columns (query_adata b) !! "sub_cluster_labels")) /\
    (st = true ->
     exists g cd, uns (w_adata w') !! "PTS_graph" = Some (UGraph g) /\
                  (9999%Z ∈ g_nodes g) /\
                  uns (w_adata w') !! "centroid_dict" = Some (UCentroids cd)).
Proof.
  intros H. rewrite construct_split in H by reflexivity.
  apply bind_ok_inv in H as (b1 & w1 & Hdp & H). simpl in Hdp, H.
  pose proof (crop_and_save_spec (p_crop p) (p_margin p) b1 w1) as [Hw Hs].
  apply bind_ok_inv in Hdp as (self & w2 & Hd & Hr). apply ret_inv in Hr as [-> ->].
  pose proof (cluster_draw_frame _ _ _ _ _ _ _ _ _ _ _ Hd) as (b0' & Hb0' & Hf').
  apply base_init_fields in Hb0' as (_ & _ & _ & Hfn & _). simpl in Hfn.
  assert (fname (cp_base self) = p_fname p) as Hfname.
  { unfold same_frame in Hf'. destruct_and!. congruence. }
  rewrite Hfname in Hw, Hs. simpl in Hw, Hs. rewrite H in Hw, Hs. simpl in Hw, Hs.
  destruct Hs as (_ & Hb & _).
  apply cluster_draw_steps in Hd as (b0 & ul & s2 & s3 & s4 & Hb0 & Hul & Hf2 & H3 & H4 & H5).
  pose proof (base_init_fields _ _ _ _ _ Hb0) as (_ & _ & Hul0 & _). simpl in Hul0.
  assert (same_frame (cp_base s2) (cp_base s3)) as Hf3.
  { destruct scl; [apply add_cluster_labels_frame in H3; exact H3
                  | apply ret_inv in H3 as [-> _]; apply same_frame_refl]. }
  assert (same_frame (cp_base s3) (cp_base s4)) as Hf4.
  { destruct ssc; [apply add_sub_clusters_frame in H4; exact H4
                  | apply ret_inv in H4 as [-> _]; apply same_frame_refl]. }
  assert (same_frame (cp_base s4) (cp_base self)) as Hf5.
  { destruct st; [apply add_trajectories_frame in H5; exact H5
                 | apply ret_inv in H5 as [-> _]; apply same_frame_refl]. }
  assert (query_adata b = query_adata (cp_base self) /\
          list_clusters b = list_clusters (cp_base self) /\
          use_label b = use_label (cp_base self)) as (Hbq & Hbl & Hbu).
  { rewrite Hb. simpl. auto. }
  assert (same_frame (cp_base s2) (cp_base self)) as Hs2.
  { eapply same_frame_trans; [exact Hf3|].
    eapply same_frame_trans; [exact Hf4 | exact Hf5]. }
  assert (same_frame (cp_base s3) (cp_base self)) as Hs3.
  { eapply same_frame_trans; [exact Hf4 | exact Hf5]. }
  exists ul. split; [congruence|].
  split. { pose proof (same_frame_trans _ _ _ Hf2 Hs2) as Hfb.
           unfold same_frame in Hfb. destruct_and!. congruence. }
  split; [|split].
  - intros ->. apply add_cluster_labels_ok in H3 as [Hlc | (ul' & cats & Hul' & Hc & Hl)].
    + left. unfold same_frame in Hs2. destruct_and!. congruence.
    + right. exists cats. unfold same_frame in Hs2, Hf2. destruct_and!.
      assert (ul' = ul) as -> by congruence.
      split; [|exact Hl]. rewrite Hbq.
      replace (query_adata (cp_base self)) with (query_adata (cp_base s2)) by congruence.
      exact Hc.
  - intros ->. apply add_sub_clusters_column in H4.
    unfold same_frame in Hs3. destruct_and!. congruence.
  - intros ->. apply add_trajectories_ok in H5 as (_ & g & cd & G & Hg & Hcd & Hin & _).
    exists g, cd. rewrite Hw. auto.
Qed.

End Cluster_constructor.

(** ** The colour codes of a [SubClusterPlot] *)

Lemma unique_elem_of (l : list string) x : x ∈ unique l <-> x ∈ l.
Proof.
  induction l as [|y l IH]; simpl; [reflexivity|].
  rewrite !elem_of_cons, list_elem_of_filter, IH.
  destruct (decide (x = y)); intuition.
Qed.

Lemma unique_NoDup (l : list string) : NoDup (unique l).
Proof.
  induction l as [|y l IH]; simpl; constructor.
  - rewrite list_elem_of_filter. intros [Hne _]. apply Hne. reflexivity.
  - apply NoDup_filter. exact IH.
Qed.

Lemma insert_sorted_perm x l : insert_sorted x l ≡ₚ x :: l.
Proof.
  induction l as [|y l IH]; simpl; [reflexivity|].
  destruct (String.leb x y); [reflexivity|]. rewrite IH. apply Permutation_swap.
Qed.

Lemma sort_strings_perm l : sort_strings l ≡ₚ l.
Proof.
  unfold sort_strings. induction l as [|x l IH]; simpl; [reflexivity|].
  rewrite insert_sorted_perm, IH. reflexivity.
Qed.

Lemma mapping_get_zip_seq (keys : list string) (c : string) : forall s,
  (c ∈ keys -> is_Some (mapping_get (zip keys (seq s (length keys))) c)) /\
  (forall k, mapping_get (zip keys (seq s (length keys))) c = Some k ->
     exists i, k = s + i /\ keys !! i = Some c).
Proof.
  unfold mapping_get. induction keys as [|y keys IH]; intros s; simpl.
  - split; [intros H; inversion H | discriminate].
  - destruct (decide (y = c)) as [->|Hne]; simpl.
    + split; [eauto|]. intros k [= <-]. exists 0. split; [lia | reflexivity].
    + destruct (IH (S s)) as [IH1 IH2]. split.
      * intros Hin. apply elem_of_cons in Hin as [->|Hin]; [contradiction|].
        apply IH1 in Hin as [k Hk].
        destruct (list_find _ (zip keys (seq (S s) (length keys)))) as [[j kv]|];
          simpl in *; [eauto | discriminate].
      * intros k Hk.
        destruct (list_find _ (zip keys (seq (S s) (length keys)))) as [[j kv]|] eqn:E;
          simpl in *; [|discriminate].
        destruct (IH2 k Hk) as (i & -> & Hi). exists (S i). split; [lia | exact Hi].
Qed.

Section Sub_cluster_codes.
Context `{Ext : Externals}.

(** X21. The scatter of [_plot_subclusters] colours every spot of the
    cluster by a number that stands for its sub-cluster label: the numbers are
    [0 .. n-1] for [n] distinct labels, every spot has one, and two spots
    have the same number exactly when they have the same label. *)
Theorem subcluster_codes_stand_for_labels (b : SpatialBasePlot) (cl : string)
    (w w' : World) (self : SubClusterPlot) :
  _plot_subclusters b cl w = (Ok self, w') ->
  exists ul xs ys codes,
    use_label b = Some ul /\
    let labels := cell "sub_cluster_labels" <$> rows_of (w_adata w) ul cl in
    ax_artists (ax (sc_base self))
    = (ax_artists (ax b)
       ++ [AScatter xs ys (CCodes codes (cmap b)) None (cell_alpha b) (size b)])%list /\
    vals self = seq 0 (length (unique labels)) /\
    codes = mapping_get (mapping self) <$> labels /\
    Forall (fun lbl => exists k, mapping_get (mapping self) lbl = Some k /\ k ∈ vals self)
      labels /\
    (forall l1 l2 k, mapping_get (mapping self) l1 = Some k ->
                     mapping_get (mapping self) l2 = Some k -> l1 = l2).
Proof.
  unfold _plot_subclusters, get_use_label. cbv zeta. intros H.
  apply bind_ok_inv in H as (ul & w1 & Hul & H). apply lift_inv in Hul as [Hul ->].
  apply or_raise_ok_inv in Hul.
  apply bind_ok_inv in H as (a & w1 & Ha & H). apply read_adata_inv in Ha as [-> ->].
  apply bind_ok_inv in H as (u & w1 & Hc & H).
  destruct (bool_decide (is_Some (obs_columns (w_adata w) !! ul))); [|discriminate Hc].
  apply ret_inv in Hc as [_ ->].
  apply bind_ok_inv in H as (colors & w1 & Hcol & H). apply lift_inv in Hcol as [Hcol ->].
  unfold obs_column in Hcol.
  destruct (bool_decide (is_Some (obs_columns (w_adata w) !! "sub_cluster_labels")));
    [|discriminate Hcol].
  injection Hcol as <-.
  apply bind_ok_inv in H as (sub & w1 & _ & H).
  apply bind_ok_inv in H as (xy & w2 & _ & H).
  apply bind_ok_inv in H as (cm & w3 & _ & H).
  apply ret_inv in H as [-> _].
  set (labels := cell "sub_cluster_labels" <$> rows_of (w_adata w) ul cl).
  pose proof (sort_strings_perm (unique labels)) as Hperm.
  exists ul, xy.1, xy.2, (mapping_get (zip (sort_strings (unique labels))
                                      (seq 0 (length (sort_strings (unique labels)))))
                          <$> labels).
  split; [exact Hul|]. simpl.
  split; [reflexivity|].
  split; [rewrite (Permutation_length Hperm); reflexivity|].
  split; [reflexivity|].
  split.
  - apply Forall_forall. intros lbl Hin.
    destruct (mapping_get_zip_seq (sort_strings (unique labels)) lbl 0) as [H1 H2].
    destruct H1 as [k Hk]. { rewrite Hperm. apply unique_elem_of. exact Hin. }
    exists k. split; [exact Hk|].
    destruct (H2 k Hk) as (i & -> & Hi). apply elem_of_seq. apply lookup_lt_Some in Hi. lia.
  - intros l1 l2 k H1 H2.
    apply (mapping_get_zip_seq (sort_strings (unique labels)) l1 0) in H1 as (i & -> & Hi).
    apply (mapping_get_zip_seq (sort_strings (unique labels)) l2 0) in H2 as (j & Hj & Hj').
    assert (j = i) as -> by lia. congruence.
Qed.

End Sub_cluster_codes.

(** ** The [obsm] entry a [CciPlot] shows *)

Section Cci.
Context `{Ext : Externals}.






End Cci.

(** ** Warnings *)

Section Warnings.
Context `{Ext : Externals}.

Lemma stable_get_gene_expression_quiet (I : World -> Prop) (self : GenePlot) :
  match gene_symbols self with GList (_ :: _ :: _) => False | _ => True end ->
  stable I (GenePlot_get_gene_expression self).
Proof.
  unfold GenePlot_get_gene_expression. cbv zeta.
  destruct (gene_symbols self) as [|s|[|g [|g2 l]]]; intros Hq; try contradiction;
    repeat stable_step.
Qed.

Lemma stable_geneplot_draw_quiet (I : World -> Prop) sp p genes th m ct st :
  match genes with GList (_ :: _ :: _) => False | _ => True end ->
  stable I (GenePlot_draw_with GenePlot_get_gene_expression sp p genes th m ct st).
Proof.
  intros Hq. unfold GenePlot_draw_with.
  apply stable_bind; [apply stable_base_init|]. intros b.
  apply stable_bind; [apply stable_lift|]. intros m'.
  apply stable_bind_ok.
  { destruct (title b), genes; repeat stable_step. }
  intros r w w1 Hr. cbv zeta.
  apply stable_bind.
  { apply stable_get_gene_expression_quiet. simpl.
    destruct (title b), genes as [|g|l]; unfold raise in Hr; try discriminate Hr;
      apply ret_inv in Hr as [-> _]; simpl; auto. }
  intros vs. repeat stable_step.
Qed.

(** X26. The one call of [warnings.warn] in the plotting code, in the gene
    loop of [_get_gene_expression], is reached only by a [GenePlot] for a
    list of two or more gene symbols: every other constructor call, whether
    it returns or raises, leaves the warnings of the code as they were. (The
    log holds the warnings of the code itself, not those that the libraries
    it calls may issue.) *)
Theorem only_gene_lists_warn (c : plot_call) (w : World) :
  may_warn c = false ->
  warnings_of (w_log (construct c w).2) = warnings_of (w_log w).
Proof.
  intros Hq.
  set (I := fun w' : World => warnings_of (w_log w') = warnings_of (w_log w)).
  assert (forall f d, stable I (emit (EvSaveFig f d))) as Hsave.
  { intros f d. apply log_filter_emit. reflexivity. }
  assert (forall k v, stable I (write_uns k v)) as Huns.
  { intros k v. apply log_filter_write_uns. }
  assert (stable I (construct c)) as Hst; [|apply Hst; reflexivity].
  destruct (draws c) eqn:Hd.
  - intros w0 Hw0. rewrite construct_split by exact Hd. revert w0 Hw0.
    apply stable_bind; [|intros b; apply stable_crop_and_save; exact Hsave].
    destruct c as [sp p|sp p genes th m ct st|sp p ssc scl str rv sn ts|sp p cl
                  |sp p het ct st]; simpl.
    + apply stable_base_init.
    + apply stable_bind; [|intros; apply stable_ret].
      apply stable_geneplot_draw_quiet. simpl in Hq.
      destruct genes as [|?|[|? [|? ?]]]; auto; discriminate Hq.
    + apply stable_bind; [|intros; apply stable_ret].
      apply stable_cluster_draw. intros ul v _. apply Huns.
    + apply stable_bind; [|intros; apply stable_ret]. apply stable_subcluster_draw.
    + apply stable_bind; [|intros; apply stable_ret].
      apply stable_geneplot_draw_with. intros self. apply stable_cci_get_gene_expression.
  - destruct c; try discriminate. simpl. apply stable_base_init.
Qed.

End Warnings.

(** ** The data loader, when it fails *)

Section Datasets_failures.
Context (datasetdir : path) (remote : string -> option string)
        (h5ad_parse : string -> result AnnData).

Local Abbreviation file := (bcba_filename datasetdir).
Local Abbreviation run := (example_bcba datasetdir remote h5ad_parse).
Local Abbreviation calls_ := (calls datasetdir remote h5ad_parse).

Lemma is_dir_lookup (fs : gmap path node) (p : path) :
  p <> [] -> is_dir fs p = match fs !! p with Some Dir => true | _ => false end.
Proof. intros Hne. unfold is_dir. destruct (decide _); [contradiction | reflexivity]. Qed.

Lemma path_obstacle_kind fs todo : forall done e,
  path_obstacle fs done todo = Some e -> e = FileNotFoundError \/ e = NotADirectoryError.
Proof.
  induction todo as [|c todo IH]; intros done e; simpl; [discriminate|].
  destruct (fs !! (done ++ [c])%list) as [[|content]|]; [apply IH | | ]; intros [= <-]; auto.
Qed.

Lemma path_obstacle_last fs todo c : forall done,
  path_obstacle fs done todo = None ->
  path_obstacle fs done (todo ++ [c])
  = match fs !! (done ++ todo ++ [c])%list with
    | Some Dir => None
    | Some (File _) => Some NotADirectoryError
    | None => Some FileNotFoundError
    end.
Proof.
  induction todo as [|d todo IH]; intros done; simpl.
  - intros _. destruct (fs !! (done ++ [c])%list) as [[|content]|]; reflexivity.
  - destruct (fs !! (done ++ [d])%list) as [[|content]|]; try discriminate.
    intros H. rewrite (IH _ H), <- app_assoc. reflexivity.
Qed.

(** X23. [example_bcba] does not create missing parents of the dataset
    directory. When the path of the directory is a regular file it raises
    [FileExistsError]. When the directory is missing and its parent is not a
    directory it raises [FileNotFoundError] or [NotADirectoryError]: with
    directories all the way down to the parent, [FileNotFoundError] when the
    parent is missing and [NotADirectoryError] when the parent is a regular
    file. In each case nothing is written and nothing is asked of the
    network. *)
Theorem example_bcba_needs_parent_directory (w : DWorld) :
  is_dir (d_fs w) datasetdir = false ->
  (is_file (d_fs w) datasetdir = true -> run w = (Raise FileExistsError, w)) /\
  (is_file (d_fs w) datasetdir = false -> is_dir (d_fs w) (parent datasetdir) = false ->
   exists e, run w = (Raise e, w) /\
     (e = FileNotFoundError \/ e = NotADirectoryError) /\
     (path_obstacle (d_fs w) [] (parent (parent datasetdir)) = None ->
      (d_fs w !! parent datasetdir = None -> e = FileNotFoundError) /\
      (is_file (d_fs w) (parent datasetdir) = true -> e = NotADirectoryError))).
Proof.
  intros Hd. unfold example_bcba, bind, mkdir_exist_ok. rewrite Hd. split.
  - intros ->. reflexivity.
  - intros -> Hp. rewrite Hp. eexists. split; [reflexivity|]. split.
    + destruct (path_obstacle _ _ _) as [e|] eqn:E; simpl; [|auto].
      eapply path_obstacle_kind, E.
    + assert (parent datasetdir <> []) as Hne.
      { intros E. unfold is_dir in Hp. rewrite E in Hp.
        destruct (decide _); [discriminate | contradiction]. }
      unfold is_file. revert Hp Hne. generalize (parent datasetdir) as q. intros q Hp Hne Hup.
      destruct (exists_last Hne) as (q0 & c & ->).
      unfold parent in Hup. rewrite removelast_last in Hup.
      rewrite (path_obstacle_last _ _ _ _ Hup). simpl.
      rewrite is_dir_lookup in Hp by exact Hne.
      match type of Hp with
      | match ?t with _ => _ end = _ =>
          repeat match goal with
                 | |- context [match ?u with _ => _ end] =>
                     lazymatch u with t => fail | _ => change u with t end
                 end;
          destruct t as [[|content]|]
      end; simpl.
      * discriminate Hp.
      * split; [discriminate | reflexivity].
      * split; [reflexivity | discriminate].
Qed.

(** X24. A cache file that the reader rejects is never replaced: with the
    directory and the file in place, every call raises what the reader
    raises on the file's content, and any number of calls leaves the files
    and the log as they were. *)
Theorem unreadable_cache_is_kept (w : DWorld) (content : string) (e : exn) :
  is_dir (d_fs w) datasetdir = true ->
  d_fs w !! file = Some (File content) ->
  h5ad_parse content = Raise e ->
  forall n, calls_ n w = w /\ run (calls_ n w) = (Raise e, w).
Proof.
  intros Hd Hf He.
  pose proof (example_bcba_again datasetdir remote h5ad_parse w content Hd Hf) as Hrun.
  rewrite He in Hrun.
  assert (forall n, calls_ n w = w) as Hcalls.
  { induction n as [|n IH]; simpl; [reflexivity|]. rewrite Hrun. exact IH. }
  intros n. rewrite Hcalls. auto.
Qed.

Lemma failed_download_step (w : DWorld) :
  remote bcba_url = None ->
  is_file (d_fs w) file = false ->
  is_dir (d_fs w) datasetdir = true \/
  (is_file (d_fs w) datasetdir = false /\ is_dir (d_fs w) (parent datasetdir) = true) ->
  (run w).1 = Raise (ExternalError "URLError") /\
  d_log (run w).2 = (d_log w ++ [EvDownload bcba_url file])%list /\
  is_file (d_fs (run w).2) file = false /\
  is_dir (d_fs (run w).2) datasetdir = true.
Proof.
  intros Hr Hf Hdir. unfold example_bcba, bind, mkdir_exist_ok, get_world, ret, _download.
  destruct (is_dir (d_fs w) datasetdir) eqn:Hd; simpl.
  - rewrite Hf, Hr. simpl. auto.
  - destruct Hdir as [?|[-> ->]]; [discriminate|]. simpl.
    rewrite is_file_insert_dir, Hf, Hr. simpl. rewrite is_file_insert_dir.
    repeat split; auto.
    unfold is_dir. rewrite lookup_insert_eq. destruct (decide _); reflexivity.
Qed.

(** X25. A download that fails leaves no cache file, so every call asks the
    network again: when the request for the file fails, the cache file is
    missing and the dataset directory is there or can be made, [n] calls in a
    row each raise [URLError] and together add [n] download attempts to the
    log. *)
Theorem failed_download_is_retried (w : DWorld) :
  remote bcba_url = None ->
  is_file (d_fs w) file = false ->
  is_dir (d_fs w) datasetdir = true \/
  (is_file (d_fs w) datasetdir = false /\ is_dir (d_fs w) (parent datasetdir) = true) ->
  forall n,
    d_log (calls_ n w) = (d_log w ++ replicate n (EvDownload bcba_url file))%list /\
    is_file (d_fs (calls_ n w)) file = false /\
    (run (calls_ n w)).1 = Raise (ExternalError "URLError").
Proof.
  intros Hr Hf Hdir n. revert w Hf Hdir. induction n as [|n IH]; intros w Hf Hdir; simpl.
  - rewrite app_nil_r. split; [reflexivity|]. split; [exact Hf|].
    apply failed_download_step; assumption.
  - destruct (failed_download_step w Hr Hf Hdir) as (_ & Hl & Hf' & Hd').
    destruct (IH (run w).2 Hf' (or_introl Hd')) as (IHl & IHf & IHr).
    split; [|split; assumption].
    rewrite IHl, Hl, <- app_assoc. reflexivity.
Qed.

End Datasets_failures.

(** ** The further properties at work on the concrete settings *)

Lemma list_clusters_needs_use_label_witness :
  @construct demo_externals
    (NewGenePlot demo_spatial (demo_params "jet" None (ClList ["1"]) true None)
       (GList ["GeneA"]) None "CumSum" false None) demo_world
  = (Raise (AssertionError "Please specify `use_label` parameter!"), demo_world).
Proof.
  etransitivity.
  - apply (@list_clusters_needs_use_label demo_externals _ demo_world);
      [reflexivity | discriminate].
  - reflexivity.
Defined.

Lemma use_label_must_be_a_column_witness :
  @construct demo_externals
    (NewClusterPlot demo_spatial (demo_params "jet" (Some "leiden") ClNone true None)
       false false false false false 5%Z) demo_world
  = (Raise (AssertionError "Please choose the right label in `adata.obs.columns`!"),
     demo_world).
Proof.
  etransitivity.
  - apply (@use_label_must_be_a_column demo_externals _ demo_world "leiden");
      [reflexivity | vm_compute; reflexivity].
  - reflexivity.
Defined.

Lemma query_indexes_locate_clusters_witness :
  exists b w' lc qi,
    @construct demo_externals
      (NewGenePlot demo_spatial (demo_params "jet" (Some "clusters") (ClList ["1"]) true None)
         (GList ["GeneA"]) None "CumSum" false None) demo_world = (Ok b, w') /\
    list_clusters b = Some lc /\ query_indexes b = Some qi /\
    Forall2 (fun cl idx => ["0"; "1"] !! idx = Some cl) lc qi.
Proof.
  destruct (@construct demo_externals _ demo_world) as [[b|e] w'] eqn:E;
    [|vm_compute in E; discriminate E].
  destruct (query_indexes_locate_clusters _ _ _ _ "clusters" E eq_refl)
    as (cats & lc & qi & Hcol & Hlc & Hqi & HF).
  assert (cats = ["0"; "1"]) as -> by (vm_compute in Hcol; congruence).
  exists b, w', lc, qi. split; [reflexivity|]. split; [exact Hlc|]. split; [exact Hqi|].
  eapply Forall2_impl; [exact HF|]. intros cl idx [H _]. exact H.
Defined.

Lemma unknown_cluster_raises_witness :
  @construct demo_externals
    (NewSubClusterPlot demo_spatial (demo_params "jet" (Some "clusters") (ClList ["7"]) true None)
       "7") demo_world
  = (Raise IndexError, demo_world).
Proof.
  etransitivity.
  - apply (@unknown_cluster_raises demo_externals _ demo_world "clusters" ["0"; "1"]);
      [reflexivity | vm_compute; reflexivity |].
    apply Exists_cons_hd. apply (bool_decide_unpack _). vm_compute. exact Logic.I.
  - reflexivity.
Defined.

Lemma without_use_label_all_plotted_witness :
  exists b w',
    @construct demo_externals
      (NewGenePlot demo_spatial (demo_params "jet" None ClNone true None)
         (GList ["GeneA"]) None "CumSum" false None) demo_world = (Ok b, w') /\
    query_adata b = demo_adata /\ list_clusters b = None.
Proof.
  destruct (@construct demo_externals _ demo_world) as [[b|e] w'] eqn:E;
    [|vm_compute in E; discriminate E].
  exists b, w'. split; [reflexivity|].
  destruct (without_use_label_all_plotted _ _ _ _ E eq_refl) as (Hq & Hl & _).
  simpl in Hq. injection Hq as <-. auto.
Defined.

Lemma crop_contains_coordinates_witness :
  exists a x0 x1 y0 y1,
    @_crop_image demo_externals demo_cluster_base 100 = Ok a /\
    ax_xlim a = Some (x0, x1) /\ ax_ylim a = Some (y0, y1) /\
    (x0 <= 25)%Q /\ (25 <= x1)%Q /\ (y1 <= 40)%Q /\ (40 <= y0)%Q.
Proof.
  destruct (@_crop_image demo_externals demo_cluster_base 100) as [a|e] eqn:E;
    [|vm_compute in E; discriminate E].
  destruct (crop_contains_coordinates _ _ _ E) as (x0 & x1 & y0 & y1 & Hx & Hy & Hc & Hr);
    [discriminate|].
  exists a, x0, x1, y0, y1. split; [reflexivity|]. split; [exact Hx|]. split; [exact Hy|].
  destruct (Hc 25%Q) as [? ?]; [apply (list_elem_of_lookup_2 _ 2); reflexivity|].
  destruct (Hr 40%Q) as [? ?]; [apply (list_elem_of_lookup_2 _ 3); reflexivity|]. auto.
Defined.

Lemma gene_values_skip_isolated_absent_witness :
  exists vals,
    GenePlot_get_gene_expression
      (gp_set_genes demo_gene_plot (GList ["GeneX"; "GeneB"; "GeneY"])) demo_world
    = (Ok (vals, gp_set_genes demo_gene_plot (GList ["GeneB"])),
       mkWorld demo_adata [removal_warning "GeneX"; removal_warning "GeneY"]) /\
    length vals = 4.
Proof.
  destruct (@gene_values_skip_isolated_absent demo_externals
              (gp_set_genes demo_gene_plot (GList ["GeneX"; "GeneB"; "GeneY"])) demo_world
              ["GeneX"; "GeneB"; "GeneY"]) as (vals & Hrun & Hvals).
  - reflexivity.
  - simpl. lia.
  - vm_compute. reflexivity.
  - apply (bool_decide_unpack _). vm_compute. exact Logic.I.
  - repeat constructor.
  - exists vals. split.
    + etransitivity; [exact Hrun|]. reflexivity.
    + apply Forall2_length in Hvals. rewrite <- Hvals. reflexivity.
Defined.

Lemma single_gene_values_witness :
  exists vals,
    GenePlot_get_gene_expression (gp_set_genes demo_gene_plot (GList ["GeneB"])) demo_world
    = (Ok (vals, gp_set_genes demo_gene_plot (GList ["GeneB"])), demo_world) /\
    Forall2 (fun s v => expression demo_adata s "GeneB" = Some v) demo_spots vals.
Proof.
  apply (@single_gene_values demo_externals
           (gp_set_genes demo_gene_plot (GList ["GeneB"])) demo_world "GeneB").
  - reflexivity.
  - apply (list_elem_of_lookup_2 _ 1). reflexivity.
  - apply (bool_decide_unpack _). vm_compute. exact Logic.I.
  - repeat constructor.
Defined.

Lemma gene_plot_rejects_missing_gene_witness :
  @GenePlot_init demo_externals demo_spatial (demo_params "jet" None ClNone true None)
    (GList ["GeneX"]) None "CumSum" false None demo_world
  = (Raise (ValueError "GeneX is not exist in the data, please try another gene"),
     demo_world).
Proof.
  destruct (@SpatialBasePlot_init demo_externals demo_spatial
              (demo_params "jet" None ClNone true None) demo_world) as [[b|e] w1] eqn:E;
    [|vm_compute in E; discriminate E].
  pose proof (base_init_fields _ _ _ _ _ E) as (-> & _).
  assert (query_adata b = demo_adata) as Hq.
  { pose proof (base_init_state _ _ _ _ _ E) as (_ & _ & _ & _ & _ & Hst).
    simpl in Hst. destruct Hst as (_ & _ & _ & Hsrc). congruence. }
  destruct (@gene_plot_rejects_missing_gene demo_externals demo_spatial
              (demo_params "jet" None ClNone true None) None "CumSum" false None demo_world
              b "GeneX" E) as [_ H]; [vm_compute; eauto|].
  destruct H as [H _]; [|exact H].
  rewrite Hq. apply (bool_decide_unpack _). vm_compute. exact Logic.I.
Defined.

Lemma gene_scatter_range_covers_values_witness :
  exists self' xs ys cm vmin vmax al sz,
    @_plot_genes demo_externals demo_gene_plot [1; 5; 0; 5]%Q = Ok self' /\
    ax_artists (ax (gp_base self'))
    = [AScatter xs ys (CValues [1; 5; 0; 5]%Q cm vmin vmax) None al sz] /\
    (vmin <= 0)%Q /\ (5 <= vmax)%Q.
Proof.
  destruct (@_plot_genes demo_externals demo_gene_plot [1; 5; 0; 5]%Q) as [self'|e] eqn:E;
    [|vm_compute in E; discriminate E].
  destruct (proj2 (@gene_scatter_range_covers_values demo_externals demo_gene_plot
                     [1; 5; 0; 5]%Q) self' E)
    as (xs & ys & cm & vmin & vmax & al & sz & Hart & _ & _ & Hall).
  exists self', xs, ys, cm, vmin, vmax, al, sz. split; [reflexivity|].
  split; [exact Hart|].
  destruct (Hall 0%Q) as [? _]; [apply (list_elem_of_lookup_2 _ 2); reflexivity|].
  destruct (Hall 5%Q) as [_ ?]; [apply (list_elem_of_lookup_2 _ 1); reflexivity|]. auto.
Defined.

Lemma contour_step_is_positive_witness :
  exists self' st,
    @_plot_contour demo_externals demo_contour_plot [10; 50; 0; 50]%Q = Ok self' /\
    step_size self' = Some st /\ (1 <= st)%Z.
Proof.
  destruct (@_plot_contour demo_externals demo_contour_plot [10; 50; 0; 50]%Q)
    as [self'|e] eqn:E; [|vm_compute in E; discriminate E].
  destruct (contour_step_is_positive _ _ _ E) as (st & Hst & _ & Hstep).
  exists self', st. split; [reflexivity|]. split; [exact Hst|].
  simpl in Hstep. tauto.
Defined.

Lemma cluster_colors_stored_witness :
  _add_cluster_colors demo_cluster_plot demo_world
  = (Ok tt,
     mkWorld (set_uns demo_adata
                (<[ "clusters_colors" := UColors [stored_color demo_cluster_plot 0;
                                                  stored_color demo_cluster_plot 1] ]>
                   (uns demo_adata))) []).
Proof.
  apply (proj1 (@cluster_colors_stored demo_externals demo_cluster_plot demo_world
                  "clusters" ["0"; "1"] eq_refl eq_refl)).
  discriminate.
Defined.

Lemma cluster_scatters_follow_list_order_witness :
  exists self' (a0 a1 : @artist demo_externals),
    _plot_clusters demo_cluster_plot = Ok self' /\
    ax_artists (ax (cp_base self')) = [a0; a1] /\
    exists xs ys al sz,
      a1 = @AScatter demo_externals xs ys (@CFixed demo_externals (1 # 255)%Q) (Some "1") al sz.
Proof.
  destruct (_plot_clusters demo_cluster_plot) as [self'|e] eqn:E;
    [|vm_compute in E; discriminate E].
  destruct (groupby (query_adata (cp_base demo_cluster_plot)) "clusters") as [groups|e] eqn:Eg;
    [|vm_compute in Eg; discriminate Eg].
  destruct (@cluster_scatters_follow_list_order demo_externals demo_cluster_plot self'
              "clusters" groups ["0"; "1"] ["0"; "1"] [0; 1] E eq_refl Eg eq_refl)
    as (new & Hnew & HF).
  - repeat constructor.
  - vm_compute in Eg. injection Eg as <-. reflexivity.
  - apply Forall2_cons_inv_l in HF as (a0 & new' & _ & HF & ->).
    apply Forall2_cons_inv_l in HF as (a1 & new'' & H1 & HF & ->).
    apply Forall2_nil_inv_l in HF as ->.
    exists self', a0, a1. split; [reflexivity|]. split; [exact Hnew|].
    destruct H1 as (xs & ys & idx & pos & al & sz & -> & Hidx & Hpos).
    destruct idx as [|[|idx]]; simpl in Hidx; try discriminate Hidx.
    vm_compute in Hpos. injection Hpos as <-. eauto.
Defined.

Lemma cluster_labels_need_single_category_witness :
  _add_cluster_labels demo_cluster_plot demo_world
  = (Raise (NameError "spatial"), demo_world).
Proof.
  destruct (subset_scaled (cp_base demo_cluster_plot)
              (spot_name <$> rows_of (query_adata (cp_base demo_cluster_plot)) "clusters" "0"))
    as [xy|e] eqn:E; [|vm_compute in E; discriminate E].
  apply (@cluster_labels_need_single_category demo_externals demo_cluster_plot demo_world
           "0" "clusters" ["1"] ["0"; "1"] xy eq_refl eq_refl E eq_refl).
  simpl. lia.
Defined.

Lemma trajectories_draw_graph_without_9999_witness :
  exists self' G cd style,
    _add_trajectories demo_cluster_plot demo_traj_world = (Ok self', demo_traj_world) /\
    ax_artists (ax (cp_base self')) = [AEdges G cd style] /\
    ~ (9999%Z ∈ g_nodes G) /\ ~ ((9999, 0)%Z ∈ g_edges G) /\ ((0, 1)%Z ∈ g_edges G).
Proof.
  destruct (_add_trajectories demo_cluster_plot demo_traj_world) as [[self'|e] w'] eqn:E;
    [|vm_compute in E; discriminate E].
  destruct (trajectories_draw_graph_without_9999 _ _ _ _ E)
    as (-> & g & cd & G & Hg & _ & _ & Hart & Hn & He & _).
  exists self', G, cd, "-|>". split; [reflexivity|]. split; [exact Hart|].
  assert (g = mkGraph [0; 1; 9999]%Z [(0, 1); (9999, 0); (1, 9999)]%Z) as ->.
  { vm_compute in Hg. congruence. }
  split; [|split].
  - intros H. apply Hn in H as [_ H]. apply H. reflexivity.
  - intros H. apply He in H as (_ & H & _). apply H. reflexivity.
  - apply He. split; [apply (list_elem_of_lookup_2 _ 0); reflexivity|].
    split; discriminate.
Defined.

Lemma cluster_plot_requirements_witness :
  exists b w' g,
    @construct demo_externals
      (NewClusterPlot demo_spatial (demo_params "jet" (Some "clusters") ClNone true None)
         false false true false false 5%Z) demo_traj_world = (Ok b, w') /\
    use_label b = Some "clusters" /\
    uns (w_adata w') !! "PTS_graph" = Some (UGraph g) /\ (9999%Z ∈ g_nodes g).
Proof.
  destruct (@construct demo_externals _ demo_traj_world) as [[b|e] w'] eqn:E;
    [|vm_compute in E; discriminate E].
  destruct (cluster_plot_requirements _ _ _ _ _ _ _ _ _ _ _ E)
    as (ul & Hul & Hb & _ & _ & Hst).
  destruct (Hst eq_refl) as (g & cd & Hg & Hin & _).
  simpl in Hul. injection Hul as <-.
  exists b, w', g. auto.
Defined.

Lemma subcluster_codes_stand_for_labels_witness :
  exists self xs ys codes al sz,
    _plot_subclusters demo_cluster_base "0" demo_sub_world = (Ok self, demo_sub_world) /\
    ax_artists (ax (sc_base self)) = [AScatter xs ys (CCodes codes "jet") None al sz] /\
    vals self = [0; 1] /\ length codes = 3.
Proof.
  destruct (_plot_subclusters demo_cluster_base "0" demo_sub_world) as [[self|e] w'] eqn:E;
    [|vm_compute in E; discriminate E].
  assert (w' = demo_sub_world) as ->.
  { change w' with (Ok self, w').2. rewrite <- E.
    apply (@stable_plot_subclusters demo_externals (fun x => x = demo_sub_world)).
    reflexivity. }
  destruct (subcluster_codes_stand_for_labels _ _ _ _ _ E)
    as (ul & xs & ys & codes & Hul & Hart & Hvals & Hcodes & _).
  simpl in Hul. injection Hul as <-.
  exists self, xs, ys, codes, 1%Q, 7%Q. split; [reflexivity|].
  split; [exact Hart|]. split; [rewrite Hvals; vm_compute; reflexivity|].
  rewrite Hcodes, length_fmap. vm_compute. reflexivity.
Defined.


Lemma only_gene_lists_warn_witness :
  warnings_of (w_log (@construct demo_externals
                        (NewGenePlot demo_spatial (demo_params "jet" None ClNone true None)
                           (GList ["GeneX"]) None "CumSum" false None) demo_world).2)
  = [].
Proof.
  etransitivity; [apply (@only_gene_lists_warn demo_externals); reflexivity|].
  reflexivity.
Defined.

Lemma example_bcba_needs_parent_directory_witness :
  example_bcba ["data"; "stlearn"] demo_remote demo_parse demo_dworld
  = (Raise FileNotFoundError, demo_dworld) /\
  example_bcba ["data"; "stlearn"] demo_remote demo_parse demo_parent_is_file
  = (Raise NotADirectoryError, demo_parent_is_file).
Proof.
  split.
  - destruct (example_bcba_needs_parent_directory ["data"; "stlearn"] demo_remote demo_parse
                demo_dworld eq_refl) as [_ H].
    destruct (H eq_refl eq_refl) as (e & Hrun & _ & He).
    destruct (He eq_refl) as [He1 _]. rewrite (He1 eq_refl) in Hrun. exact Hrun.
  - destruct (example_bcba_needs_parent_directory ["data"; "stlearn"] demo_remote demo_parse
                demo_parent_is_file eq_refl) as [_ H].
    destruct (H eq_refl eq_refl) as (e & Hrun & _ & He).
    destruct (He eq_refl) as [_ He2]. rewrite (He2 eq_refl) in Hrun. exact Hrun.
Defined.

Lemma unreadable_cache_is_kept_witness :
  calls demo_datasetdir demo_remote demo_parse 3 demo_bad_cache = demo_bad_cache /\
  example_bcba demo_datasetdir demo_remote demo_parse
    (calls demo_datasetdir demo_remote demo_parse 3 demo_bad_cache)
  = (Raise (ExternalError "OSError"), demo_bad_cache).
Proof.
  apply (unreadable_cache_is_kept demo_datasetdir demo_remote demo_parse demo_bad_cache
           "truncated" (ExternalError "OSError")).
  - vm_compute. reflexivity.
  - vm_compute. reflexivity.
  - vm_compute. reflexivity.
Defined.

Lemma failed_download_is_retried_witness :
  d_log (calls demo_datasetdir demo_offline demo_parse 3 demo_dworld)
  = replicate 3 (EvDownload bcba_url (bcba_filename demo_datasetdir)) /\
  is_file (d_fs (calls demo_datasetdir demo_offline demo_parse 3 demo_dworld))
    (bcba_filename demo_datasetdir) = false.
Proof.
  destruct (failed_download_is_retried demo_datasetdir demo_offline demo_parse demo_dworld
              eq_refl) with (n := 3) as (Hl & Hf & _).
  - reflexivity.
  - right. split; reflexivity.
  - split; [exact Hl | exact Hf].
Defined.

Lemma crop_needs_coordinates_witness :
  is_ok (@_crop_image demo_externals demo_cluster_base 100) = true.
Proof.
  apply (proj1 (@crop_needs_coordinates demo_externals demo_cluster_base 100)); discriminate.
Defined.
